(** * A shallow embedding of the bingo session coordinator (server.js)

    The Socket.io handlers of server.js are embedded as functions on an
    explicit server state.  JavaScript objects that are shared by reference
    (room objects held by the [rooms] Map and captured by the win-check
    timers, user objects held by the [users] Map and captured by the same
    timers) live in append-only object stores and are named by their index,
    so that a timer firing after its room was closed still mutates the room
    object it captured and not whatever the registry holds by then.

    Sources of non-determinism (Math.random, Date.now / new Date, the size of
    the history file on disk) are inputs of the events.  Strings are held as
    UTF-8; [String.prototype.trim] is defined on them, and
    [String.prototype.toLowerCase] is a parameter of the handlers. *)

From stdpp Require Import gmap strings list pretty sorting.
From Stdlib Require Import ZArith Ascii.

#[local] Set Warnings "-clear-no-such-hyp".

Local Open Scope string_scope.
Local Open Scope Z_scope.
Local Open Scope list_scope.

(** ** JavaScript helpers *)

(** Truthiness of a value that is a string, null or undefined. *)
Definition truthy (v : option string) : bool :=
  match v with
  | Some s => bool_decide (s ≠ "")
  | None => false
  end.

(** A JavaScript [Set]: insertion ordered, [add] ignores a present value. *)
Definition set_add `{EqDecision A} (x : A) (l : list A) : list A :=
  if bool_decide (x ∈ l) then l else l ++ [x].

Definition set_has `{EqDecision A} (x : A) (l : list A) : bool :=
  bool_decide (x ∈ l).

Definition set_delete `{EqDecision A} (x : A) (l : list A) : list A :=
  filter (λ y, y ≠ x) l.

(** A JavaScript [Map] whose iteration order matters: an association list in
    insertion order; [set] on a present key keeps its position. *)
Fixpoint map_get {V} (k : string) (m : list (string * V)) : option V :=
  match m with
  | [] => None
  | (k', v) :: m' => if bool_decide (k' = k) then Some v else map_get k m'
  end.

Fixpoint map_set {V} (k : string) (v : V) (m : list (string * V)) : list (string * V) :=
  match m with
  | [] => [(k, v)]
  | (k', v') :: m' =>
      if bool_decide (k' = k) then (k', v) :: m' else (k', v') :: map_set k v m'
  end.

Definition map_has {V} (k : string) (m : list (string * V)) : bool :=
  bool_decide (is_Some (map_get k m)).

(** ** Strings

    A JavaScript string (of well-formed UTF-16) is held as its UTF-8
    encoding, one [ascii] per byte; this is also how a string literal of
    this file is read.  Equality of strings, emptiness and the places of the
    spaces are then those of the JavaScript string. *)

(** The code points [String.prototype.trim] strips from both ends of a
    string, WhiteSpace and LineTerminator of ECMAScript, each as its UTF-8
    bytes: U+0009..U+000D, U+0020, U+00A0, U+1680, U+2000..U+200A, U+2028,
    U+2029, U+202F, U+205F, U+3000 and U+FEFF. *)
Definition white_space : list (list ascii) :=
  map (map ascii_of_nat)
    [[9]; [10]; [11]; [12]; [13]; [32]; [194; 160]; [225; 154; 128];
     [226; 128; 128]; [226; 128; 129]; [226; 128; 130]; [226; 128; 131];
     [226; 128; 132]; [226; 128; 133]; [226; 128; 134]; [226; 128; 135];
     [226; 128; 136]; [226; 128; 137]; [226; 128; 138]; [226; 128; 168];
     [226; 128; 169]; [226; 128; 175]; [226; 129; 159]; [227; 128; 128];
     [239; 187; 191]]%nat.

(** Strips the leading members of [ws], each of one to three bytes. *)
Fixpoint strip (ws : list (list ascii)) (l : list ascii) : list ascii :=
  match l with
  | c1 :: l1 =>
      if bool_decide ([c1] ∈ ws) then strip ws l1
      else
        match l1 with
        | c2 :: l2 =>
            if bool_decide ([c1; c2] ∈ ws) then strip ws l2
            else
              match l2 with
              | c3 :: l3 =>
                  if bool_decide ([c1; c2; c3] ∈ ws) then strip ws l3 else l
              | [] => l
              end
        | [] => l
        end
  | [] => []
  end.

(** [String.prototype.trim]: the white space is stripped from the start,
    then, read backwards, from the end. *)
Definition trim (s : string) : string :=
  let l := strip white_space (String.list_ascii_of_string s) in
  String.string_of_list_ascii
    (reverse (strip (reverse <$> white_space) (reverse l))).

(** [String.prototype.toLowerCase] follows the case tables of Unicode, which
    are not part of this development: it is a parameter of the handlers, of
    which nothing is assumed. *)
Class Engine := { toLowerCase : string → string }.

(** ** Data model *)

(** A card row is [null] or an array whose slots are numbers or [null]; a
    card is [null]/[undefined] or an array of rows. *)
Definition Row := option (list (option Z)).
Definition Card := option (list Row).

(** The values of [room.playerData]. *)
Record PlayerData := mkPlayerData {
  pd_username : string;
  pd_bingoCard : Card;
  pd_socketId : option string
}.

Record WinnerInfo := mkWinnerInfo {
  wi_playerId : string;
  wi_playerName : string;
  wi_rowNumber : nat;
  wi_numbers : list Z;
  wi_bingoCard : Card
}.

(** A room object (server.js, room:create). *)
Record Room := mkRoom {
  roomId : string;
  adminId : string;
  adminSocketId : option string;
  players : list string;
  drawnNumbers : list Z;
  gameStarted : bool;
  gameOver : bool;
  winner : option string;
  winnerInfo : option WinnerInfo;
  createdAt : Z;
  playerData : list (string * PlayerData);
  completedRows : list string
}.

(** A user object, the values of the [users] Map. *)
Record User := mkUser {
  userId : string;
  username : string;
  isAdmin : bool;
  u_roomId : option string;
  u_bingoCard : Card;
  u_playerId : option string
}.

(** A record of [roomHistory]; dates are milliseconds since the epoch. *)
Record Summary := mkSummary {
  h_roomId : string;
  h_createdAt : Z;
  h_closedAt : Z;
  h_winner : string;
  h_winnerRowNumber : nat;
  h_winnerNumbers : list Z;
  h_winnerBingoCard : Card;
  h_totalPlayers : nat;
  h_totalNumbersDrawn : nat
}.

(** ** The win detector *)

(** [row.filter(num => num !== null)] *)
Definition rowNumbers (cells : list (option Z)) : list Z :=
  omap id cells.

(** [checkRowComplete(row, drawnNumbers)]; [None] is the [null] result. *)
Definition checkRowComplete (row : Row) (drawn : list Z) : option (list Z) :=
  match row with
  | None => None
  | Some cells =>
      if bool_decide (length cells = 0%nat) then None
      else
        let nums := rowNumbers cells in
        let allMarked := forallb (λ num, set_has num drawn) nums in
        if allMarked && bool_decide (length nums = 5%nat) then Some nums else None
  end.

(** A completion record collected by [checkPlayersForCompletedRows]. *)
Record Completed := mkCompleted {
  c_playerId : string;
  c_playerName : string;
  c_rowNumber : nat;
  c_numbers : list Z
}.

(** [`${playerId}_row_${rowIndex}`] *)
Definition rowKey (playerId : string) (rowIndex : nat) : string :=
  playerId +:+ "_row_" +:+ pretty rowIndex.

(** The body of [playerData.bingoCard.forEach((row, rowIndex) => ...)], run
    from row index [rowIndex] on; [acc] holds [room.completedRows] and the
    local [completedRows] array. *)
Fixpoint scanRows (playerId : string) (pd : PlayerData) (drawn : list Z)
    (rowIndex : nat) (rows : list Row) (acc : list string * list Completed)
    : list string * list Completed :=
  match rows with
  | [] => acc
  | row :: rows' =>
      let acc' :=
        match checkRowComplete row drawn with
        | Some completedNumbers =>
            let key := rowKey playerId rowIndex in
            if set_has key acc.1 then acc
            else (set_add key acc.1,
                  acc.2 ++ [mkCompleted playerId (pd_username pd)
                              (rowIndex + 1)%nat completedNumbers])
        | None => acc
        end in
      scanRows playerId pd drawn (S rowIndex) rows' acc'
  end.

(** The body of [room.playerData.forEach((playerData, playerId) => ...)]. *)
Definition scanPlayer (drawn : list Z) (acc : list string * list Completed)
    (entry : string * PlayerData) : list string * list Completed :=
  match pd_bingoCard entry.2 with
  | None => acc
  | Some rows =>
      if bool_decide (length rows = 0%nat) then acc
      else scanRows entry.1 entry.2 drawn 0 rows acc
  end.

(** [checkPlayersForCompletedRows(room)]: the new value of
    [room.completedRows] and the returned array. *)
Definition checkPlayersForCompletedRows (room : Room)
    : list string * list Completed :=
  foldl (scanPlayer (drawnNumbers room)) (completedRows room, []) (playerData room).

(** ** The history archive *)

(** [roomHistory.sort((a, b) => new Date(a.closedAt) - new Date(b.closedAt))];
    Array.prototype.sort is stable. *)
Fixpoint insert_by_closedAt (x : Summary) (l : list Summary) : list Summary :=
  match l with
  | [] => [x]
  | y :: l' =>
      if bool_decide (h_closedAt x ≤ h_closedAt y) then x :: l
      else y :: insert_by_closedAt x l'
  end.

Definition sort_by_closedAt (l : list Summary) : list Summary :=
  foldr insert_by_closedAt [] l.

(** [cleanupOldRooms(maxSize)], as a function on [roomHistory]. *)
Definition cleanupOldRooms (maxSize : Z) (hist : list Summary) : list Summary :=
  if bool_decide (Z.of_nat (length hist) ≤ maxSize) then hist
  else
    let sorted := sort_by_closedAt hist in
    let removed := Z.of_nat (length hist) - maxSize in
    drop (Z.to_nat removed) sorted.

(** The history file may hold at most 100MB: [stats.size / (1024 * 1024) > 100]. *)
Definition maxFileSize : Z := 100 * (1024 * 1024).

(** [checkDiskSpaceAndCleanup()]; [fstat] is the size in bytes of the history
    file, [None] when the file does not exist (or cannot be read, which the
    function catches and logs). *)
Definition checkDiskSpaceAndCleanup (MAX_HISTORY_SIZE : Z) (fstat : option Z)
    (hist : list Summary) : list Summary :=
  if bool_decide (MAX_HISTORY_SIZE < Z.of_nat (length hist)) then
    cleanupOldRooms MAX_HISTORY_SIZE hist
  else
    match fstat with
    | Some size =>
        if bool_decide (maxFileSize < size) then
          (* Math.floor(MAX_HISTORY_SIZE * 0.8) *)
          cleanupOldRooms (MAX_HISTORY_SIZE * 8 / 10) hist
        else hist
    | None => hist
    end.

(** [addRoomToHistory(roomData)]; writing the file has no effect on the
    server state and its failure is swallowed. *)
Definition addRoomToHistory (MAX_HISTORY_SIZE : Z) (fstat : option Z)
    (roomData : Summary) (hist : list Summary) : list Summary :=
  checkDiskSpaceAndCleanup MAX_HISTORY_SIZE fstat (hist ++ [roomData]).

(** ** Room codes and draws *)

Definition chars : string := "ABCDEFGHIJKLMNOPQRSTUVWXYZ0123456789".

(** [chars.charAt(Math.floor(Math.random() * chars.length))]: a sample [r]
    of the random source stands for the index [r mod 36], since
    [Math.random()] lies in [0, 1). *)
Definition randomChar (r : N) : ascii :=
  default "A"%char (String.get (N.to_nat (r mod 36)) chars).

(** The loop of [generateRoomCode()], for [n] characters; returns the code
    and the samples left, [None] when the samples run out. *)
Fixpoint generateChars (n : nat) (rnd : list N) : option (string * list N) :=
  match n with
  | O => Some ("", rnd)
  | S n' =>
      match rnd with
      | [] => None
      | r :: rnd' =>
          match generateChars n' rnd' with
          | Some (code, rest) => Some (String (randomChar r) code, rest)
          | None => None
          end
      end
  end.

Definition generateRoomCode (rnd : list N) : option (string * list N) :=
  generateChars 6 rnd.

(** [do { roomCode = generateRoomCode(); } while (rooms.has(roomCode));]
    [fuel] bounds the number of iterations. *)
Fixpoint freshRoomCode (fuel : nat) (has : string → bool) (rnd : list N)
    : option string :=
  match fuel with
  | O => None
  | S fuel' =>
      match generateRoomCode rnd with
      | Some (roomCode, rest) =>
          if has roomCode then freshRoomCode fuel' has rest else Some roomCode
      | None => None
      end
  end.

(** [do { number = Math.floor(Math.random() * 90) + 1; }
     while (room.drawnNumbers.has(number));] with [r mod 90] for
    [Math.floor(Math.random() * 90)]; [None] when the samples run out. *)
Fixpoint pickNumber (drawn : list Z) (rnd : list N) : option Z :=
  match rnd with
  | [] => None
  | r :: rnd' =>
      let number := Z.of_N (r mod 90) + 1 in
      if set_has number drawn then pickNumber drawn rnd' else Some number
  end.

(** ** Server state *)

(** The settings read from the environment at start-up. *)
Record Config := mkConfig {
  adminCredentials_username : string;
  adminCredentials_password : string;
  MAX_HISTORY_SIZE : Z
}.

(** [rooms] and [users] are the Maps of server.js; they hold references
    into the object stores [roomObjs] and [userObjs].  [sockets] is
    [io.sockets.sockets], the connected sockets.  [timers] holds the
    pending win-check timeouts in the order they were set, each with the
    [room] and [user] objects its closure captured.  (The [playerSessions]
    Map of server.js is never read or written.) *)
Record State := mkState {
  rooms : gmap string nat;
  roomObjs : list Room;
  users : gmap string nat;
  userObjs : list User;
  sockets : list string;
  roomHistory : list Summary;
  timers : list (nat * nat)
}.

(** The state at start-up, with the history [loadRoomHistory()] read from
    the history file (empty when there is no file or it cannot be parsed). *)
Definition start_state (loaded : list Summary) : State :=
  mkState ∅ [] ∅ [] [] loaded [].

Definition with_rooms (v : gmap string nat) (s : State) : State :=
  mkState v (roomObjs s) (users s) (userObjs s) (sockets s) (roomHistory s) (timers s).
Definition with_roomObjs (v : list Room) (s : State) : State :=
  mkState (rooms s) v (users s) (userObjs s) (sockets s) (roomHistory s) (timers s).
Definition with_users (v : gmap string nat) (s : State) : State :=
  mkState (rooms s) (roomObjs s) v (userObjs s) (sockets s) (roomHistory s) (timers s).
Definition with_userObjs (v : list User) (s : State) : State :=
  mkState (rooms s) (roomObjs s) (users s) v (sockets s) (roomHistory s) (timers s).
Definition with_sockets (v : list string) (s : State) : State :=
  mkState (rooms s) (roomObjs s) (users s) (userObjs s) v (roomHistory s) (timers s).
Definition with_roomHistory (v : list Summary) (s : State) : State :=
  mkState (rooms s) (roomObjs s) (users s) (userObjs s) (sockets s) v (timers s).
Definition with_timers (v : list (nat * nat)) (s : State) : State :=
  mkState (rooms s) (roomObjs s) (users s) (userObjs s) (sockets s) (roomHistory s) v.

(** [rooms.get(roomId)]: the reference and the object it names. *)
Definition rooms_get (s : State) (roomId : string) : option (nat * Room) :=
  match rooms s !! roomId with
  | Some rl => match roomObjs s !! rl with
               | Some room => Some (rl, room)
               | None => None
               end
  | None => None
  end.

(** [users.get(socket.id)] *)
Definition users_get (s : State) (sid : string) : option (nat * User) :=
  match users s !! sid with
  | Some ul => match userObjs s !! ul with
               | Some user => Some (ul, user)
               | None => None
               end
  | None => None
  end.

(** Writing the fields of the room object at [rl]. *)
Definition set_roomObj (rl : nat) (room : Room) (s : State) : State :=
  with_roomObjs (<[rl:=room]> (roomObjs s)) s.

Definition set_userObj (ul : nat) (user : User) (s : State) : State :=
  with_userObjs (<[ul:=user]> (userObjs s)) s.

(** [rooms.set(roomCode, room)] with a new room object. *)
Definition rooms_set_new (roomCode : string) (room : Room) (s : State) : State :=
  with_rooms (<[roomCode:=length (roomObjs s)]> (rooms s))
    (with_roomObjs (roomObjs s ++ [room]) s).

(** [users.set(socket.id, user)] with a new user object. *)
Definition users_set_new (sid : string) (user : User) (s : State) : State :=
  with_users (<[sid:=length (userObjs s)]> (users s))
    (with_userObjs (userObjs s ++ [user]) s).

Definition room_with_adminSocketId (v : option string) (r : Room) : Room :=
  mkRoom (roomId r) (adminId r) v (players r) (drawnNumbers r) (gameStarted r)
    (gameOver r) (winner r) (winnerInfo r) (createdAt r) (playerData r) (completedRows r).
Definition room_with_players (v : list string) (r : Room) : Room :=
  mkRoom (roomId r) (adminId r) (adminSocketId r) v (drawnNumbers r) (gameStarted r)
    (gameOver r) (winner r) (winnerInfo r) (createdAt r) (playerData r) (completedRows r).
Definition room_with_drawnNumbers (v : list Z) (r : Room) : Room :=
  mkRoom (roomId r) (adminId r) (adminSocketId r) (players r) v (gameStarted r)
    (gameOver r) (winner r) (winnerInfo r) (createdAt r) (playerData r) (completedRows r).
Definition room_with_gameOver (v : bool) (r : Room) : Room :=
  mkRoom (roomId r) (adminId r) (adminSocketId r) (players r) (drawnNumbers r) (gameStarted r)
    v (winner r) (winnerInfo r) (createdAt r) (playerData r) (completedRows r).
Definition room_with_winner (v : option string) (r : Room) : Room :=
  mkRoom (roomId r) (adminId r) (adminSocketId r) (players r) (drawnNumbers r) (gameStarted r)
    (gameOver r) v (winnerInfo r) (createdAt r) (playerData r) (completedRows r).
Definition room_with_winnerInfo (v : option WinnerInfo) (r : Room) : Room :=
  mkRoom (roomId r) (adminId r) (adminSocketId r) (players r) (drawnNumbers r) (gameStarted r)
    (gameOver r) (winner r) v (createdAt r) (playerData r) (completedRows r).
Definition room_with_playerData (v : list (string * PlayerData)) (r : Room) : Room :=
  mkRoom (roomId r) (adminId r) (adminSocketId r) (players r) (drawnNumbers r) (gameStarted r)
    (gameOver r) (winner r) (winnerInfo r) (createdAt r) v (completedRows r).
Definition room_with_completedRows (v : list string) (r : Room) : Room :=
  mkRoom (roomId r) (adminId r) (adminSocketId r) (players r) (drawnNumbers r) (gameStarted r)
    (gameOver r) (winner r) (winnerInfo r) (createdAt r) (playerData r) v.

Definition user_with_username (v : string) (u : User) : User :=
  mkUser (userId u) v (isAdmin u) (u_roomId u) (u_bingoCard u) (u_playerId u).
Definition user_with_roomId (v : option string) (u : User) : User :=
  mkUser (userId u) (username u) (isAdmin u) v (u_bingoCard u) (u_playerId u).
Definition user_with_bingoCard (v : Card) (u : User) : User :=
  mkUser (userId u) (username u) (isAdmin u) (u_roomId u) v (u_playerId u).
Definition user_with_playerId (v : option string) (u : User) : User :=
  mkUser (userId u) (username u) (isAdmin u) (u_roomId u) (u_bingoCard u) v.

(** ** The wire protocol *)

(** [socket.emit] addresses one socket, [io.to(roomId).emit] the Socket.io
    channel of that name, which holds the connected sockets that joined it. *)
Inductive Target :=
  | ToSocket (sid : string)
  | ToRoom (channel : option string).

Record PlayerEntry := mkPlayerEntry {
  e_playerId : string;
  e_name : string;
  e_bingoCard : Card
}.

Inductive Msg :=
  | admin_loginSuccess (isAdmin : bool) (username : string)
  | admin_loginError (message : string)
  | error (message : string)
  | room_created (roomId : string) (playerCount : nat) (reconnected : bool)
      (drawnNumbers : option (list Z))
  | room_joined (roomId : string) (playerCount : nat) (isAdmin : bool)
      (drawnNumbers : list Z) (playerId playerName : string) (bingoCard : Card)
  | player_joined (playerCount : nat) (playerId playerName : string)
  | room_playersList (players : list PlayerEntry)
  | player_bingoCard (playerId playerName : string) (bingoCard : Card)
  | game_numberDrawn (number startTime : Z) (drawnNumbers : list Z)
  | game_rowCompleted (playerName : string) (rowNumber : nat) (numbers : list Z)
  | room_closed (message : string)
  | player_left (playerCount : nat) (playerId : option string) (playerName : string).

Definition Emit : Type := Target * Msg.

(** The error events of the handlers, under the names of the taxonomy. *)
Definition NotAuthorized_create : Msg := error "Only admins can create rooms".
Definition NotAuthorized_draw : Msg := error "Only room admin can draw numbers".
Definition RoomNotFound : Msg := error "Room not found".
Definition ValidationError : Msg := error "Please enter your name".
Definition NameTaken : Msg :=
  error "This name is already taken. Please choose another name.".
Definition InvalidRequest : Msg := error "Invalid request".
Definition GameOver : Msg := error "Game is over! A winner has been declared.".
Definition PoolExhausted : Msg := error "All numbers have been drawn!".

(** What a socket can send, with the values the handler reads from its
    environment: [rnd] the successive results of [Math.random()], [now] the
    clock, [rnd36] the digits of [Math.random().toString(36).substr(2, 9)],
    [fstat] the size of the history file.  [WinCheckTimeout] is the oldest
    pending win-check timer firing. *)
Inductive Event :=
  | connection (sid : string)
  | admin_login (sid username password : string)
  | room_create (sid : string) (roomId : option string) (rnd : list N) (now : Z)
  | room_join (sid roomId playerName : string) (playerSessionId : option string)
      (now : Z) (rnd36 : string)
  | player_bingoCard_in (sid roomId : string) (bingoCard : Card)
      (playerId : option string)
  | game_drawNumber (sid : string) (rnd : list N) (now : Z)
  | WinCheckTimeout
  | room_close (sid roomId : string) (now : Z) (fstat : option Z)
  | disconnect (sid : string).

(** ** The handlers *)

Section Handlers.
Context {js : Engine} (cfg : Config).

(** [socket.on('admin:login', ...)] *)
Definition on_admin_login (s : State) (sid username password : string)
    : State * list Emit :=
  if bool_decide (username = adminCredentials_username cfg)
     && bool_decide (password = adminCredentials_password cfg) then
    (users_set_new sid (mkUser sid username true None None None) s,
     [(ToSocket sid, admin_loginSuccess true username)])
  else
    (s, [(ToSocket sid, admin_loginError "Invalid credentials")]).

(** [sendPlayersListToAdmin(room)] *)
Definition sendPlayersListToAdmin (s : State) (room : Room) : list Emit :=
  match adminSocketId room with
  | Some adminSocket =>
      if set_has adminSocket (sockets s) then
        [(ToSocket adminSocket,
          room_playersList
            (map (λ entry, mkPlayerEntry entry.1 (pd_username entry.2)
                             (pd_bingoCard entry.2))
               (playerData room)))]
      else []
  | None => []
  end.

(** room:create, the branch "Admin reconnecting to their room". *)
Definition reconnectAdmin (s : State) (sid : string) (ul : nat) (user : User)
    (existingRoomId : string) (rl : nat) (room : Room) : State * list Emit :=
  let room := room_with_adminSocketId (Some sid) room in
  let room := room_with_players (set_add sid (players room)) room in
  let user := user_with_roomId (Some existingRoomId) user in
  let s := set_userObj ul user (set_roomObj rl room s) in
  (s, (ToSocket sid,
       room_created existingRoomId (length (players room)) true
         (Some (drawnNumbers room)))
      :: sendPlayersListToAdmin s room).

(** room:create, the branch "Create new room". *)
Definition createNewRoom (s : State) (sid : string) (ul : nat) (user : User)
    (rnd : list N) (now : Z) : option (State * list Emit) :=
  match freshRoomCode (S (length rnd))
          (λ code, bool_decide (is_Some (rooms s !! code))) rnd with
  | None => None
  | Some roomCode =>
      let room := mkRoom roomCode sid (Some sid) [sid] [] false false None None
                    now [] [] in
      let s := rooms_set_new roomCode room s in
      let s := set_userObj ul (user_with_roomId (Some roomCode) user) s in
      Some (s, (ToSocket sid, room_created roomCode 1 false None)
               :: sendPlayersListToAdmin s room)
  end.

(** [socket.on('room:create', ...)]; [None] when the samples of the random
    source run out before an unused code is found. *)
Definition on_room_create (s : State) (sid : string)
    (existingRoomId : option string) (rnd : list N) (now : Z)
    : option (State * list Emit) :=
  match users_get s sid with
  | None => Some (s, [(ToSocket sid, NotAuthorized_create)])
  | Some (ul, user) =>
      if negb (isAdmin user) then Some (s, [(ToSocket sid, NotAuthorized_create)])
      else
        let user := if bool_decide (username user = "")
                    then user_with_username "Admin" user else user in
        let s := set_userObj ul user s in
        match existingRoomId with
        | Some code =>
            if truthy existingRoomId then
              match rooms_get s code with
              | Some (rl, room) =>
                  if negb (truthy (adminSocketId room))
                  then Some (reconnectAdmin s sid ul user code rl room)
                  else createNewRoom s sid ul user rnd now
              | None => createNewRoom s sid ul user rnd now
              end
            else createNewRoom s sid ul user rnd now
        | None => createNewRoom s sid ul user rnd now
        end
  end.

(** The names of the room's other players, lower-cased (room:join). *)
Definition existingNames (room : Room) (playerSessionId : option string)
    : list string :=
  foldl (λ names entry,
           if bool_decide (Some entry.1 ≠ playerSessionId)
           then set_add (toLowerCase (pd_username entry.2)) names
           else names)
    [] (playerData room).

(** [`player_${Date.now()}_${Math.random().toString(36).substr(2, 9)}`] *)
Definition newPlayerId (now : Z) (rnd36 : string) : string :=
  "player_" +:+ pretty now +:+ "_" +:+ rnd36.

(** [socket.on('room:join', ...)] *)
Definition on_room_join (s : State) (sid roomId playerName : string)
    (playerSessionId : option string) (now : Z) (rnd36 : string)
    : State * list Emit :=
  match rooms_get s roomId with
  | None => (s, [(ToSocket sid, RoomNotFound)])
  | Some (rl, room) =>
      if bool_decide (playerName = "")
         || bool_decide (String.length (trim playerName) = 0%nat) then
        (s, [(ToSocket sid, ValidationError)])
      else
        let trimmedName := trim playerName in
        if set_has (toLowerCase trimmedName) (existingNames room playerSessionId) then
          (s, [(ToSocket sid, NameTaken)])
        else
          let actualPlayerId :=
            match playerSessionId with
            | Some pid =>
                if negb (truthy playerSessionId) || negb (map_has pid (playerData room))
                then newPlayerId now rnd36 else pid
            | None => newPlayerId now rnd36
            end in
          let playerData' :=
            match map_get actualPlayerId (playerData room) with
            | Some pd => mkPlayerData trimmedName (pd_bingoCard pd) (Some sid)
            | None => mkPlayerData trimmedName None (Some sid)
            end in
          let room := room_with_playerData
                        (map_set actualPlayerId playerData' (playerData room)) room in
          let room := room_with_players (set_add sid (players room)) room in
          let s := set_roomObj rl room s in
          let refresh user :=
            user_with_playerId (Some actualPlayerId)
              (user_with_roomId (Some roomId) (user_with_username trimmedName user)) in
          let '(s, user) :=
            match users_get s sid with
            | Some (ul, user) => (set_userObj ul (refresh user) s, refresh user)
            | None =>
                let user := refresh (mkUser sid trimmedName false None None
                                       (Some actualPlayerId)) in
                (users_set_new sid user s, user)
            end in
          (s, [(ToSocket sid,
                room_joined roomId (length (players room)) (isAdmin user)
                  (drawnNumbers room) actualPlayerId trimmedName
                  (pd_bingoCard playerData'));
               (ToRoom (Some roomId),
                player_joined (length (players room)) actualPlayerId trimmedName)]
              ++ sendPlayersListToAdmin s room)
  end.

(** [socket.on('player:bingoCard', ...)] *)
Definition on_player_bingoCard (s : State) (sid roomId : string)
    (bingoCard : Card) (playerId : option string) : State * list Emit :=
  match users_get s sid, rooms_get s roomId with
  | Some (ul, user), Some (rl, room) =>
      if negb (set_has sid (players room)) then (s, [(ToSocket sid, InvalidRequest)])
      else
        let user := user_with_bingoCard bingoCard user in
        let actualPlayerId := if truthy playerId then playerId else u_playerId user in
        let room :=
          match actualPlayerId with
          | Some pid =>
              if truthy actualPlayerId then
                match map_get pid (playerData room) with
                | Some pd =>
                    room_with_playerData
                      (map_set pid (mkPlayerData (pd_username pd) bingoCard
                                      (pd_socketId pd)) (playerData room)) room
                | None =>
                    room_with_playerData
                      (map_set pid (mkPlayerData (username user) bingoCard (Some sid))
                         (playerData room)) room
                end
              else room
          | None => room
          end in
        let s := set_roomObj rl room (set_userObj ul user s) in
        let adminSocket :=
          if truthy (adminSocketId room) then adminSocketId room
          else Some (adminId room) in
        (s, match adminSocket with
            | Some a =>
                if set_has a (sockets s) then
                  [(ToSocket a,
                    player_bingoCard
                      (if truthy actualPlayerId then default sid actualPlayerId else sid)
                      (username user) bingoCard)]
                else []
            | None => []
            end)
  | _, _ => (s, [(ToSocket sid, InvalidRequest)])
  end.

(** [socket.on('game:drawNumber', ...)]; [None] when the samples of the
    random source run out before an undrawn number is found.  The win check
    is queued with the [room] and [user] objects the closure captures. *)
Definition on_game_drawNumber (s : State) (sid : string) (rnd : list N) (now : Z)
    : option (State * list Emit) :=
  match users_get s sid with
  | None => Some (s, [(ToSocket sid, NotAuthorized_draw)])
  | Some (ul, user) =>
      if negb (isAdmin user) || negb (truthy (u_roomId user)) then
        Some (s, [(ToSocket sid, NotAuthorized_draw)])
      else
        match rooms_get s (default "" (u_roomId user)) with
        | None => Some (s, [(ToSocket sid, RoomNotFound)])
        | Some (rl, room) =>
            if gameOver room then Some (s, [(ToSocket sid, GameOver)])
            else if bool_decide (90 ≤ length (drawnNumbers room))%nat then
              Some (s, [(ToSocket sid, PoolExhausted)])
            else
              match pickNumber (drawnNumbers room) rnd with
              | None => None
              | Some number =>
                  let room := room_with_drawnNumbers
                                (set_add number (drawnNumbers room)) room in
                  let startTime := now + 500 in
                  let s := set_roomObj rl room s in
                  let s := with_timers (timers s ++ [(rl, ul)]) s in
                  Some (s, [(ToRoom (u_roomId user),
                             game_numberDrawn number startTime (drawnNumbers room))])
              end
        end
  end.

(** The [completedRows.forEach(completedRow => ...)] of the win check,
    without its broadcast: the first record fills [room.winnerInfo]. *)
Definition storeWinnerInfo (room : Room) (completedRow : Completed) : Room :=
  match winnerInfo room with
  | Some _ => room
  | None =>
      let winnerPlayerData := map_get (c_playerId completedRow) (playerData room) in
      room_with_winnerInfo
        (Some (mkWinnerInfo (c_playerId completedRow) (c_playerName completedRow)
                 (c_rowNumber completedRow) (c_numbers completedRow)
                 (match winnerPlayerData with
                  | Some pd => pd_bingoCard pd
                  | None => None
                  end)))
        room
  end.

(** The callback passed to [setTimeout] in game:drawNumber, run on the room
    object it captured: the new room object and the completion records. *)
Definition winCheck (room : Room) : Room * list Completed :=
  let '(keys, completedRows) := checkPlayersForCompletedRows room in
  let room := room_with_completedRows keys room in
  match completedRows with
  | [] => (room, [])
  | first :: _ =>
      let room :=
        if negb (gameOver room)
        then room_with_winner (Some (c_playerName first)) (room_with_gameOver true room)
        else room in
      (foldl storeWinnerInfo room completedRows, completedRows)
  end.

Definition rowCompletedEvent (user : User) (completedRow : Completed) : Emit :=
  (ToRoom (u_roomId user),
   game_rowCompleted (c_playerName completedRow) (c_rowNumber completedRow)
     (c_numbers completedRow)).

(** The oldest pending win-check timer fires. *)
Definition on_win_check (s : State) : State * list Emit :=
  match timers s with
  | [] => (s, [])
  | (rl, ul) :: pending =>
      let s := with_timers pending s in
      match roomObjs s !! rl, userObjs s !! ul with
      | Some room, Some user =>
          let '(room, completedRows) := winCheck room in
          (set_roomObj rl room s, map (rowCompletedEvent user) completedRows)
      | _, _ => (s, [])
      end
  end.

(** The record handed to [addRoomToHistory] by room:close. *)
Definition roomSummary (room : Room) (info : WinnerInfo) (now : Z) : Summary :=
  mkSummary (roomId room) (createdAt room) now (wi_playerName info)
    (wi_rowNumber info) (wi_numbers info) (wi_bingoCard info)
    (length (playerData room)) (length (drawnNumbers room)).

(** The two closing branches of room:close: archive a finished game, notify
    the room, delete it from the registry. *)
Definition closeRoom (s : State) (roomId : string) (room : Room) (now : Z)
    (fstat : option Z) (message : string) : State * list Emit :=
  let s :=
    match winnerInfo room with
    | Some info =>
        if gameOver room then
          with_roomHistory
            (addRoomToHistory (MAX_HISTORY_SIZE cfg) fstat (roomSummary room info now)
               (roomHistory s)) s
        else s
    | None => s
    end in
  (with_rooms (delete roomId (rooms s)) s,
   [(ToRoom (Some roomId), room_closed message)]).

(** [socket.on('room:close', ...)] *)
Definition on_room_close (s : State) (sid roomId : string) (now : Z)
    (fstat : option Z) : State * list Emit :=
  match rooms_get s roomId with
  | None => (s, [(ToSocket sid, RoomNotFound)])
  | Some (rl, room) =>
      let isOwner :=
        match users_get s sid with
        | Some (ul, user) => isAdmin user && bool_decide (adminId room = userId user)
        | None => false
        end in
      if isOwner then closeRoom s roomId room now fstat "Room has been closed"
      else if gameOver room then
        closeRoom s roomId room now fstat "Game is over. Room is closing."
      else (s, [])
  end.

(** [socket.on('disconnect', ...)]; Socket.io has removed the socket from
    [io.sockets.sockets] when the handler runs. *)
Definition on_disconnect (s : State) (sid : string) : State * list Emit :=
  let s := with_sockets (set_delete sid (sockets s)) s in
  let '(s, out) :=
    match users_get s sid with
    | Some (ul, user) =>
        if truthy (u_roomId user) then
          match rooms_get s (default "" (u_roomId user)) with
          | Some (rl, room) =>
              let room := room_with_players (set_delete sid (players room)) room in
              if isAdmin user
                 && (bool_decide (adminSocketId room = Some sid)
                     || bool_decide (adminId room = sid)) then
                (set_roomObj rl (room_with_adminSocketId None room) s, [])
              else if truthy (u_playerId user) then
                let pid := default "" (u_playerId user) in
                let room :=
                  match map_get pid (playerData room) with
                  | Some pd =>
                      room_with_playerData
                        (map_set pid (mkPlayerData (pd_username pd) (pd_bingoCard pd) None)
                           (playerData room)) room
                  | None => room
                  end in
                let s := set_roomObj rl room s in
                (s, (ToRoom (u_roomId user),
                     player_left (length (players room)) (u_playerId user)
                       (username user))
                    :: sendPlayersListToAdmin s room)
              else (set_roomObj rl room s, [])
          | None => (s, [])
          end
        else (s, [])
    | None => (s, [])
    end in
  (with_users (delete sid (users s)) s, out).

(** One event of the server; a socket that is not connected has no
    handlers.  [None]: the random source ran dry inside a retry loop. *)
Definition step (s : State) (e : Event) : option (State * list Emit) :=
  let connected sid := set_has sid (sockets s) in
  let guard sid (r : option (State * list Emit)) :=
    if connected sid then r else Some (s, []) in
  match e with
  | connection sid => Some (with_sockets (set_add sid (sockets s)) s, [])
  | admin_login sid username password =>
      guard sid (Some (on_admin_login s sid username password))
  | room_create sid roomId rnd now =>
      guard sid (on_room_create s sid roomId rnd now)
  | room_join sid roomId playerName playerSessionId now rnd36 =>
      guard sid (Some (on_room_join s sid roomId playerName playerSessionId now rnd36))
  | player_bingoCard_in sid roomId bingoCard playerId =>
      guard sid (Some (on_player_bingoCard s sid roomId bingoCard playerId))
  | game_drawNumber sid rnd now =>
      guard sid (on_game_drawNumber s sid rnd now)
  | WinCheckTimeout => Some (on_win_check s)
  | room_close sid roomId now fstat =>
      guard sid (Some (on_room_close s sid roomId now fstat))
  | disconnect sid => guard sid (Some (on_disconnect s sid))
  end.

(** A sequence of events, with everything emitted on the way. *)
Fixpoint run (s : State) (es : list Event) : option (State * list Emit) :=
  match es with
  | [] => Some (s, [])
  | e :: es' =>
      match step s e with
      | Some (s', out) =>
          match run s' es' with
          | Some (s'', out') => Some (s'', out ++ out')
          | None => None
          end
      | None => None
      end
  end.

End Handlers.

(** ** Notions used by the statements *)

(** The states the server can be in: those a sequence of events leads to
    from a state at start-up. *)
Definition Reachable {js : Engine} (cfg : Config) (s : State) : Prop :=
  ∃ loaded es out, run cfg (start_state loaded) es = Some (s, out).

(** How one event may change a room object: its identity is kept, a game
    that is over stays over, notified rows stay notified, and the drawn
    numbers are left alone or extended by one new number of 1..90, the
    latter only while the game is not over and fewer than 90 are drawn. *)
Record room_evolves (r r' : Room) : Prop := mk_room_evolves {
  ev_roomId : roomId r' = roomId r;
  ev_adminId : adminId r' = adminId r;
  ev_createdAt : createdAt r' = createdAt r;
  ev_gameOver : gameOver r = true → gameOver r' = true;
  ev_completedRows : completedRows r ⊆ completedRows r';
  ev_drawnNumbers :
    drawnNumbers r' = drawnNumbers r
    ∨ (gameOver r = false ∧ (length (drawnNumbers r) < 90)%nat
       ∧ ∃ n, (1 ≤ n ≤ 90) ∧ (n ∉ drawnNumbers r)
              ∧ drawnNumbers r' = drawnNumbers r ++ [n])
}.

(** How one event may change the store of room objects. *)
Inductive roomObjs_step (h h' : list Room) : Prop :=
  | rs_same : h' = h → roomObjs_step h h'
  | rs_update rl r r' :
      h !! rl = Some r → room_evolves r r' → h' = <[rl:=r']> h →
      roomObjs_step h h'
  | rs_alloc r :
      drawnNumbers r = [] → gameOver r = false → completedRows r = [] →
      h' = h ++ [r] → roomObjs_step h h'.

(** The invariant of a room's drawn numbers. *)
Definition drawn_ok (drawn : list Z) : Prop :=
  NoDup drawn ∧ Forall (λ n, 1 ≤ n ≤ 90) drawn ∧ (length drawn ≤ 90)%nat.

(** Every entry of [users] names a user object whose [userId] is the
    socket id it is filed under. *)
Definition users_ok' (us : gmap string nat) (objs : list User) : Prop :=
  ∀ sid ul, us !! sid = Some ul →
    ∃ user, objs !! ul = Some user ∧ userId user = sid.

Definition users_ok (s : State) : Prop := users_ok' (users s) (userObjs s).

(** The (playerId, rowIndex) pair of a completion record and its key in
    [room.completedRows]. *)
Definition pairOf (c : Completed) : string * nat :=
  (c_playerId c, pred (c_rowNumber c)).

Definition keyOf (c : Completed) : string :=
  rowKey (c_playerId c) (pred (c_rowNumber c)).

(** The completion records an event collects, each with the room object it
    was collected for. *)
Definition collectedBy (s : State) (e : Event) : list (nat * Completed) :=
  match e with
  | WinCheckTimeout =>
      match timers s with
      | (rl, ul) :: _ =>
          match roomObjs s !! rl, userObjs s !! ul with
          | Some room, Some _ => map (λ c, (rl, c)) (winCheck room).2
          | _, _ => []
          end
      | [] => []
      end
  | _ => []
  end.

Fixpoint collectedLog {js : Engine} (cfg : Config) (s : State) (es : list Event)
    : list (nat * Completed) :=
  match es with
  | [] => []
  | e :: es' =>
      collectedBy s e
      ++ match step cfg s e with
         | Some (s', _) => collectedLog cfg s' es'
         | None => []
         end
  end.

(** The game:rowCompleted events among the emitted ones. *)
Definition rowCompletedOf (out : list Emit) : list Msg :=
  omap (λ em : Emit,
          match em.2 with
          | game_rowCompleted _ _ _ => Some em.2
          | _ => None
          end) out.

Definition rowCompletedMsg (c : Completed) : Msg :=
  game_rowCompleted (c_playerName c) (c_rowNumber c) (c_numbers c).

(** What a scan has done so far, from the notified rows [K0] it started
    with: the keys it added are those of the records it collected, in
    order, none of them was notified before, and no key is added twice. *)
Definition scan_ok (K0 : list string) (acc : list string * list Completed) : Prop :=
  acc.1 = K0 ++ map keyOf acc.2
  ∧ NoDup (map keyOf acc.2)
  ∧ ∀ c, c ∈ acc.2 → keyOf c ∉ K0.

(** What a whole run keeps of a room object. *)
Record room_kept (r r' : Room) : Prop := mk_room_kept {
  kept_gameOver : gameOver r = true → gameOver r' = true;
  kept_completedRows : completedRows r ⊆ completedRows r';
  kept_drawn_prefix : drawnNumbers r `prefix_of` drawnNumbers r';
  kept_drawn_over : gameOver r = true → drawnNumbers r' = drawnNumbers r
}.

(** The (room object, playerId, rowIndex) triples of a log. *)
Definition logPairs (log : list (nat * Completed)) : list (nat * (string * nat)) :=
  map (λ p, (p.1, pairOf p.2)) log.

(** ** Proof automation *)

Create HintDb bingo.

(** Closes a goal [room_evolves r r'] where [r'] is [r] with some of the
    fields no invariant speaks about rewritten. *)
Ltac evolves_frame := constructor; simpl; solve [auto | set_solver].

(** Closes a goal [roomObjs_step h h'] for a handler branch that leaves the
    store alone, allocates a room, or rewrites such fields of one room. *)
Ltac roomObjs_cases :=
  first
    [ by apply rs_same
    | eapply rs_alloc; [..|reflexivity]; done
    | eapply rs_update; [eauto with bingo| |reflexivity];
      evolves_frame ].

(** The [userId] of a user object survives one or two writes to it. *)
Ltac same_userId :=
  let u := fresh "u" in let Hu := fresh "Hu" in
  intros u Hu;
  repeat match goal with
  | H : users_get _ _ = Some _ |- _ =>
      unfold users_get in H; repeat case_match; simplify_eq/=
  end;
  repeat (rewrite list_lookup_insert in Hu; case_decide; simplify_eq/=);
  simplify_eq/=; try done; try (repeat case_match; simplify_eq/=; done).

(** ** Who may draw *)

(** The test game:drawNumber makes: the socket has a user object that is an
    admin with a room id. *)
Definition draw_authorized (s : State) (sid : string) : Prop :=
  ∃ ul user, users_get s sid = Some (ul, user)
             ∧ isAdmin user = true ∧ truthy (u_roomId user) = true.

(** The socket is the bound admin of the room its draw is applied to. *)
Definition bound_admin (s : State) (sid : string) : Prop :=
  ∃ ul user rl room,
    users_get s sid = Some (ul, user)
    ∧ rooms_get s (default "" (u_roomId user)) = Some (rl, room)
    ∧ adminSocketId room = Some sid.

(** "A draw fails with NotAuthorized, leaving the room unchanged, unless the
    requester is the bound admin of the room." *)
Definition draw_needs_bound_admin {js : Engine} (cfg : Config) : Prop :=
  ∀ s sid rnd now,
    Reachable cfg s → ¬ bound_admin s sid →
    on_game_drawNumber s sid rnd now = Some (s, [(ToSocket sid, NotAuthorized_draw)]).

(** "A join that presents the id of an existing profile is answered with
    the card and the name stored on that profile." *)
Definition rejoin_returns_stored {js : Engine} (cfg : Config) : Prop :=
  ∀ s sid roomId playerName pid now rnd36 rl room pd
    count adm drawn pid' name card,
    Reachable cfg s →
    rooms_get s roomId = Some (rl, room) →
    pid ≠ "" → map_get pid (playerData room) = Some pd →
    (ToSocket sid, room_joined roomId count adm drawn pid' name card)
      ∈ (on_room_join s sid roomId playerName (Some pid) now rnd36).2 →
    card = pd_bingoCard pd ∧ name = pd_username pd.



(** ** Example runs *)

Definition demo_cfg : Config := mkConfig "admin" "admin123" 1000.

(** The lower-casing of the example runs: A..Z to a..z, every other byte
    kept.  On a string of ASCII characters, which the names of the example
    runs are, this is [String.prototype.toLowerCase]. *)
Definition lower_char (c : ascii) : ascii :=
  let n := nat_of_ascii c in
  if bool_decide (65 ≤ n ≤ 90)%nat then ascii_of_nat (n + 32) else c.

Fixpoint toLowerCase_ascii (s : string) : string :=
  match s with
  | String c s' => String (lower_char c) (toLowerCase_ascii s')
  | EmptyString => EmptyString
  end.

#[global] Instance demo_engine : Engine := {| toLowerCase := toLowerCase_ascii |}.

(** The state a run from start-up ends in, and what it emitted. *)
Definition state_after {js : Engine} (cfg : Config) (es : list Event) : State :=
  match run cfg (start_state []) es with
  | Some (s, _) => s
  | None => start_state []
  end.

Definition emitted_by {js : Engine} (cfg : Config) (es : list Event)
    : list Emit :=
  match run cfg (start_state []) es with
  | Some (_, out) => out
  | None => []
  end.

Definition sam_card : Card :=
  Some [Some [Some 5; Some 12; Some 23; Some 41; Some 67];
        Some [Some 1; None; Some 20; Some 33; Some 50; Some 70];
        Some [Some 3; Some 14; Some 27; Some 48; Some 88]].

Definition sam_id : string := "player_2000_k3j9x0q1z".

(** The admin on socket "A" logs in and opens room "AB12CD". *)
Definition open_room : list Event :=
  [connection "A"; admin_login "A" "admin" "admin123";
   room_create "A" None [0; 1; 27; 28; 2; 3]%N 1000].

(** Sam joins on socket "P" and submits a card. *)
Definition sam_joins : list Event :=
  [connection "P"; room_join "P" "AB12CD" "Sam" None 2000 "k3j9x0q1z";
   player_bingoCard_in "P" "AB12CD" sam_card None].

(** The admin draws 5, 12, 23, 41 and 67; each draw's win check fires. *)
Definition draws_to_win : list Event :=
  [game_drawNumber "A" [4]%N 3000; WinCheckTimeout;
   game_drawNumber "A" [4; 11]%N 5000; WinCheckTimeout;
   game_drawNumber "A" [22]%N 7000; WinCheckTimeout;
   game_drawNumber "A" [40]%N 9000; WinCheckTimeout;
   game_drawNumber "A" [66]%N 11000; WinCheckTimeout].

Definition demo_game : list Event := open_room ++ sam_joins ++ draws_to_win.

(** After the game: a draw is refused, Sam resubmits the card, the admin's
    connection drops and comes back, and a stray win check fires. *)
Definition after_game : list Event :=
  [game_drawNumber "A" [0]%N 13000;
   player_bingoCard_in "P" "AB12CD" sam_card (Some sam_id);
   disconnect "A"; connection "B"; admin_login "B" "admin" "admin123";
   room_create "B" (Some "AB12CD") [] 14000; WinCheckTimeout].

(** A second admin connection "B" joins the room of "A" as a player. *)
Definition second_admin_joins : list Event :=
  open_room
  ++ [connection "B"; admin_login "B" "admin" "admin123";
      room_join "B" "AB12CD" "Eve" None 2500 "q7w8e9r0t"].

(** The admin loses the connection "A" and re-binds the room on "B". *)
Definition admin_reconnects : list Event :=
  open_room
  ++ [disconnect "A"; connection "B"; admin_login "B" "admin" "admin123";
      room_create "B" (Some "AB12CD") [] 4000].


(** Sam's connection drops. *)
Definition sam_drops : list Event :=
  open_room ++ sam_joins ++ [disconnect "P"; connection "Q"].

Definition summary_at (roomId : string) (closedAt : Z) : Summary :=
  mkSummary roomId 0 closedAt "Sam" 1 [5; 12; 23; 41; 67] sam_card 1 5.

(** ** Notions used by the further properties *)

(** The fields of a room that only the win check writes ([gameOver],
    [winner], [winnerInfo], [completedRows]) and those that nothing writes
    after the room is created. *)
Record same_game (r r' : Room) : Prop := mk_same_game {
  sg_roomId : roomId r' = roomId r;
  sg_adminId : adminId r' = adminId r;
  sg_createdAt : createdAt r' = createdAt r;
  sg_gameStarted : gameStarted r' = gameStarted r;
  sg_gameOver : gameOver r' = gameOver r;
  sg_winner : winner r' = winner r;
  sg_winnerInfo : winnerInfo r' = winnerInfo r;
  sg_completedRows : completedRows r' = completedRows r
}.

(** The profiles of [r] are those of [r'], in the same order, possibly
    followed by new ones. *)
Definition profiles_kept (r r' : Room) : Prop :=
  (playerData r).*1 `prefix_of` (playerData r').*1.

(** What one event does to a room object: it runs the win check on it, or
    it leaves the game fields alone and removes no profile. *)
Inductive room_change (r r' : Room) : Prop :=
  | rc_frame : same_game r r' → profiles_kept r r' → room_change r r'
  | rc_winCheck : r' = (winCheck r).1 → room_change r r'.

(** What one event does to the store of room objects. *)
Inductive roomObjs_change (h h' : list Room) : Prop :=
  | rc_same : h' = h → roomObjs_change h h'
  | rc_update rl r r' :
      h !! rl = Some r → room_change r r' → h' = <[rl:=r']> h →
      roomObjs_change h h'
  | rc_alloc roomCode sid now :
      h' = h ++ [mkRoom roomCode sid (Some sid) [sid] [] false false None None
                   now [] []] →
      roomObjs_change h h'.

(** A room is over exactly when it has winner details, its [winner] is the
    name in them, and [gameStarted] is never set. *)
Definition winner_ok (r : Room) : Prop :=
  gameStarted r = false
  ∧ (gameOver r = true ↔ is_Some (winnerInfo r))
  ∧ winner r = wi_playerName <$> winnerInfo r.

(** A room code as [generateRoomCode] makes them. *)
Definition code_ok (code : string) : Prop :=
  String.length code = 6%nat
  ∧ ∀ c, c ∈ String.list_ascii_of_string code → c ∈ String.list_ascii_of_string chars.

(** Every code of the registry is well formed and names a room object that
    carries this code. *)
Definition registry_ok (s : State) : Prop :=
  ∀ code rl, rooms s !! code = Some rl →
    code_ok code ∧ ∃ room, roomObjs s !! rl = Some room ∧ roomId room = code.

(** Every entry of the directory belongs to a connected socket. *)
Definition directory_ok (s : State) : Prop :=
  ∀ sid ul, users s !! sid = Some ul →
    sid ∈ sockets s ∧ is_Some (userObjs s !! ul).

(** Every pending win check holds a room object and a user object. *)
Definition timers_ok (s : State) : Prop :=
  Forall (λ t, is_Some (roomObjs s !! t.1) ∧ is_Some (userObjs s !! t.2))
    (timers s).

(** Closes a goal [roomObjs_change h h'] for a handler branch that does not
    run the win check. *)
Ltac roomObjs_change_cases :=
  first
    [ by apply rc_same
    | by eapply rc_alloc
    | eapply rc_update; [eauto with bingo| |reflexivity];
      apply rc_frame; [by constructor|unfold profiles_kept; simpl; eauto with bingo] ].


(** Every profile of [r] is a profile of [r'] with the same card. *)
Definition cards_kept (r r' : Room) : Prop :=
  ∀ pid pd, map_get pid (playerData r) = Some pd →
    ∃ pd', map_get pid (playerData r') = Some pd'
           ∧ pd_bingoCard pd' = pd_bingoCard pd.

(** A string made of white space only, possibly of none. *)
Definition blank (s : string) : Prop :=
  ∃ L, Forall (λ w, w ∈ white_space) L
       ∧ String.list_ascii_of_string s = concat L.

(** ** The HTTP endpoints *)

(** [s.split(' ')] *)
Fixpoint split_space (s : string) : list string :=
  match s with
  | EmptyString => [EmptyString]
  | String c s' =>
      if bool_decide (c = " "%char) then EmptyString :: split_space s'
      else match split_space s' with
           | w :: ws => String c w :: ws
           | [] => [String c EmptyString]
           end
  end.

(** The responses of the endpoints: 401 and 403 with their message, the
    body of /api/rooms/history and the body of /api/health. *)
Inductive Response :=
  | Unauthorized (message : string)
  | Forbidden (message : string)
  | HistoryOk (archive : list Summary)
  | HealthOk (roomCount userCount : nat).

Section Http.

(** [jwt.verify(token, JWT_SECRET)]: [None] when it throws, else whether
    the [isAdmin] of the decoded payload is truthy. *)
Context (jwt_verify : string → option bool).

(** [verifyToken(req, res, next)]: the response it sends, or the decoded
    payload it hands to [next]; [authorization] is the request's
    Authorization header, if it has one. *)
Definition verifyToken (authorization : option string) : Response + bool :=
  let token := authorization ≫= λ header, split_space header !! 1%nat in
  if negb (truthy token) then inl (Unauthorized "No token provided")
  else
    match jwt_verify (default "" token) with
    | Some decoded => inr decoded
    | None => inl (Unauthorized "Invalid token")
    end.

(** [app.get('/api/rooms/history', verifyToken, ...)] *)
Definition history_endpoint (s : State) (authorization : option string)
    : Response :=
  match verifyToken authorization with
  | inl res => res
  | inr isAdmin =>
      if negb isAdmin then Forbidden "Admin access required"
      else HistoryOk (roomHistory s)
  end.

End Http.

(** [app.get('/api/health', ...)] *)
Definition health_endpoint (s : State) : Response :=
  HealthOk (size (rooms s)) (size (users s)).

(** ** Further example runs *)

(** Five draws whose win checks are still pending: the first row of Sam's
    card is complete and not yet announced. *)
Definition draws_unchecked : list Event :=
  open_room ++ sam_joins
  ++ [game_drawNumber "A" [4]%N 3000; game_drawNumber "A" [4; 11]%N 5000;
      game_drawNumber "A" [22]%N 7000; game_drawNumber "A" [40]%N 9000;
      game_drawNumber "A" [66]%N 11000].

(** The name "Bob" followed by a no-break space (U+00A0). *)
Definition bob_nbsp : string :=
  "Bob" +:+ String (ascii_of_nat 194) (String (ascii_of_nat 160) "").

(** A name of a tab and a no-break space (U+00A0). *)
Definition blank_name : string :=
  String (ascii_of_nat 9) (String (ascii_of_nat 194) (String (ascii_of_nat 160) "")).

(** A [jwt.verify] that accepts one token, with an admin's payload. *)
Definition demo_verify (token : string) : option bool :=
  if bool_decide (token = "t0k3n") then Some true else None.
(** * Proofs *)

(** ** JavaScript Sets and Maps *)

Lemma set_add_fresh `{EqDecision A} (x : A) (l : list A) :
  x ∉ l → set_add x l = l ++ [x].
Proof. intros H. unfold set_add. by rewrite bool_decide_eq_false_2. Qed.

Lemma map_set_keys {V} (k : string) (v : V) (m : list (string * V)) :
  is_Some (map_get k m) → (map_set k v m).*1 = m.*1.
Proof.
  induction m as [|[k' v'] m IH]; simpl; [by intros []|].
  case_bool_decide; [done|]. intros Hs. rewrite fmap_cons. f_equal. by apply IH.
Qed.

Lemma map_get_set {V} (k : string) (v : V) (m : list (string * V)) :
  map_get k (map_set k v m) = Some v.
Proof.
  induction m as [|[k' v'] m IH]; simpl.
  - by rewrite bool_decide_eq_true_2.
  - case_bool_decide as Hk; simpl.
    + by rewrite bool_decide_eq_true_2.
    + by rewrite bool_decide_eq_false_2.
Qed.

(** ** Reading the registries *)

Lemma rooms_get_Some s code rl room :
  rooms_get s code = Some (rl, room) ↔
  rooms s !! code = Some rl ∧ roomObjs s !! rl = Some room.
Proof.
  unfold rooms_get. split.
  - intros H. destruct (rooms s !! code) as [rl'|]; [|done].
    destruct (roomObjs s !! rl') as [room'|] eqn:E; [|done]. by simplify_eq.
  - intros [-> ->]. done.
Qed.

Lemma users_get_Some s sid ul user :
  users_get s sid = Some (ul, user) ↔
  users s !! sid = Some ul ∧ userObjs s !! ul = Some user.
Proof.
  unfold users_get. split.
  - intros H. destruct (users s !! sid) as [ul'|]; [|done].
    destruct (userObjs s !! ul') as [user'|] eqn:E; [|done]. by simplify_eq.
  - intros [-> ->]. done.
Qed.

(** ** The draw loop *)

Lemma pickNumber_Some drawn rnd number :
  pickNumber drawn rnd = Some number → 1 ≤ number ≤ 90 ∧ number ∉ drawn.
Proof.
  induction rnd as [|r rnd IH]; simpl; [done|].
  unfold set_has. case_bool_decide as Hin; [done|].
  intros [= <-]. split; [|done].
  assert (r mod 90 < 90)%N as Hlt by (by apply N.mod_upper_bound).
  clear IH Hin. revert Hlt. generalize (r mod 90)%N. intros k Hk. lia.
Qed.

(** ** One pass of the win detector *)

Lemma scanRows_ok K0 playerId pd drawn rows rowIndex acc :
  scan_ok K0 acc → scan_ok K0 (scanRows playerId pd drawn rowIndex rows acc).
Proof.
  revert rowIndex acc. induction rows as [|row rows IH]; intros i acc Hacc; [done|].
  simpl. apply IH. destruct (checkRowComplete row drawn) as [nums|]; [|done].
  unfold set_has. case_bool_decide as Hkey; [done|].
  destruct Hacc as (HK & Hnd & Hfresh). destruct acc as [K cs]. simpl in *.
  set (c := mkCompleted playerId (pd_username pd) (i + 1) nums).
  assert (keyOf c = rowKey playerId i) as Hc.
  { unfold keyOf, c. simpl. by rewrite Nat.add_1_r. }
  rewrite HK in Hkey. apply not_elem_of_app in Hkey as [Hk0 Hkcs].
  split_and!; simpl.
  - rewrite set_add_fresh by (rewrite HK, elem_of_app; tauto).
    rewrite map_app, HK, <-(assoc_L (++)). simpl. by rewrite Hc.
  - rewrite map_app. apply NoDup_app. split_and!; [done| |apply NoDup_singleton].
    simpl. intros k Hk ->%list_elem_of_singleton. by rewrite Hc in Hk.
  - intros c' [Hc'| ->%list_elem_of_singleton]%elem_of_app; [by apply Hfresh|].
    by rewrite Hc.
Qed.

Lemma checkPlayersForCompletedRows_ok room :
  scan_ok (completedRows room) (checkPlayersForCompletedRows room).
Proof.
  unfold checkPlayersForCompletedRows.
  assert (scan_ok (completedRows room) (completedRows room, [])) as Hinit.
  { split_and!; simpl; [by rewrite app_nil_r|constructor|by intros ? ?%elem_of_nil]. }
  revert Hinit. generalize (completedRows room, @nil Completed).
  induction (playerData room) as [|entry pds IH]; intros acc Hacc; [done|].
  simpl. apply IH. unfold scanPlayer.
  destruct (pd_bingoCard entry.2) as [rows|]; [|done].
  case_bool_decide; [done|]. by apply scanRows_ok.
Qed.

Lemma foldl_storeWinnerInfo room records :
  let room' := foldl storeWinnerInfo room records in
  roomId room' = roomId room ∧ adminId room' = adminId room
  ∧ createdAt room' = createdAt room ∧ gameOver room' = gameOver room
  ∧ completedRows room' = completedRows room
  ∧ drawnNumbers room' = drawnNumbers room
  ∧ playerData room' = playerData room ∧ players room' = players room
  ∧ adminSocketId room' = adminSocketId room ∧ winner room' = winner room.
Proof.
  revert room. induction records as [|c cs IH]; intros room; simpl; [done|].
  destruct (IH (storeWinnerInfo room c)) as (?&?&?&?&?&?&?&?&?&?).
  unfold storeWinnerInfo in *. destruct (winnerInfo room); simpl in *; split_and!; congruence.
Qed.

Lemma winCheck_spec room room' cs :
  winCheck room = (room', cs) →
  room_evolves room room'
  ∧ completedRows room' = completedRows room ++ map keyOf cs
  ∧ NoDup (map keyOf cs)
  ∧ (∀ c, c ∈ cs → keyOf c ∉ completedRows room)
  ∧ (cs ≠ [] → gameOver room' = true)
  ∧ playerData room' = playerData room ∧ players room' = players room
  ∧ adminSocketId room' = adminSocketId room.
Proof.
  unfold winCheck. pose proof (checkPlayersForCompletedRows_ok room) as Hok.
  destruct (checkPlayersForCompletedRows room) as [keys cs0].
  destruct Hok as (HK & Hnd & Hfresh). cbn [fst snd] in *.
  destruct cs0 as [|c0 cs0].
  - intros [= <- <-]. simpl in *. rewrite app_nil_r in HK. subst keys.
    split_and!; try done; [|by rewrite app_nil_r]. constructor; simpl; auto.
  - cbv beta iota zeta. set (r0 := if negb _ then _ else _).
    intros [= <- <-].
    change (foldl storeWinnerInfo (storeWinnerInfo r0 c0) cs0)
      with (foldl storeWinnerInfo r0 (c0 :: cs0)).
    destruct (foldl_storeWinnerInfo r0 (c0 :: cs0)) as (E1&E2&E3&E4&E5&E6&E7&E8&E9&E10).
    assert (gameOver r0 = true ∧ completedRows r0 = keys
            ∧ roomId r0 = roomId room ∧ adminId r0 = adminId room
            ∧ createdAt r0 = createdAt room ∧ drawnNumbers r0 = drawnNumbers room
            ∧ playerData r0 = playerData room ∧ players r0 = players room
            ∧ adminSocketId r0 = adminSocketId room) as (F1&F2&F3&F4&F5&F6&F7&F8&F9).
    { unfold r0. simpl. destruct (gameOver room) eqn:Hgo; simpl; by rewrite ?Hgo. }
    split_and!; try done; try congruence.
    constructor; try congruence.
    + rewrite E5, F2, HK. set_solver.
    + left. congruence.
Qed.
(** ** What the handlers do to the store of room objects *)

Lemma rooms_get_roomObjs s code rl room :
  rooms_get s code = Some (rl, room) → roomObjs s !! rl = Some room.
Proof. intros H. by apply rooms_get_Some in H as [_ ?]. Qed.

Lemma room_evolves_refl r : room_evolves r r.
Proof. constructor; auto. Qed.

#[local] Hint Resolve rooms_get_roomObjs : bingo.

Section HandlerSteps.
Context {js : Engine} (cfg : Config).

Lemma on_admin_login_roomObjs s sid u p :
  roomObjs_step (roomObjs s) (roomObjs (on_admin_login cfg s sid u p).1).
Proof. unfold on_admin_login. case_match; roomObjs_cases. Qed.

Lemma on_room_create_roomObjs s sid existing rnd now s' out :
  on_room_create s sid existing rnd now = Some (s', out) →
  roomObjs_step (roomObjs s) (roomObjs s').
Proof.
  unfold on_room_create, createNewRoom, reconnectAdmin. intros H.
  repeat (case_match; simplify_eq/=); roomObjs_cases.
Qed.

Lemma on_room_join_roomObjs s sid roomId playerName pid now rnd36 :
  roomObjs_step (roomObjs s)
    (roomObjs (on_room_join s sid roomId playerName pid now rnd36).1).
Proof.
  unfold on_room_join. repeat (case_match; simplify_eq/=); roomObjs_cases.
Qed.

Lemma on_player_bingoCard_roomObjs s sid roomId card pid :
  roomObjs_step (roomObjs s) (roomObjs (on_player_bingoCard s sid roomId card pid).1).
Proof.
  unfold on_player_bingoCard. repeat (case_match; simplify_eq/=); roomObjs_cases.
Qed.

Lemma on_game_drawNumber_roomObjs s sid rnd now s' out :
  on_game_drawNumber s sid rnd now = Some (s', out) →
  roomObjs_step (roomObjs s) (roomObjs s').
Proof.
  unfold on_game_drawNumber. intros H.
  repeat (case_match; simplify_eq/=); try roomObjs_cases.
  eapply rs_update; [eauto using rooms_get_roomObjs| |reflexivity].
  match goal with H : pickNumber _ _ = Some _ |- _ =>
    apply pickNumber_Some in H as [Hrange Hfresh] end.
  constructor; simpl; auto. right.
  split; [done|]. split.
  { match goal with H : bool_decide _ = false |- _ =>
      apply bool_decide_eq_false in H; lia end. }
  exists z. split; [done|]. split; [done|]. by apply set_add_fresh.
Qed.

Lemma on_win_check_roomObjs s :
  roomObjs_step (roomObjs s) (roomObjs (on_win_check s).1).
Proof.
  unfold on_win_check. destruct (timers s) as [|[rl ul] pending]; [roomObjs_cases|].
  simpl. destruct (roomObjs s !! rl) as [room|] eqn:Hroom; [|roomObjs_cases].
  destruct (userObjs s !! ul) as [user|]; [|roomObjs_cases].
  destruct (winCheck room) as [room' cs] eqn:Hwin. simpl.
  apply winCheck_spec in Hwin as [Hev _].
  by eapply rs_update.
Qed.

Lemma on_room_close_roomObjs s sid roomId now fstat :
  roomObjs (on_room_close cfg s sid roomId now fstat).1 = roomObjs s.
Proof.
  unfold on_room_close, closeRoom. by repeat (case_match; simplify_eq/=).
Qed.

Lemma on_disconnect_roomObjs s sid :
  roomObjs_step (roomObjs s) (roomObjs (on_disconnect s sid).1).
Proof.
  unfold on_disconnect. repeat (case_match; simplify_eq/=); roomObjs_cases.
Qed.

Lemma step_roomObjs s e s' out :
  step cfg s e = Some (s', out) → roomObjs_step (roomObjs s) (roomObjs s').
Proof.
  destruct e; simpl; intros H; repeat case_match; simplify_eq;
    try (by apply rs_same);
    try match goal with H : ?h = (s', out) |- _ =>
      change s' with (s', out).1; rewrite <-H end;
    eauto using on_admin_login_roomObjs, on_room_create_roomObjs,
      on_room_join_roomObjs, on_player_bingoCard_roomObjs,
      on_game_drawNumber_roomObjs, on_win_check_roomObjs, on_disconnect_roomObjs.
  rewrite on_room_close_roomObjs. by apply rs_same.
Qed.

End HandlerSteps.
(** ** Room objects along a run *)

Lemma roomObjs_step_lookup h h' rl r :
  roomObjs_step h h' → h !! rl = Some r →
  ∃ r', h' !! rl = Some r' ∧ room_evolves r r'.
Proof.
  intros [->|rl0 r0 r0' Hr0 Hev ->|r0 _ _ _ ->] Hr.
  - eauto using room_evolves_refl.
  - destruct (decide (rl0 = rl)) as [->|Hne].
    + simplify_eq. exists r0'. split; [|done].
      apply list_lookup_insert_eq. by eapply lookup_lt_Some.
    + exists r. rewrite list_lookup_insert_ne by done. eauto using room_evolves_refl.
  - exists r. rewrite lookup_app_l by (by eapply lookup_lt_Some).
    eauto using room_evolves_refl.
Qed.

Lemma room_evolves_kept r r' : room_evolves r r' → room_kept r r'.
Proof.
  intros [_ _ _ Hgo Hcr Hdr]. constructor; [done..| |].
  - destruct Hdr as [->|(_ & _ & n & _ & _ & ->)]; [by exists []; rewrite app_nil_r|].
    by exists [n].
  - intros Hover. destruct Hdr as [->|(Hno & _)]; [done|congruence].
Qed.

Lemma room_kept_trans r1 r2 r3 : room_kept r1 r2 → room_kept r2 r3 → room_kept r1 r3.
Proof.
  intros [A1 A2 A3 A4] [B1 B2 B3 B4]. constructor.
  - auto.
  - set_solver.
  - by etrans.
  - intros H. rewrite B4, A4; auto.
Qed.

Lemma run_cons {js : Engine} cfg s e es s'' out :
  run cfg s (e :: es) = Some (s'', out) ↔
  ∃ s' out1 out2, step cfg s e = Some (s', out1)
                  ∧ run cfg s' es = Some (s'', out2) ∧ out = out1 ++ out2.
Proof.
  simpl. split.
  - destruct (step cfg s e) as [[s' out1]|]; [|done].
    destruct (run cfg s' es) as [[s3 out2]|] eqn:Hrun; [|done].
    intros [= <- <-]. by exists s', out1, out2.
  - intros (s' & out1 & out2 & H1 & H2 & ->). by rewrite H1, H2.
Qed.

Lemma run_room_kept {js : Engine} cfg es s s' out rl r :
  run cfg s es = Some (s', out) → roomObjs s !! rl = Some r →
  ∃ r', roomObjs s' !! rl = Some r' ∧ room_kept r r'.
Proof.
  revert s out r. induction es as [|e es IH]; intros s out r.
  - intros [= <- <-] Hr. exists r. split; [done|].
    apply room_evolves_kept, room_evolves_refl.
  - rewrite run_cons. intros (s1 & o1 & o2 & Hstep & Hrun & ->) Hr.
    apply step_roomObjs in Hstep.
    destruct (roomObjs_step_lookup _ _ _ _ Hstep Hr) as (r1 & Hr1 & Hev).
    destruct (IH _ _ _ Hrun Hr1) as (r' & Hr' & Hkept).
    exists r'. split; [done|]. eauto using room_kept_trans, room_evolves_kept.
Qed.

(** ** The invariant of the drawn numbers *)

Lemma drawn_ok_evolves r r' :
  room_evolves r r' → drawn_ok (drawnNumbers r) → drawn_ok (drawnNumbers r').
Proof.
  intros [_ _ _ _ _ Hdr] (Hnd & Hrange & Hlen).
  destruct Hdr as [->|(_ & Hlt & n & Hn & Hfresh & ->)]; [done|].
  split_and!.
  - apply NoDup_app. split_and!; [done| |apply NoDup_singleton].
    by intros x Hx ->%list_elem_of_singleton.
  - apply Forall_app. split; [done|]. by apply Forall_singleton.
  - rewrite length_app. simpl. lia.
Qed.

Lemma step_drawn_ok {js : Engine} cfg s e s' out :
  step cfg s e = Some (s', out) →
  Forall (λ r, drawn_ok (drawnNumbers r)) (roomObjs s) →
  Forall (λ r, drawn_ok (drawnNumbers r)) (roomObjs s').
Proof.
  intros Hstep%step_roomObjs Hall.
  destruct Hstep as [->|rl r r' Hr Hev ->|r Hd _ _ ->]; [done| |].
  - apply Forall_insert; [done|]. eapply drawn_ok_evolves; [done|].
    by eapply Forall_lookup_1 in Hall.
  - apply Forall_app. split; [done|]. apply Forall_singleton. rewrite Hd.
    split_and!; [constructor|constructor|simpl; lia].
Qed.

Lemma run_drawn_ok {js : Engine} cfg es s s' out :
  run cfg s es = Some (s', out) →
  Forall (λ r, drawn_ok (drawnNumbers r)) (roomObjs s) →
  Forall (λ r, drawn_ok (drawnNumbers r)) (roomObjs s').
Proof.
  revert s out. induction es as [|e es IH]; intros s out.
  - by intros [= <- <-].
  - rewrite run_cons. intros (s1 & o1 & o2 & Hstep & Hrun & ->) Hall.
    eauto using step_drawn_ok.
Qed.

(** With fewer than 90 distinct numbers of 1..90 drawn, one of them is left. *)
Lemma drawn_ok_free drawn :
  drawn_ok drawn → (length drawn < 90)%nat → ∃ n, 1 ≤ n ≤ 90 ∧ n ∉ drawn.
Proof.
  intros (Hnd & Hrange & _) Hlen.
  destruct (decide (Forall (λ n, n ∈ drawn) (seqZ 1 90))) as [Hall|Hex].
  - exfalso. assert (seqZ 1 90 ⊆+ drawn) as Hsub.
    { apply NoDup_submseteq; [apply NoDup_seqZ|]. by apply Forall_forall. }
    apply submseteq_length in Hsub. rewrite length_seqZ in Hsub. lia.
  - apply not_Forall_Exists in Hex; [|apply _].
    apply Exists_exists in Hex as (n & Hn & Hfree).
    exists n. split; [|done]. apply elem_of_seqZ in Hn. lia.
Qed.

Lemma pickNumber_first drawn n :
  1 ≤ n ≤ 90 → n ∉ drawn → ∀ rnd, pickNumber drawn (Z.to_N (n - 1) :: rnd) = Some n.
Proof.
  intros Hn Hfree rnd. simpl.
  assert (Z.of_N (Z.to_N (n - 1) mod 90) + 1 = n) as ->.
  { rewrite N.mod_small by lia. lia. }
  unfold set_has. by rewrite bool_decide_eq_false_2.
Qed.
(** ** The directory of users *)

Lemma users_ok_unfold s : users_ok s ↔ users_ok' (users s) (userObjs s).
Proof. done. Qed.

Lemma users_ok'_update us objs ul user' :
  users_ok' us objs →
  (∀ user, objs !! ul = Some user → userId user' = userId user) →
  users_ok' us (<[ul:=user']> objs).
Proof.
  intros Hok Hid sid ul0 Hsid. destruct (Hok _ _ Hsid) as (user & Hu & Huid).
  destruct (decide (ul = ul0)) as [->|Hne].
  - exists user'. rewrite list_lookup_insert_eq by (by eapply lookup_lt_Some).
    split; [done|]. by rewrite (Hid _ Hu).
  - exists user. by rewrite list_lookup_insert_ne.
Qed.

Lemma users_ok'_alloc us objs sid user :
  users_ok' us objs → userId user = sid →
  users_ok' (<[sid:=length objs]> us) (objs ++ [user]).
Proof.
  intros Hok Hid sid0 ul0. rewrite lookup_insert. case_decide as Hsid.
  - intros [= <-]. subst sid0. exists user.
    by rewrite lookup_app_r, Nat.sub_diag by done.
  - intros Hsid0. destruct (Hok _ _ Hsid0) as (user0 & Hu & Huid).
    exists user0. by rewrite lookup_app_l by (by eapply lookup_lt_Some).
Qed.

Lemma users_ok'_delete us objs sid :
  users_ok' us objs → users_ok' (delete sid us) objs.
Proof.
  intros Hok sid0 ul0 Hsid0. apply lookup_delete_Some in Hsid0 as [_ Hsid0]. eauto.
Qed.

Section UsersOk.
Context {js : Engine} (cfg : Config).

Lemma step_users_ok s e s' out :
  step cfg s e = Some (s', out) → users_ok s → users_ok s'.
Proof.
  rewrite !users_ok_unfold. intros Hstep Hok.
  destruct e; simpl in Hstep; simplify_eq/=;
    repeat (case_match; simplify_eq/=); try done;
    unfold on_admin_login, on_room_create, createNewRoom, reconnectAdmin,
      on_room_join, on_player_bingoCard, on_game_drawNumber, on_win_check,
      on_room_close, closeRoom, on_disconnect in *;
    repeat (case_match; simplify_eq/=);
    repeat first
      [ assumption
      | apply users_ok'_delete
      | apply users_ok'_alloc; [|done]
      | apply users_ok'_update; [|same_userId] ].
Qed.

Lemma run_users_ok es s s' out :
  run cfg s es = Some (s', out) → users_ok s → users_ok s'.
Proof.
  revert s out. induction es as [|e es IH]; intros s out.
  - by intros [= <- <-].
  - rewrite run_cons. intros (s1 & o1 & o2 & Hstep & Hrun & ->) Hok.
    eauto using step_users_ok.
Qed.

Lemma Reachable_users_ok s : Reachable cfg s → users_ok s.
Proof.
  intros (loaded & es & out & Hrun). eapply run_users_ok; [done|].
  intros sid ul Hsid. simpl in Hsid. by rewrite lookup_empty in Hsid.
Qed.

End UsersOk.
(** ** Completion records along a run *)

Lemma rowCompletedOf_app out1 out2 :
  rowCompletedOf (out1 ++ out2) = rowCompletedOf out1 ++ rowCompletedOf out2.
Proof. apply omap_app. Qed.

Lemma rowCompletedOf_events user cs :
  rowCompletedOf (map (rowCompletedEvent user) cs) = map rowCompletedMsg cs.
Proof. induction cs as [|c cs IH]; simpl; [done|]. by f_equal. Qed.

Section Collected.
Context {js : Engine} (cfg : Config).

(** Only the win check broadcasts game:rowCompleted, one event for each
    record it collects. *)
Lemma step_rowCompleted s e s' out :
  step cfg s e = Some (s', out) →
  rowCompletedOf out = map (λ p, rowCompletedMsg p.2) (collectedBy s e).
Proof.
  intros Hstep.
  destruct e; simpl in Hstep; simplify_eq/=;
    repeat (case_match; simplify_eq/=); try done;
    unfold on_admin_login, on_room_create, createNewRoom, reconnectAdmin,
      on_room_join, on_player_bingoCard, on_game_drawNumber, on_win_check,
      on_room_close, closeRoom, on_disconnect, sendPlayersListToAdmin in *;
    repeat (case_match; simplify_eq/=); try done.
  all: by rewrite rowCompletedOf_events, map_map.
Qed.

(** The records one event collects are for rows not yet notified, are
    notified afterwards, and name no row twice. *)
Lemma step_collected s e s' out :
  step cfg s e = Some (s', out) →
  NoDup (logPairs (collectedBy s e))
  ∧ ∀ rl c, (rl, c) ∈ collectedBy s e →
      ∃ r r', roomObjs s !! rl = Some r ∧ (keyOf c ∉ completedRows r)
              ∧ roomObjs s' !! rl = Some r' ∧ (keyOf c ∈ completedRows r').
Proof.
  intros Hstep. unfold logPairs.
  destruct e; simpl;
    try (split; [constructor|by intros ?? ?%elem_of_nil]).
  simpl in Hstep. unfold on_win_check in Hstep.
  destruct (timers s) as [|[rl ul] pending];
    [split; [constructor|by intros ?? ?%elem_of_nil]|].
  simpl in Hstep.
  destruct (roomObjs s !! rl) as [room|] eqn:Hroom;
    [|split; [constructor|by intros ?? ?%elem_of_nil]].
  destruct (userObjs s !! ul) as [user|];
    [|split; [constructor|by intros ?? ?%elem_of_nil]].
  destruct (winCheck room) as [room' cs] eqn:Hwin. simplify_eq/=.
  apply winCheck_spec in Hwin as (_ & Hkeys & Hnd & Hfresh & _).
  split.
  - rewrite map_map. simpl.
    change (NoDup ((λ c, (rl, pairOf c)) <$> cs)).
    apply (NoDup_fmap_1 (λ p : nat * (string * nat), rowKey p.2.1 p.2.2)).
    rewrite <-list_fmap_compose. exact Hnd.
  - intros rl0 c [c0 [[= -> ->] Hc]]%list_elem_of_fmap.
    exists room, room'. split_and!; [done|by apply Hfresh| |].
    + apply list_lookup_insert_eq. by eapply lookup_lt_Some.
    + rewrite Hkeys, elem_of_app. right. by apply list_elem_of_fmap_2.
Qed.

Lemma collectedLog_cons s e es :
  collectedLog cfg s (e :: es)
  = collectedBy s e ++ match step cfg s e with
                       | Some (s', _) => collectedLog cfg s' es
                       | None => []
                       end.
Proof. done. Qed.

(** A row that is notified is not collected again. *)
Lemma notified_not_collected es s s' out rl r key :
  run cfg s es = Some (s', out) →
  roomObjs s !! rl = Some r → key ∈ completedRows r →
  ∀ c, (rl, c) ∈ collectedLog cfg s es → keyOf c ≠ key.
Proof.
  revert s out r. induction es as [|e es IH]; intros s out r Hrun Hr Hkey c.
  - by intros ?%elem_of_nil.
  - apply run_cons in Hrun as (s1 & o1 & o2 & Hstep & Hrun & ->).
    rewrite collectedLog_cons, Hstep, elem_of_app. intros [Hc|Hc].
    + apply step_collected in Hstep as [_ Hcol].
      destruct (Hcol _ _ Hc) as (r0 & _ & Hr0 & Hfresh & _).
      simplify_eq. by intros <-.
    + pose proof (step_roomObjs _ _ _ _ _ Hstep) as Hobjs.
      destruct (roomObjs_step_lookup _ _ _ _ Hobjs Hr) as (r1 & Hr1 & Hev).
      eapply IH; [done..| |done]. by apply (ev_completedRows _ _ Hev).
Qed.

Lemma collectedLog_NoDup es s s' out :
  run cfg s es = Some (s', out) → NoDup (logPairs (collectedLog cfg s es)).
Proof.
  revert s out. induction es as [|e es IH]; intros s out Hrun; [constructor|].
  apply run_cons in Hrun as (s1 & o1 & o2 & Hstep & Hrun & ->).
  rewrite collectedLog_cons, Hstep. unfold logPairs. rewrite map_app.
  pose proof (step_collected _ _ _ _ Hstep) as [Hnd Hcol].
  apply NoDup_app. split_and!; [done| |by eapply IH].
  intros [rl p] [[rl1 c1] [[= -> ->] Hc1]]%list_elem_of_fmap
    [[rl2 c2] [[= <- Hp] Hc2]]%list_elem_of_fmap. simpl in *.
  destruct (Hcol _ _ Hc1) as (_ & r' & _ & _ & Hr' & Hkey).
  eapply notified_not_collected in Hc2; [|done..].
  apply Hc2. unfold keyOf, pairOf in *. simplify_eq/=. congruence.
Qed.

Lemma collectedLog_notified es s s' out rl c :
  run cfg s es = Some (s', out) → (rl, c) ∈ collectedLog cfg s es →
  ∃ r', roomObjs s' !! rl = Some r' ∧ keyOf c ∈ completedRows r'.
Proof.
  revert s out. induction es as [|e es IH]; intros s out Hrun.
  - by intros ?%elem_of_nil.
  - apply run_cons in Hrun as (s1 & o1 & o2 & Hstep & Hrun & ->).
    rewrite collectedLog_cons, Hstep, elem_of_app. intros [Hc|Hc]; [|by eapply IH].
    apply step_collected in Hstep as [_ Hcol].
    destruct (Hcol _ _ Hc) as (_ & r1 & _ & _ & Hr1 & Hkey).
    destruct (run_room_kept _ _ _ _ _ _ _ Hrun Hr1) as (r' & Hr' & Hkept).
    exists r'. split; [done|]. by apply (kept_completedRows _ _ Hkept).
Qed.

Lemma run_rowCompleted es s s' out :
  run cfg s es = Some (s', out) →
  rowCompletedOf out = map (λ p, rowCompletedMsg p.2) (collectedLog cfg s es).
Proof.
  revert s out. induction es as [|e es IH]; intros s out Hrun.
  - by simplify_eq/=.
  - apply run_cons in Hrun as (s1 & o1 & o2 & Hstep & Hrun & ->).
    rewrite collectedLog_cons, Hstep, rowCompletedOf_app, map_app.
    f_equal; [by eapply step_rowCompleted|by eapply IH].
Qed.

End Collected.
(** ** Properties of the win detector *)

Lemma rowNumbers_elem (cells : list (option Z)) (n : Z) :
  n ∈ rowNumbers cells ↔ Some n ∈ cells.
Proof.
  unfold rowNumbers. rewrite list_elem_of_omap. split.
  - intros (o & Ho & Hid). simpl in Hid. by subst.
  - intros H. by exists (Some n).
Qed.

Lemma rowNumbers_all_blank (cells : list (option Z)) :
  Forall (λ c, c = None) cells → rowNumbers cells = [].
Proof.
  induction 1 as [|c cells Hc _ IH]; [done|]. subst c. simpl. exact IH.
Qed.

(** C1: the win detector reports a row complete exactly when every
    non-blank slot of the row is a drawn number and the row has exactly five
    non-blank slots; the reported numbers are the row's non-blank slots.  A
    row missing one of its numbers, and a row with only blank slots, are not
    reported. *)
Theorem checkRowComplete_iff (row : Row) (drawn : list Z) :
  (is_Some (checkRowComplete row drawn) ↔
     ∃ cells, row = Some cells
              ∧ (∀ n, Some n ∈ cells → n ∈ drawn)
              ∧ length (rowNumbers cells) = 5%nat)
  ∧ (∀ nums, checkRowComplete row drawn = Some nums →
       ∃ cells, row = Some cells ∧ nums = rowNumbers cells)
  ∧ (∀ cells n, row = Some cells → Some n ∈ cells → n ∉ drawn →
       checkRowComplete row drawn = None)
  ∧ (∀ cells, row = Some cells → Forall (λ c, c = None) cells →
       checkRowComplete row drawn = None).
Proof.
  assert (Hall : ∀ cells,
    forallb (λ num, set_has num drawn) (rowNumbers cells) = true
    ↔ ∀ n, Some n ∈ cells → n ∈ drawn).
  { intros cells. rewrite forallb_forall. split.
    - intros H n Hn. apply rowNumbers_elem in Hn.
      apply list_elem_of_In, H in Hn. by apply bool_decide_eq_true in Hn.
    - intros H n Hn. apply list_elem_of_In, rowNumbers_elem, H in Hn.
      by apply bool_decide_eq_true. }
  repeat split.
  - intros [nums Hnums]. destruct row as [cells|]; [|done]. exists cells.
    simpl in Hnums. case_bool_decide; [done|].
    destruct (forallb _ _) eqn:Hm; [|done].
    case_bool_decide as Hl; [|done].
    split; [done|]. split; [|done]. by apply Hall.
  - intros (cells & -> & Hm & Hl). simpl.
    case_bool_decide as Hz.
    { destruct cells; [done|]. done. }
    apply Hall in Hm. rewrite Hm, Hl. simpl. eauto.
  - intros nums H. destruct row as [cells|]; [|done]. exists cells.
    simpl in H. case_bool_decide; [done|].
    destruct (forallb _ _); [|done].
    case_bool_decide; [|done]. simpl in H. split; congruence.
  - intros cells n -> Hn Hnd. simpl. case_bool_decide; [done|].
    destruct (forallb _ _) eqn:Hm; [|done].
    pose proof (proj1 (Hall _) Hm). naive_solver.
  - intros cells -> Hb. simpl. case_bool_decide; [done|].
    rewrite (rowNumbers_all_blank _ Hb). simpl. done.
Qed.

(** C1 on three rows: a row of six slots, five of them numbers and all
    drawn, is complete; a row whose 67 is not drawn is not; a row of blanks
    is not. *)
Lemma checkRowComplete_iff_witness :
  is_Some (checkRowComplete (Some [Some 5; None; Some 12; Some 23; Some 41; Some 67])
             [67; 41; 5; 23; 12; 90])
  ∧ checkRowComplete (Some [Some 5; Some 12; Some 23; Some 41; Some 67])
      [5; 12; 23; 41] = None
  ∧ checkRowComplete (Some [None; None; None; None; None]) [5; 12] = None.
Proof.
  split_and!.
  - apply (proj1 (checkRowComplete_iff _ _)).
    exists [Some 5; None; Some 12; Some 23; Some 41; Some 67].
    split; [reflexivity|]. split; [|reflexivity].
    intros n Hn. apply (bool_decide_eq_true_1 (_ ∈ _)).
    repeat (apply elem_of_cons in Hn as [Hn|Hn]; [by simplify_eq|]).
    by apply elem_of_nil in Hn.
  - apply (proj1 (proj2 (proj2 (checkRowComplete_iff _ [5; 12; 23; 41])))
             [Some 5; Some 12; Some 23; Some 41; Some 67] 67); [reflexivity| |].
    + do 4 apply list_elem_of_further. apply list_elem_of_here.
    + apply (bool_decide_eq_false_1 (_ ∈ _)). reflexivity.
  - apply (proj2 (proj2 (proj2 (checkRowComplete_iff _ [5; 12])))
             [None; None; None; None; None]); [reflexivity|].
    repeat constructor.
Defined.
(** ** game:drawNumber *)

Lemma truthy_Some (v : option string) :
  truthy v = true ↔ ∃ code, v = Some code ∧ code ≠ "".
Proof.
  destruct v as [code|]; simpl; [|naive_solver].
  rewrite bool_decide_eq_true. naive_solver.
Qed.

Lemma draw_unauthorized s sid rnd now :
  ¬ draw_authorized s sid →
  on_game_drawNumber s sid rnd now = Some (s, [(ToSocket sid, NotAuthorized_draw)]).
Proof.
  intros Hno. unfold on_game_drawNumber.
  destruct (users_get s sid) as [[ul user]|] eqn:Hu; [|done].
  destruct (isAdmin user) eqn:Hadm; [|done].
  destruct (truthy (u_roomId user)) eqn:Hroom; [|done].
  destruct Hno. by exists ul, user.
Qed.

Lemma draw_game_over s sid rnd now ul user code rl room :
  users_get s sid = Some (ul, user) → isAdmin user = true →
  u_roomId user = Some code → code ≠ "" →
  rooms_get s code = Some (rl, room) → gameOver room = true →
  on_game_drawNumber s sid rnd now = Some (s, [(ToSocket sid, GameOver)]).
Proof.
  intros Hu Hadm Hroom Hcode Hget Hover. unfold on_game_drawNumber.
  rewrite Hu, Hadm, Hroom. simpl. rewrite bool_decide_eq_true_2 by done. simpl.
  by rewrite Hget, Hover.
Qed.

Lemma draw_pool_exhausted s sid rnd now ul user code rl room :
  users_get s sid = Some (ul, user) → isAdmin user = true →
  u_roomId user = Some code → code ≠ "" →
  rooms_get s code = Some (rl, room) → gameOver room = false →
  (90 ≤ length (drawnNumbers room))%nat →
  on_game_drawNumber s sid rnd now = Some (s, [(ToSocket sid, PoolExhausted)]).
Proof.
  intros Hu Hadm Hroom Hcode Hget Hover Hlen. unfold on_game_drawNumber.
  rewrite Hu, Hadm, Hroom. simpl. rewrite bool_decide_eq_true_2 by done. simpl.
  rewrite Hget, Hover. by rewrite bool_decide_eq_true_2.
Qed.

(** Every outcome of a draw request: one of the four errors with the state
    untouched, or one new number appended to the drawn numbers of the
    requester's room, broadcast to that room, and a win check queued. *)
Lemma on_game_drawNumber_inv s sid rnd now s' out :
  on_game_drawNumber s sid rnd now = Some (s', out) →
  (s' = s ∧ ∃ m, out = [(ToSocket sid, m)]
                 ∧ m ∈ [NotAuthorized_draw; RoomNotFound; GameOver; PoolExhausted])
  ∨ (∃ ul user code rl room number,
       users_get s sid = Some (ul, user) ∧ isAdmin user = true
       ∧ u_roomId user = Some code ∧ code ≠ ""
       ∧ rooms_get s code = Some (rl, room) ∧ gameOver room = false
       ∧ (length (drawnNumbers room) < 90)%nat
       ∧ (1 ≤ number ≤ 90) ∧ (number ∉ drawnNumbers room)
       ∧ s' = with_timers (timers s ++ [(rl, ul)])
                (set_roomObj rl
                   (room_with_drawnNumbers (drawnNumbers room ++ [number]) room) s)
       ∧ out = [(ToRoom (Some code),
                 game_numberDrawn number (now + 500) (drawnNumbers room ++ [number]))]).
Proof.
  unfold on_game_drawNumber. intros H.
  destruct (users_get s sid) as [[ul user]|] eqn:Hu;
    [|simplify_eq; left; split; [done|eexists; split; [done|set_solver]]].
  destruct (isAdmin user) eqn:Hadm;
    [|simplify_eq/=; left; split; [done|eexists; split; [done|set_solver]]].
  destruct (truthy (u_roomId user)) eqn:Hroom;
    [|simplify_eq/=; left; split; [done|eexists; split; [done|set_solver]]].
  apply truthy_Some in Hroom as (code & Hroom & Hcode). rewrite Hroom in H.
  simpl in H.
  destruct (rooms_get s code) as [[rl room]|] eqn:Hget;
    [|simplify_eq/=; left; split; [done|eexists; split; [done|set_solver]]].
  destruct (gameOver room) eqn:Hover;
    [simplify_eq/=; left; split; [done|eexists; split; [done|set_solver]]|].
  case_bool_decide as Hlen;
    [simplify_eq/=; left; split; [done|eexists; split; [done|set_solver]]|].
  destruct (pickNumber (drawnNumbers room) rnd) as [number|] eqn:Hpick; [|done].
  apply pickNumber_Some in Hpick as [Hrange Hfresh].
  simplify_eq/=. right. exists ul, user, code, rl, room, number.
  rewrite set_add_fresh by done. split_and!; try done; try lia.
Qed.

Lemma draw_succeeds s sid rnd now ul user code rl room number :
  users_get s sid = Some (ul, user) → isAdmin user = true →
  u_roomId user = Some code → code ≠ "" →
  rooms_get s code = Some (rl, room) → gameOver room = false →
  (length (drawnNumbers room) < 90)%nat →
  pickNumber (drawnNumbers room) rnd = Some number →
  on_game_drawNumber s sid rnd now
  = Some (with_timers (timers s ++ [(rl, ul)])
            (set_roomObj rl
               (room_with_drawnNumbers (drawnNumbers room ++ [number]) room) s),
          [(ToRoom (Some code),
            game_numberDrawn number (now + 500) (drawnNumbers room ++ [number]))]).
Proof.
  intros Hu Hadm Hroom Hcode Hget Hover Hlen Hpick. unfold on_game_drawNumber.
  rewrite Hu, Hadm, Hroom. simpl. rewrite bool_decide_eq_true_2 by done. simpl.
  rewrite Hget, Hover. rewrite bool_decide_eq_false_2 by lia.
  rewrite Hpick. apply pickNumber_Some in Hpick as [_ Hfresh].
  by rewrite set_add_fresh.
Qed.

Lemma state_after_run {js : Engine} cfg es s out :
  run cfg (start_state []) es = Some (s, out) →
  state_after cfg es = s ∧ emitted_by cfg es = out.
Proof. unfold state_after, emitted_by. by intros ->. Qed.

Lemma state_after_Reachable {js : Engine} cfg es :
  is_Some (run cfg (start_state []) es) → Reachable cfg (state_after cfg es).
Proof.
  intros [[s out] Hrun]. exists [], es, out.
  by destruct (state_after_run _ _ _ _ Hrun) as [-> _].
Qed.

(** C2: a game that is over stays over whatever happens next, its drawn
    numbers no longer change, and from then on a draw request that reaches
    the room is answered with the GameOver error alone and changes nothing;
    no draw request of anyone touches the room object or broadcasts a
    number to a channel the registry resolves to it. *)
Theorem over_is_terminal {js : Engine} cfg s es s' out rl room :
  roomObjs s !! rl = Some room → gameOver room = true →
  run cfg s es = Some (s', out) →
  (∃ room', roomObjs s' !! rl = Some room' ∧ gameOver room' = true
            ∧ drawnNumbers room' = drawnNumbers room)
  ∧ (∀ sid rnd now ul user code room',
       users_get s' sid = Some (ul, user) → isAdmin user = true →
       u_roomId user = Some code → code ≠ "" →
       rooms_get s' code = Some (rl, room') →
       on_game_drawNumber s' sid rnd now = Some (s', [(ToSocket sid, GameOver)]))
  ∧ (∀ sid rnd now s'' out',
       on_game_drawNumber s' sid rnd now = Some (s'', out') →
       roomObjs s'' !! rl = roomObjs s' !! rl
       ∧ ∀ code number startTime drawn room',
           (ToRoom (Some code), game_numberDrawn number startTime drawn) ∈ out' →
           rooms_get s' code ≠ Some (rl, room')).
Proof.
  intros Hroom Hover Hrun.
  destruct (run_room_kept _ _ _ _ _ _ _ Hrun Hroom) as (room1 & Hroom1 & Hkept).
  pose proof (kept_gameOver _ _ Hkept Hover) as Hover1.
  split_and!.
  - exists room1. split_and!; [done..|]. by apply (kept_drawn_over _ _ Hkept).
  - intros sid rnd now ul user code room' Hu Hadm Hcode Hne Hget.
    eapply draw_game_over; [done..|].
    apply rooms_get_roomObjs in Hget. congruence.
  - intros sid rnd now s'' out' Hdraw.
    apply on_game_drawNumber_inv in Hdraw
      as [(-> & m & -> & Hm)|(ul & user & code & rl0 & room0 & number & Hu & Hadm
            & Hcode & Hne & Hget & Hover0 & Hlen & Hrange & Hfresh & -> & ->)].
    + split; [done|]. intros code number startTime drawn room'.
      intros [=]%list_elem_of_singleton.
    + assert (rl0 ≠ rl) as Hrl.
      { intros ->. apply rooms_get_roomObjs in Hget. congruence. }
      split; [simpl; by apply list_lookup_insert_ne|].
      intros code' number' startTime drawn room'.
      intros Heq%list_elem_of_singleton. simplify_eq. rewrite Hget. congruence.
Qed.

(** C2 on the example game: Sam's row is complete, the game is over; after
    a refused draw, a resubmitted card, the admin's reconnection on "B" and a
    stray win check, a draw request of "B" still gets GameOver. *)
Lemma over_is_terminal_witness :
  let s := state_after demo_cfg demo_game in
  let s' := state_after demo_cfg (demo_game ++ after_game) in
  (∃ room, roomObjs s !! 0%nat = Some room ∧ gameOver room = true)
  ∧ (∃ out, run demo_cfg s after_game = Some (s', out))
  ∧ on_game_drawNumber s' "B" [7]%N 15000 = Some (s', [(ToSocket "B", GameOver)]).
Proof.
  intros s s'.
  assert (∃ room, roomObjs s !! 0%nat = Some room ∧ gameOver room = true)
    as (room & Hroom & Hover).
  { vm_compute. eexists. split; reflexivity. }
  assert (∃ out, run demo_cfg s after_game = Some (s', out)) as (out & Hrun).
  { vm_compute. eexists. reflexivity. }
  assert (∃ ul user room',
            users_get s' "B" = Some (ul, user) ∧ isAdmin user = true
            ∧ u_roomId user = Some "AB12CD"
            ∧ rooms_get s' "AB12CD" = Some (0%nat, room'))
    as (ul & user & room' & Hu & Hadm & Hcode & Hget).
  { vm_compute. do 3 eexists. repeat split; reflexivity. }
  clearbody s s'.
  split; [exists room; split; assumption|]. split; [exists out; assumption|].
  destruct (over_is_terminal demo_cfg s after_game s' out 0%nat room Hroom Hover Hrun)
    as (_ & Hdraw & _).
  eapply Hdraw; [exact Hu|exact Hadm|exact Hcode|discriminate|exact Hget].
Defined.

(** C3: in every state the server reaches, the drawn numbers of every room
    hold no number twice, only numbers of 1..90, and at most 90 of them.  A
    draw request changes the drawn numbers of a room only by appending one
    number of 1..90 that was not drawn before; with all 90 numbers drawn it is
    answered with the PoolExhausted error alone and changes nothing; with fewer
    drawn, some sample of the random source makes it succeed. *)
Theorem drawnNumbers_invariant {js : Engine} cfg loaded es s out :
  run cfg (start_state loaded) es = Some (s, out) →
  (∀ rl room, roomObjs s !! rl = Some room →
     NoDup (drawnNumbers room)
     ∧ Forall (λ n, 1 ≤ n ≤ 90) (drawnNumbers room)
     ∧ (length (drawnNumbers room) ≤ 90)%nat)
  ∧ (∀ sid rnd now s' out' rl room,
       on_game_drawNumber s sid rnd now = Some (s', out') →
       roomObjs s !! rl = Some room →
       ∃ room', roomObjs s' !! rl = Some room'
         ∧ (drawnNumbers room' = drawnNumbers room
            ∨ ∃ n, (1 ≤ n ≤ 90) ∧ (n ∉ drawnNumbers room)
                   ∧ drawnNumbers room' = drawnNumbers room ++ [n]))
  ∧ (∀ sid rnd now ul user code rl room,
       users_get s sid = Some (ul, user) → isAdmin user = true →
       u_roomId user = Some code → code ≠ "" →
       rooms_get s code = Some (rl, room) → gameOver room = false →
       (length (drawnNumbers room) = 90%nat →
        on_game_drawNumber s sid rnd now = Some (s, [(ToSocket sid, PoolExhausted)]))
       ∧ ((length (drawnNumbers room) < 90)%nat →
          ∃ r number s',
            on_game_drawNumber s sid [r] now
            = Some (s', [(ToRoom (Some code),
                          game_numberDrawn number (now + 500)
                            (drawnNumbers room ++ [number]))])
            ∧ rooms_get s' code
              = Some (rl, room_with_drawnNumbers (drawnNumbers room ++ [number]) room))).
Proof.
  intros Hrun.
  assert (Forall (λ r, drawn_ok (drawnNumbers r)) (roomObjs s)) as Hall.
  { eapply run_drawn_ok; [done|]. constructor. }
  split_and!.
  - intros rl room Hroom. by eapply Forall_lookup_1 in Hall.
  - intros sid rnd now s' out' rl room Hdraw%on_game_drawNumber_roomObjs Hroom.
    destruct (roomObjs_step_lookup _ _ _ _ Hdraw Hroom) as (room' & Hroom' & Hev).
    exists room'. split; [done|].
    destruct (ev_drawnNumbers _ _ Hev) as [?|(_ & _ & n & ? & ? & ?)]; eauto.
  - intros sid rnd now ul user code rl room Hu Hadm Hcode Hne Hget Hover. split.
    + intros Hlen. eapply draw_pool_exhausted; [done..|lia].
    + intros Hlen.
      assert (drawn_ok (drawnNumbers room)) as Hok.
      { apply rooms_get_roomObjs in Hget. by eapply Forall_lookup_1 in Hall. }
      destruct (drawn_ok_free _ Hok Hlen) as (n & Hn & Hfree).
      eexists (Z.to_N (n - 1)), n, _. split.
      * eapply draw_succeeds; [done..|]. by apply pickNumber_first.
      * apply rooms_get_Some in Hget as [Hreg Hobj]. apply rooms_get_Some.
        split; [done|]. simpl. apply list_lookup_insert_eq.
        by eapply lookup_lt_Some.
Qed.

(** C3 on the example game, whose room has drawn 5, 12, 23, 41 and 67. *)
Lemma drawnNumbers_invariant_witness :
  let s := state_after demo_cfg demo_game in
  is_Some (run demo_cfg (start_state []) demo_game)
  ∧ ∃ room, roomObjs s !! 0%nat = Some room
            ∧ drawnNumbers room = [5; 12; 23; 41; 67]
            ∧ NoDup (drawnNumbers room)
            ∧ Forall (λ n, 1 ≤ n ≤ 90) (drawnNumbers room)
            ∧ (length (drawnNumbers room) ≤ 90)%nat.
Proof.
  intros s.
  assert (∃ out, run demo_cfg (start_state []) demo_game = Some (s, out))
    as (out & Hrun).
  { vm_compute. eexists. reflexivity. }
  assert (∃ room, roomObjs s !! 0%nat = Some room
                  ∧ drawnNumbers room = [5; 12; 23; 41; 67])
    as (room & Hroom & Hdrawn).
  { vm_compute. eexists. split; reflexivity. }
  clearbody s. split; [by rewrite Hrun|].
  exists room. split; [exact Hroom|]. split; [exact Hdrawn|].
  exact (proj1 (drawnNumbers_invariant demo_cfg [] demo_game s out Hrun) 0%nat room Hroom).
Defined.

(** C4: along every run, the notified rows of a room object only grow, no
    (room, playerId, rowIndex) triple is collected twice, the
    game:rowCompleted events emitted are exactly one per collected record, a
    row that is already notified is never collected again, and every
    collected row is notified at the end of the run. *)
Theorem notified_rows_once {js : Engine} cfg s es s' out :
  run cfg s es = Some (s', out) →
  (∀ rl room, roomObjs s !! rl = Some room →
     ∃ room', roomObjs s' !! rl = Some room'
              ∧ completedRows room ⊆ completedRows room')
  ∧ NoDup (logPairs (collectedLog cfg s es))
  ∧ rowCompletedOf out = map (λ p, rowCompletedMsg p.2) (collectedLog cfg s es)
  ∧ (∀ rl room playerId rowIndex,
       roomObjs s !! rl = Some room →
       rowKey playerId rowIndex ∈ completedRows room →
       (rl, (playerId, rowIndex)) ∉ logPairs (collectedLog cfg s es))
  ∧ (∀ rl c, (rl, c) ∈ collectedLog cfg s es →
       ∃ room', roomObjs s' !! rl = Some room' ∧ (keyOf c ∈ completedRows room')).
Proof.
  intros Hrun. split_and!.
  - intros rl room Hroom.
    destruct (run_room_kept _ _ _ _ _ _ _ Hrun Hroom) as (room' & Hroom' & Hkept).
    exists room'. split; [done|]. by apply (kept_completedRows _ _ Hkept).
  - by eapply collectedLog_NoDup.
  - by eapply run_rowCompleted.
  - intros rl room playerId rowIndex Hroom Hkey
      [[rl' c] [[= -> Hpair] Hc]]%list_elem_of_fmap.
    eapply notified_not_collected in Hc; [|done..].
    apply Hc. unfold keyOf, pairOf in *. by simplify_eq/=.
  - intros rl c Hc. by eapply collectedLog_notified.
Qed.

(** C4 on the example game and what follows it: Sam's first row is
    announced once, although win checks run again on the same card and
    numbers. *)
Lemma notified_rows_once_witness :
  let es := demo_game ++ after_game in
  is_Some (run demo_cfg (start_state []) es)
  ∧ NoDup (logPairs (collectedLog demo_cfg (start_state []) es))
  ∧ rowCompletedOf (emitted_by demo_cfg es)
    = [game_rowCompleted "Sam" 1 [5; 12; 23; 41; 67]].
Proof.
  intros es.
  assert (∃ out, run demo_cfg (start_state []) es
                 = Some (state_after demo_cfg es, out)
                 ∧ emitted_by demo_cfg es = out) as (out & Hrun & Hout).
  { vm_compute. eexists. split; reflexivity. }
  assert (map (λ p : nat * Completed, rowCompletedMsg p.2)
            (collectedLog demo_cfg (start_state []) es)
          = [game_rowCompleted "Sam" 1 [5; 12; 23; 41; 67]]) as Hlog.
  { vm_compute. reflexivity. }
  destruct (notified_rows_once demo_cfg (start_state []) es _ out Hrun)
    as (_ & Hnd & Hevents & _).
  split; [by rewrite Hrun|]. split; [exact Hnd|].
  rewrite Hout, Hevents. exact Hlog.
Defined.

(** ** room:join with the id of an existing profile *)

Lemma sendPlayersListToAdmin_no_joined s room sid m :
  (ToSocket sid, m) ∈ sendPlayersListToAdmin s room →
  ∃ entries, m = room_playersList entries.
Proof.
  unfold sendPlayersListToAdmin. repeat case_match; try by intros ?%elem_of_nil.
  intros [= _ ->]%list_elem_of_singleton. eauto.
Qed.

(** C5 as stated fails: Sam rejoins under the name "Bob" with the id of the
    profile that holds the name "Sam", and the answer carries "Bob". *)
Lemma rejoin_renames_profile : ¬ rejoin_returns_stored demo_cfg.
Proof.
  intros Hclaim.
  set (s := state_after demo_cfg sam_drops).
  assert (Reachable demo_cfg s) as Hreach.
  { apply state_after_Reachable. vm_compute. eexists. reflexivity. }
  assert (∃ rl room pd,
            rooms_get s "AB12CD" = Some (rl, room)
            ∧ map_get sam_id (playerData room) = Some pd
            ∧ pd_username pd = "Sam")
    as (rl & room & pd & Hget & Hpd & Hname).
  { vm_compute. do 3 eexists. repeat split; reflexivity. }
  assert (∃ count adm drawn card,
            (ToSocket "Q", room_joined "AB12CD" count adm drawn sam_id "Bob" card)
            ∈ (on_room_join s "Q" "AB12CD" "Bob" (Some sam_id) 20000 "x").2)
    as (count & adm & drawn & card & Hin).
  { vm_compute. do 4 eexists. apply list_elem_of_here. }
  clearbody s.
  assert (sam_id ≠ "") as Hne by discriminate.
  destruct (Hclaim s "Q" "AB12CD" "Bob" sam_id 20000 "x" rl room pd
              count adm drawn sam_id "Bob" card Hreach Hget Hne Hpd Hin)
    as [_ Hbob].
  rewrite Hname in Hbob. discriminate.
Qed.

(** C5, amended: a join that presents the id of an existing profile of the
    room never adds a profile; when it is answered with room:joined, the
    answer carries that id, the card stored on the profile and the trimmed
    name given in the request, which replaces the name stored on the
    profile; it is so answered whenever that name is not empty and not taken
    by another profile. *)
Theorem rejoin_reuses_profile {js : Engine}
    s sid roomId playerName pid now rnd36 rl room pd :
  rooms_get s roomId = Some (rl, room) →
  pid ≠ "" → map_get pid (playerData room) = Some pd →
  let result := on_room_join s sid roomId playerName (Some pid) now rnd36 in
  ∃ room',
    rooms_get result.1 roomId = Some (rl, room')
    ∧ (playerData room').*1 = (playerData room).*1
    ∧ (∀ count adm drawn pid' name card,
         (ToSocket sid, room_joined roomId count adm drawn pid' name card)
           ∈ result.2 →
         pid' = pid ∧ card = pd_bingoCard pd ∧ name = trim playerName
         ∧ drawn = drawnNumbers room
         ∧ map_get pid (playerData room')
           = Some (mkPlayerData (trim playerName) (pd_bingoCard pd) (Some sid)))
    ∧ (trim playerName ≠ "" →
       toLowerCase (trim playerName) ∉ existingNames room (Some pid) →
       ∃ count adm,
         (ToSocket sid,
          room_joined roomId count adm (drawnNumbers room) pid (trim playerName)
            (pd_bingoCard pd)) ∈ result.2).
Proof.
  intros Hget Hne Hpd result.
  destruct (proj1 (rooms_get_Some _ _ _ _) Hget) as [Hreg Hobj].
  assert (result = on_room_join s sid roomId playerName (Some pid) now rnd36)
    as Hres by done.
  clearbody result. unfold on_room_join in Hres. rewrite Hget in Hres.
  destruct (bool_decide (playerName = "")
            || bool_decide (String.length (trim playerName) = 0%nat)) eqn:Hvalid.
  { exists room. subst result. simpl. split_and!; [done..| |].
    - intros ?????? [=]%list_elem_of_singleton.
    - intros Hname. apply orb_true_iff in Hvalid as [->%bool_decide_eq_true|Hlen].
      + done.
      + apply bool_decide_eq_true in Hlen. by destruct (trim playerName). }
  cbv zeta in Hres.
  destruct (set_has (toLowerCase (trim playerName)) (existingNames room (Some pid)))
    eqn:Htaken.
  { exists room. subst result. simpl. split_and!; [done..| |].
    - intros ?????? [=]%list_elem_of_singleton.
    - intros _ Hfree. by apply bool_decide_eq_true in Htaken. }
  assert (truthy (Some pid) = true) as Htruthy by (by apply bool_decide_eq_true).
  assert (map_has pid (playerData room) = true) as Hhas.
  { apply bool_decide_eq_true. by rewrite Hpd. }
  rewrite Htruthy, Hhas in Hres. cbn [negb orb] in Hres. rewrite Hpd in Hres.
  set (pd' := mkPlayerData (trim playerName) (pd_bingoCard pd) (Some sid)) in *.
  set (room' := room_with_players (set_add sid (players room))
                  (room_with_playerData (map_set pid pd' (playerData room)) room))
    in *.
  exists room'.
  assert (rooms_get result.1 roomId = Some (rl, room')
          ∧ ∃ count adm rest,
              result.2 = (ToSocket sid,
                          room_joined roomId count adm (drawnNumbers room) pid
                            (trim playerName) (pd_bingoCard pd))
                         :: (ToRoom (Some roomId),
                             player_joined count pid (trim playerName))
                         :: sendPlayersListToAdmin rest room')
    as (Hget1 & count0 & adm0 & rest & Hout).
  { subst result.
    destruct (users_get _ sid) as [[ul user]|]; simpl.
    all: split; [|by do 3 eexists].
    all: apply rooms_get_Some; split; [done|]; simpl.
    all: apply list_lookup_insert_eq; by eapply lookup_lt_Some. }
  split_and!.
  - done.
  - simpl. apply map_set_keys. by rewrite Hpd.
  - intros count adm drawn pid' name card. rewrite Hout.
    intros [Heq|[Heq|Hin]%elem_of_cons]%elem_of_cons.
    + simplify_eq. split_and!; try done. simpl. apply map_get_set.
    + discriminate.
    + apply sendPlayersListToAdmin_no_joined in Hin as [entries ?]. discriminate.
  - intros _ _. exists count0, adm0. rewrite Hout. apply list_elem_of_here.
Qed.

(** C5 on Sam's return on connection "Q" under the name "Bob" followed by
    a no-break space: still one profile, the answer carries Sam's id and
    card and the name "Bob". *)
Lemma rejoin_reuses_profile_witness :
  let s := state_after demo_cfg sam_drops in
  let result := on_room_join s "Q" "AB12CD" bob_nbsp (Some sam_id) 20000 "x" in
  (∃ rl room pd, rooms_get s "AB12CD" = Some (rl, room)
                 ∧ map_get sam_id (playerData room) = Some pd
                 ∧ pd_bingoCard pd = sam_card ∧ length (playerData room) = 1%nat)
  ∧ ∃ rl room',
      rooms_get result.1 "AB12CD" = Some (rl, room')
      ∧ length (playerData room') = 1%nat
      ∧ ∃ count adm,
          (ToSocket "Q", room_joined "AB12CD" count adm [] sam_id "Bob" sam_card)
            ∈ result.2.
Proof.
  intros s result.
  assert (∃ rl room pd, rooms_get s "AB12CD" = Some (rl, room)
                        ∧ map_get sam_id (playerData room) = Some pd
                        ∧ pd_bingoCard pd = sam_card
                        ∧ length (playerData room) = 1%nat
                        ∧ drawnNumbers room = []
                        ∧ toLowerCase (trim bob_nbsp)
                            ∉ existingNames room (Some sam_id))
    as (rl & room & pd & Hget & Hpd & Hcard & Hlen & Hdrawn & Hfree).
  { do 3 eexists. split; [vm_compute; reflexivity|].
    split; [vm_compute; reflexivity|]. split; [vm_compute; reflexivity|].
    split; [vm_compute; reflexivity|]. split; [vm_compute; reflexivity|].
    apply (bool_decide_eq_false_1 (_ ∈ _)). vm_compute. reflexivity. }
  assert (trim bob_nbsp = "Bob") as Htrim by (vm_compute; reflexivity).
  assert (sam_id ≠ "") as Hne by discriminate.
  subst result. clearbody s.
  split; [by exists rl, room, pd|].
  destruct (rejoin_reuses_profile s "Q" "AB12CD" bob_nbsp sam_id 20000 "x" rl room pd
              Hget Hne Hpd) as (room' & Hget' & Hkeys & _ & Haccept).
  exists rl, room'. split; [exact Hget'|]. split.
  - rewrite <-(length_fmap fst), Hkeys, length_fmap. exact Hlen.
  - rewrite Htrim, Hcard, Hdrawn in Haccept. apply Haccept; [discriminate|].
    rewrite <-Htrim. exact Hfree.
Defined.

(** C6 as stated fails: a second admin connection that joined the room as
    a player draws a number, although the room's admin slot holds another
    connection. *)
Lemma draw_by_unbound_admin : ¬ draw_needs_bound_admin demo_cfg.
Proof.
  intros Hclaim.
  set (s := state_after demo_cfg second_admin_joins).
  assert (Reachable demo_cfg s) as Hreach.
  { apply state_after_Reachable. vm_compute. eexists. reflexivity. }
  assert (∃ ul user, users_get s "B" = Some (ul, user)
                     ∧ u_roomId user = Some "AB12CD") as (ul & user & Hu & Hcode).
  { vm_compute. do 2 eexists. split; reflexivity. }
  assert (∃ rl room, rooms_get s "AB12CD" = Some (rl, room)
                     ∧ adminSocketId room = Some "A") as (rl & room & Hget & Hslot).
  { vm_compute. do 2 eexists. split; reflexivity. }
  assert (∃ s' number startTime drawn,
            on_game_drawNumber s "B" [4]%N 3000
            = Some (s', [(ToRoom (Some "AB12CD"),
                          game_numberDrawn number startTime drawn)]))
    as (s' & number & startTime & drawn & Hdraw).
  { vm_compute. do 4 eexists. reflexivity. }
  clearbody s.
  assert (¬ bound_admin s "B") as Hnot.
  { intros (ul' & user' & rl' & room' & Hu' & Hget' & Hslot').
    rewrite Hu in Hu'. injection Hu' as <- <-.
    rewrite Hcode in Hget'. simpl in Hget'. rewrite Hget in Hget'.
    injection Hget' as <- <-. rewrite Hslot in Hslot'. discriminate. }
  specialize (Hclaim s "B" [4]%N 3000 Hreach Hnot).
  rewrite Hdraw in Hclaim. discriminate.
Qed.

(** C6, amended: a draw request is answered with the NotAuthorized error
    alone, and changes nothing, exactly when the requesting connection has
    no user object, or one that is not an admin, or one without a room id;
    a request of an admin with a room id is never answered with
    NotAuthorized, and it is applied to the room its room id names: if that
    room is live and not over, has fewer than 90 numbers drawn and the
    random source yields an undrawn number, the number is appended to the
    room's drawn numbers and broadcast to the room.  The admin slot of the
    room is not consulted: no hypothesis mentions [adminSocketId]. *)
Theorem draw_authorization s sid rnd now :
  (¬ draw_authorized s sid →
   on_game_drawNumber s sid rnd now = Some (s, [(ToSocket sid, NotAuthorized_draw)]))
  ∧ (draw_authorized s sid →
     ∀ s' out, on_game_drawNumber s sid rnd now = Some (s', out) →
       (ToSocket sid, NotAuthorized_draw) ∉ out)
  ∧ (∀ ul user code rl room number,
       users_get s sid = Some (ul, user) → isAdmin user = true →
       u_roomId user = Some code → code ≠ "" →
       rooms_get s code = Some (rl, room) → gameOver room = false →
       (length (drawnNumbers room) < 90)%nat →
       pickNumber (drawnNumbers room) rnd = Some number →
       ∃ s',
         on_game_drawNumber s sid rnd now
         = Some (s', [(ToRoom (Some code),
                       game_numberDrawn number (now + 500)
                         (drawnNumbers room ++ [number]))])
         ∧ rooms_get s' code
           = Some (rl, room_with_drawnNumbers (drawnNumbers room ++ [number]) room)
         ∧ timers s' = timers s ++ [(rl, ul)]).
Proof.
  split; [apply draw_unauthorized|]. split.
  - intros (ul & user & Hu & Hadm & Hroom) s' out. unfold on_game_drawNumber.
    rewrite Hu, Hadm, Hroom. simpl. intros Hdraw.
    repeat (case_match; simplify_eq/=);
      intros Hin%list_elem_of_singleton; discriminate.
  - intros ul user code rl room number Hu Hadm Hcode Hne Hget Hover Hlen Hpick.
    eexists. split; [by eapply draw_succeeds|]. split; [|done].
    apply rooms_get_Some in Hget as [Hreg Hobj]. apply rooms_get_Some.
    split; [done|]. simpl. apply list_lookup_insert_eq. by eapply lookup_lt_Some.
Qed.

(** C6 with a second admin connection "B" in the room of "A": a request
    of the unknown connection "P" is refused with NotAuthorized; the
    request of "B" is not, and it appends 5 to the drawn numbers of the
    room, whose admin slot holds "A". *)
Lemma draw_authorization_witness :
  let s := state_after demo_cfg second_admin_joins in
  (¬ draw_authorized s "P"
   ∧ on_game_drawNumber s "P" [4]%N 3000
     = Some (s, [(ToSocket "P", NotAuthorized_draw)]))
  ∧ (draw_authorized s "B"
     ∧ ∃ s' out, on_game_drawNumber s "B" [4]%N 3000 = Some (s', out)
                 ∧ (ToSocket "B", NotAuthorized_draw) ∉ out)
  ∧ ∃ room s',
      rooms_get s "AB12CD" = Some (0%nat, room)
      ∧ adminSocketId room = Some "A"
      ∧ on_game_drawNumber s "B" [4]%N 3000
        = Some (s', [(ToRoom (Some "AB12CD"),
                      game_numberDrawn 5 (3000 + 500) (drawnNumbers room ++ [5]))])
      ∧ rooms_get s' "AB12CD"
        = Some (0%nat, room_with_drawnNumbers (drawnNumbers room ++ [5]) room).
Proof.
  intros s.
  assert (users_get s "P" = None) as HP by (vm_compute; reflexivity).
  assert (draw_authorized s "B") as HB.
  { vm_compute. do 2 eexists. repeat split; reflexivity. }
  assert (∃ s' out, on_game_drawNumber s "B" [4]%N 3000 = Some (s', out))
    as (s' & out & Hdraw).
  { vm_compute. do 2 eexists. reflexivity. }
  assert (∃ ul user room,
            users_get s "B" = Some (ul, user) ∧ isAdmin user = true
            ∧ u_roomId user = Some "AB12CD"
            ∧ rooms_get s "AB12CD" = Some (0%nat, room)
            ∧ adminSocketId room = Some "A" ∧ gameOver room = false
            ∧ drawnNumbers room = [])
    as (ul & user & room & Hu & Hadm & Hcode & Hget & Hslot & Hover & Hdrawn).
  { do 3 eexists. split_and!; (vm_compute; reflexivity). }
  clearbody s.
  assert (¬ draw_authorized s "P") as HnP.
  { intros (ul' & user' & Hu' & _). rewrite HP in Hu'. discriminate. }
  split; [|split].
  - split; [exact HnP|].
    exact (proj1 (draw_authorization s "P" [4]%N 3000) HnP).
  - split; [exact HB|]. exists s', out. split; [exact Hdraw|].
    exact (proj1 (proj2 (draw_authorization s "B" [4]%N 3000)) HB s' out Hdraw).
  - destruct (proj2 (proj2 (draw_authorization s "B" [4]%N 3000))
                ul user "AB12CD" 0%nat room 5 Hu Hadm Hcode)
      as (s2 & Hres & Hget2 & _).
    + discriminate.
    + exact Hget.
    + exact Hover.
    + rewrite Hdrawn. simpl. lia.
    + rewrite Hdrawn. reflexivity.
    + exists room, s2. split; [exact Hget|]. split; [exact Hslot|].
      split; [exact Hres|exact Hget2].
Defined.

(** ** room:close *)

(** What both closing branches do. *)
Lemma closeRoom_spec cfg s code room now fstat message :
  closeRoom cfg s code room now fstat message
  = (with_rooms (delete code (rooms s))
       (match winnerInfo room with
        | Some info =>
            if gameOver room then
              with_roomHistory
                (addRoomToHistory (MAX_HISTORY_SIZE cfg) fstat
                   (roomSummary room info now) (roomHistory s)) s
            else s
        | None => s
        end),
     [(ToRoom (Some code), room_closed message)]).
Proof. unfold closeRoom. by destruct (winnerInfo room), (gameOver room). Qed.

(** The admin whose connection created the room closes it. *)
Lemma on_room_close_creator cfg s sid code rl room ul user now fstat :
  rooms_get s code = Some (rl, room) →
  users_get s sid = Some (ul, user) → isAdmin user = true →
  adminId room = userId user →
  on_room_close cfg s sid code now fstat
  = closeRoom cfg s code room now fstat "Room has been closed".
Proof.
  intros Hget Hu Hadm Hid. unfold on_room_close.
  by rewrite Hget, Hu, Hadm, bool_decide_eq_true_2.
Qed.

(** Anyone closes a room whose game is over. *)
Lemma on_room_close_over cfg s sid code rl room now fstat :
  rooms_get s code = Some (rl, room) → gameOver room = true →
  ∃ message,
    on_room_close cfg s sid code now fstat
    = closeRoom cfg s code room now fstat message.
Proof.
  intros Hget Hover. unfold on_room_close. rewrite Hget, Hover.
  destruct (match users_get s sid with Some _ => _ | None => _ end); eauto.
Qed.

(** C7 at the failing input: the admin lost the connection that created
    room "AB12CD" and re-bound the room on connection "B"; the room is live,
    "B" holds its admin slot and the game is not over, yet room:close from
    "B" changes nothing and emits nothing. *)
Theorem close_by_rebound_admin_ignored :
  let s := state_after demo_cfg admin_reconnects in
  is_Some (run demo_cfg (start_state []) admin_reconnects)
  ∧ (∃ rl room, rooms_get s "AB12CD" = Some (rl, room)
                ∧ adminSocketId room = Some "B" ∧ adminId room = "A"
                ∧ gameOver room = false)
  ∧ (∃ ul user, users_get s "B" = Some (ul, user) ∧ isAdmin user = true)
  ∧ on_room_close demo_cfg s "B" "AB12CD" 5000 None = (s, []).
Proof.
  intros s. split_and!.
  - vm_compute. eexists. reflexivity.
  - vm_compute. do 2 eexists. repeat split; reflexivity.
  - vm_compute. do 2 eexists. repeat split; reflexivity.
  - vm_compute. reflexivity.
Qed.

(** C10: in every state the server reaches, a room:close for a live room
    whose game is not over, sent by a connection whose id is not the
    [adminId] the room recorded at its creation, leaves the whole state
    (registry, room, history) as it is and emits nothing. *)
Theorem close_by_other_is_silent {js : Engine}
    cfg s sid code rl room now fstat :
  Reachable cfg s →
  rooms_get s code = Some (rl, room) → gameOver room = false →
  adminId room ≠ sid →
  on_room_close cfg s sid code now fstat = (s, []).
Proof.
  intros Hreach%Reachable_users_ok Hget Hover Hid. unfold on_room_close.
  rewrite Hget, Hover.
  destruct (users_get s sid) as [[ul user]|] eqn:Hu; [|done].
  apply users_get_Some in Hu as [Hsid Hobj].
  destruct (Hreach _ _ Hsid) as (user' & Hobj' & Huid). simplify_eq.
  rewrite bool_decide_eq_false_2 by done. by rewrite andb_false_r.
Qed.

(** C10 with a second admin connection "B" in the room that "A" created:
    its room:close is ignored while the game runs. *)
Lemma close_by_other_is_silent_witness :
  let s := state_after demo_cfg second_admin_joins in
  Reachable demo_cfg s
  ∧ on_room_close demo_cfg s "B" "AB12CD" 5000 None = (s, []).
Proof.
  intros s.
  assert (Reachable demo_cfg s) as Hreach.
  { apply state_after_Reachable. vm_compute. eexists. reflexivity. }
  assert (∃ rl room, rooms_get s "AB12CD" = Some (rl, room)
                     ∧ gameOver room = false ∧ adminId room = "A")
    as (rl & room & Hget & Hover & Hid).
  { vm_compute. do 2 eexists. repeat split; reflexivity. }
  clearbody s. split; [exact Hreach|].
  apply (close_by_other_is_silent demo_cfg s "B" "AB12CD" rl room 5000 None
           Hreach Hget Hover).
  rewrite Hid. discriminate.
Defined.

(** ** room:create and the admin's disconnect *)

Lemma generateChars_length n rnd code rest :
  generateChars n rnd = Some (code, rest) → String.length code = n.
Proof.
  revert rnd code rest. induction n as [|n IH]; intros rnd code rest; simpl.
  - by intros [= <- <-].
  - destruct rnd as [|r rnd]; [done|].
    destruct (generateChars n rnd) as [[code' rest']|] eqn:Hgen; [|done].
    intros [= <- <-]. simpl. f_equal. by eapply IH.
Qed.

Lemma freshRoomCode_Some fuel has rnd code :
  freshRoomCode fuel has rnd = Some code →
  String.length code = 6%nat ∧ has code = false.
Proof.
  revert rnd. induction fuel as [|fuel IH]; intros rnd; simpl; [done|].
  destruct (generateRoomCode rnd) as [[code' rest]|] eqn:Hgen; [|done].
  destruct (has code') eqn:Hhas; [by apply IH|].
  intros [= <-]. split; [|done]. by eapply generateChars_length.
Qed.

Lemma freshRoomCode_first fuel has rnd code rest :
  generateRoomCode rnd = Some (code, rest) → has code = false →
  freshRoomCode (S fuel) has rnd = Some code.
Proof. intros Hgen Hhas. simpl. by rewrite Hgen, Hhas. Qed.

Lemma generateChars_eq n rnd :
  generateChars n rnd
  = if decide (n ≤ length rnd)%nat
    then Some (String.string_of_list_ascii (map randomChar (take n rnd)), drop n rnd)
    else None.
Proof.
  revert rnd. induction n as [|n IH]; intros rnd; cbn [generateChars].
  - rewrite decide_True by lia. by rewrite drop_0.
  - destruct rnd as [|r rnd]; [by rewrite decide_False by (simpl; lia)|].
    rewrite IH. cbn [length take drop map String.string_of_list_ascii].
    repeat case_decide; try lia; done.
Qed.









(** ** The history archive *)

Lemma insert_by_closedAt_perm x l : insert_by_closedAt x l ≡ₚ x :: l.
Proof.
  induction l as [|y l IH]; simpl; [done|].
  case_bool_decide; [done|]. rewrite IH. apply Permutation_swap.
Qed.

Lemma sort_by_closedAt_perm l : sort_by_closedAt l ≡ₚ l.
Proof.
  induction l as [|x l IH]; simpl; [done|].
  by rewrite insert_by_closedAt_perm, IH.
Qed.

Lemma insert_by_closedAt_sorted x l :
  StronglySorted (λ a b, h_closedAt a ≤ h_closedAt b) l →
  StronglySorted (λ a b, h_closedAt a ≤ h_closedAt b) (insert_by_closedAt x l).
Proof.
  induction 1 as [|y l Hsorted IH Hall]; simpl.
  - repeat constructor.
  - case_bool_decide as Hle.
    + constructor; [by constructor|]. constructor; [done|].
      eapply Forall_impl; [exact Hall|]. simpl. intros z Hz. lia.
    + constructor; [done|]. rewrite insert_by_closedAt_perm.
      constructor; [lia|done].
Qed.

Lemma sort_by_closedAt_sorted l :
  StronglySorted (λ a b, h_closedAt a ≤ h_closedAt b) (sort_by_closedAt l).
Proof.
  induction l as [|x l IH]; simpl; [constructor|].
  by apply insert_by_closedAt_sorted.
Qed.

(** What [cleanupOldRooms] evicts: the records kept are [maxSize] many (or
    all, if there are no more), and none of them was closed before an
    evicted one. *)
Lemma cleanupOldRooms_spec maxSize hist :
  0 ≤ maxSize →
  ∃ evicted,
    hist ≡ₚ evicted ++ cleanupOldRooms maxSize hist
    ∧ length (cleanupOldRooms maxSize hist) = (length hist `min` Z.to_nat maxSize)%nat
    ∧ ∀ x y, x ∈ evicted → y ∈ cleanupOldRooms maxSize hist →
        h_closedAt x ≤ h_closedAt y.
Proof.
  intros Hmax. unfold cleanupOldRooms. case_bool_decide as Hlen.
  - exists []. split_and!; [done|lia|]. by intros x y ?%elem_of_nil.
  - set (k := Z.to_nat (Z.of_nat (length hist) - maxSize)).
    exists (take k (sort_by_closedAt hist)). split_and!.
    + by rewrite take_drop, sort_by_closedAt_perm.
    + rewrite length_drop, sort_by_closedAt_perm. lia.
    + intros x y Hx Hy.
      pose proof (sort_by_closedAt_sorted hist) as Hsorted.
      rewrite <-(take_drop k (sort_by_closedAt hist)) in Hsorted.
      by eapply (StronglySorted_app_1_elem_of _ _ _ _ _ Hsorted).
Qed.

(** C9: the archive evicts oldest-closed first.  With [MAX_HISTORY_SIZE]
    2 and an empty archive, after three summaries closed at t1 < t2 < t3 are
    appended, the archive holds the second and the third, provided the
    history file is within its size cap when the third is appended (above
    the cap the archive is cut further, to 80% of the maximum).  In general
    a clean-up to [maxSize] records keeps [maxSize] records (all, if there
    are fewer), none of them closed before a record it evicts. *)
Theorem history_keeps_latest (r1 r2 r3 : Summary) (f1 f2 f3 : option Z) :
  h_closedAt r1 < h_closedAt r2 < h_closedAt r3 →
  (∀ size, f3 = Some size → size ≤ maxFileSize) →
  addRoomToHistory 2 f3 r3 (addRoomToHistory 2 f2 r2 (addRoomToHistory 2 f1 r1 []))
  = [r2; r3]
  ∧ ∀ maxSize hist, 0 ≤ maxSize →
      ∃ evicted,
        hist ≡ₚ evicted ++ cleanupOldRooms maxSize hist
        ∧ length (cleanupOldRooms maxSize hist)
          = (length hist `min` Z.to_nat maxSize)%nat
        ∧ ∀ x y, x ∈ evicted → y ∈ cleanupOldRooms maxSize hist →
            h_closedAt x ≤ h_closedAt y.
Proof.
  intros Horder Hcap. split; [|apply cleanupOldRooms_spec].
  assert (addRoomToHistory 2 f1 r1 [] = [r1]) as ->.
  { unfold addRoomToHistory, checkDiskSpaceAndCleanup, cleanupOldRooms. simpl.
    destruct f1 as [size|]; [|done]. by case_bool_decide. }
  assert (checkDiskSpaceAndCleanup 2 f3 [r2; r3] = [r2; r3]) as Hthird.
  { unfold checkDiskSpaceAndCleanup. simpl. destruct f3 as [size|]; [|done].
    rewrite bool_decide_eq_false_2; [done|]. specialize (Hcap size eq_refl). lia. }
  assert (addRoomToHistory 2 f2 r2 [r1] = [r1; r2]
          ∨ addRoomToHistory 2 f2 r2 [r1] = [r2]) as [-> | ->].
  { unfold addRoomToHistory, checkDiskSpaceAndCleanup, cleanupOldRooms. simpl.
    destruct f2 as [size|]; [|by left]. case_bool_decide; [|by left].
    right. simpl. rewrite bool_decide_eq_true_2 by lia. done. }
  - unfold addRoomToHistory, checkDiskSpaceAndCleanup, cleanupOldRooms. simpl.
    rewrite (bool_decide_eq_true_2 (h_closedAt r2 ≤ h_closedAt r3)) by lia.
    simpl. by rewrite (bool_decide_eq_true_2 (h_closedAt r1 ≤ h_closedAt r2)) by lia.
  - exact Hthird.
Qed.

(** C9 on three summaries closed at 1000 < 2000 < 3000. *)
Lemma history_keeps_latest_witness :
  addRoomToHistory 2 (Some 4096) (summary_at "ROOM03" 3000)
    (addRoomToHistory 2 (Some 2048) (summary_at "ROOM02" 2000)
       (addRoomToHistory 2 None (summary_at "ROOM01" 1000) []))
  = [summary_at "ROOM02" 2000; summary_at "ROOM03" 3000].
Proof.
  apply (history_keeps_latest (summary_at "ROOM01" 1000) (summary_at "ROOM02" 2000)
           (summary_at "ROOM03" 3000) None (Some 2048) (Some 4096)).
  - simpl. lia.
  - intros size [= <-]. unfold maxFileSize. lia.
Defined.

(** * Further properties of the handlers *)

(** ** Profiles and game fields under one event *)

Lemma map_set_keys_app {V} (k : string) (v : V) (m : list (string * V)) :
  (map_set k v m).*1 = if map_has k m then m.*1 else m.*1 ++ [k].
Proof.
  unfold map_has. induction m as [|[k' v'] m IH]; simpl; [done|].
  destruct (decide (k' = k)) as [->|Hne].
  - rewrite !bool_decide_eq_true_2 by eauto. done.
  - rewrite (bool_decide_eq_false_2 (k' = k)) by done.
    rewrite fmap_cons, IH. simpl. by case_bool_decide.
Qed.

Lemma map_set_keys_prefix {V} (k : string) (v : V) (m : list (string * V)) :
  m.*1 `prefix_of` (map_set k v m).*1.
Proof.
  rewrite map_set_keys_app. case_match; [done|]. by apply prefix_app_r.
Qed.

Lemma map_get_None_keys {V} (k : string) (m : list (string * V)) :
  map_get k m = None ↔ k ∉ m.*1.
Proof.
  induction m as [|[k' v'] m IH]; simpl.
  - split; [intros _ ?%elem_of_nil|]; done.
  - rewrite not_elem_of_cons. case_bool_decide; naive_solver.
Qed.

Lemma map_get_set_ne {V} (k k' : string) (v : V) (m : list (string * V)) :
  k ≠ k' → map_get k' (map_set k v m) = map_get k' m.
Proof.
  intros Hne. induction m as [|[k0 v0] m IH]; simpl.
  - by rewrite bool_decide_eq_false_2.
  - case_bool_decide as Hk0; simpl.
    + subst k0. by rewrite !bool_decide_eq_false_2.
    + case_bool_decide; [done|]. exact IH.
Qed.

Lemma prefix_of_refl_keys (r : Room) :
  (playerData r).*1 `prefix_of` (playerData r).*1.
Proof. done. Qed.

#[local] Hint Resolve map_set_keys_prefix prefix_of_refl_keys : bingo.

Section Changes.
Context {js : Engine} (cfg : Config).

Lemma step_roomObjs_change s e s' out :
  step cfg s e = Some (s', out) → roomObjs_change (roomObjs s) (roomObjs s').
Proof.
  intros Hstep.
  destruct e; simpl in Hstep; simplify_eq/=;
    repeat (case_match; simplify_eq/=); try (by apply rc_same);
    unfold on_admin_login, on_room_create, createNewRoom, reconnectAdmin,
      on_room_join, on_player_bingoCard, on_game_drawNumber, on_win_check,
      on_room_close, closeRoom, on_disconnect in *;
    repeat (case_match; simplify_eq/=); try roomObjs_change_cases.
  all: eapply rc_update; [done| |reflexivity]; apply rc_winCheck.
  all: match goal with H : winCheck _ = _ |- _ => by rewrite H end.
Qed.

End Changes.

(** ** The winner *)

Lemma foldl_storeWinnerInfo_Some room records info :
  winnerInfo room = Some info → foldl storeWinnerInfo room records = room.
Proof.
  intros Hinfo. induction records as [|c cs IH]; simpl; [done|].
  unfold storeWinnerInfo at 2. by rewrite Hinfo.
Qed.

Lemma winCheck_fields room :
  gameStarted (winCheck room).1 = gameStarted room
  ∧ playerData (winCheck room).1 = playerData room
  ∧ match (winCheck room).2 with
    | [] => winCheck room = (room, [])
    | c :: _ =>
        gameOver (winCheck room).1 = true
        ∧ winner (winCheck room).1
          = (if gameOver room then winner room else Some (c_playerName c))
        ∧ winnerInfo (winCheck room).1
          = Some (default
                    (mkWinnerInfo (c_playerId c) (c_playerName c) (c_rowNumber c)
                       (c_numbers c)
                       (match map_get (c_playerId c) (playerData room) with
                        | Some pd => pd_bingoCard pd
                        | None => None
                        end))
                    (winnerInfo room))
    end.
Proof.
  unfold winCheck. pose proof (checkPlayersForCompletedRows_ok room) as Hok.
  destruct (checkPlayersForCompletedRows room) as [keys cs].
  destruct Hok as (HK & _ & _). cbn [fst snd] in *.
  destruct cs as [|c cs].
  - simpl in *. rewrite app_nil_r in HK. subst keys. split_and!; [done..|].
    by destruct room.
  - cbv beta iota zeta. set (r0 := if negb _ then _ else _).
    assert (gameStarted r0 = gameStarted room ∧ playerData r0 = playerData room
            ∧ gameOver r0 = true
            ∧ winner r0 = (if gameOver room then winner room
                           else Some (c_playerName c))
            ∧ winnerInfo r0 = winnerInfo room) as (F1 & F2 & F3 & F4 & F5).
    { unfold r0. simpl. by destruct (gameOver room) eqn:Hgo. }
    cbn [fst snd].
    change (foldl storeWinnerInfo r0 (c :: cs))
      with (foldl storeWinnerInfo (storeWinnerInfo r0 c) cs).
    assert (∃ info, winnerInfo (storeWinnerInfo r0 c) = Some info) as [info Hinfo].
    { unfold storeWinnerInfo. destruct (winnerInfo r0) eqn:E; simpl; eauto. }
    rewrite (foldl_storeWinnerInfo_Some _ _ _ Hinfo).
    unfold storeWinnerInfo. rewrite <-F1, <-F2, <-F4, <-F5.
    destruct (winnerInfo r0) eqn:E; simpl; by rewrite ?E, ?F3.
Qed.

Lemma winner_ok_winCheck room : winner_ok room → winner_ok (winCheck room).1.
Proof.
  intros (Hstarted & Hover & Hwinner).
  destruct (winCheck_fields room) as (F1 & _ & F3).
  destruct (winCheck room).2 as [|c cs] eqn:Hcs.
  - by rewrite F3.
  - destruct F3 as (G1 & G2 & G3). split_and!; [congruence| |].
    + rewrite G1, G3. split; eauto.
    + rewrite G2, G3. destruct (winnerInfo room) as [info|] eqn:Hinfo; simpl.
      * rewrite (proj2 Hover) by eauto. by rewrite Hwinner.
      * destruct (gameOver room) eqn:Hgo; [|done].
        by destruct (proj1 Hover eq_refl).
Qed.

Lemma winner_ok_change r r' : room_change r r' → winner_ok r → winner_ok r'.
Proof.
  intros [[] _| ->]; [|apply winner_ok_winCheck].
  unfold winner_ok. intros (? & ? & ?). split_and!; congruence.
Qed.

Lemma winnerInfo_change r r' info :
  room_change r r' → winnerInfo r = Some info → gameOver r = true →
  winnerInfo r' = Some info ∧ gameOver r' = true ∧ winner r' = winner r.
Proof.
  intros [[] _| ->] Hinfo Hover; [split_and!; congruence|].
  destruct (winCheck_fields r) as (_ & _ & F3).
  destruct (winCheck r).2 as [|c cs]; [by rewrite F3|].
  destruct F3 as (G1 & G2 & G3). by rewrite G1, G2, G3, Hinfo, Hover.
Qed.

Lemma roomObjs_change_lookup h h' rl r :
  roomObjs_change h h' → h !! rl = Some r →
  ∃ r', h' !! rl = Some r' ∧ (r' = r ∨ room_change r r').
Proof.
  intros [->|rl0 r0 r0' Hr0 Hch ->|code sid now ->] Hr.
  - eauto.
  - destruct (decide (rl0 = rl)) as [->|Hne].
    + simplify_eq. exists r0'. split; [|by right].
      apply list_lookup_insert_eq. by eapply lookup_lt_Some.
    + exists r. rewrite list_lookup_insert_ne by done. eauto.
  - exists r. rewrite lookup_app_l by (by eapply lookup_lt_Some). eauto.
Qed.

Section Winner.
Context {js : Engine} (cfg : Config).

Lemma run_winner_ok es s s' out :
  run cfg s es = Some (s', out) →
  Forall winner_ok (roomObjs s) → Forall winner_ok (roomObjs s').
Proof.
  revert s out. induction es as [|e es IH]; intros s out.
  - by intros [= <- <-].
  - rewrite run_cons. intros (s1 & o1 & o2 & Hstep & Hrun & ->) Hall.
    eapply IH; [done|]. apply step_roomObjs_change in Hstep.
    destruct Hstep as [->|rl r r' Hr Hch ->|code sid now ->]; [done| |].
    + apply Forall_insert; [done|]. eapply winner_ok_change; [done|].
      by eapply Forall_lookup_1 in Hall.
    + apply Forall_app. split; [done|]. apply Forall_singleton.
      split_and!; simpl; [done| |done]. split; [done|by intros []].
Qed.

(** In every state the server reaches, a room's game is over exactly when
    the room has winner details, its [winner] is the player name in those
    details (and is unset while the game runs), and its [gameStarted] flag is
    still false: no handler ever sets it. *)
Theorem winner_consistent s rl room :
  Reachable cfg s → roomObjs s !! rl = Some room →
  gameStarted room = false
  ∧ (gameOver room = true ↔ is_Some (winnerInfo room))
  ∧ winner room = wi_playerName <$> winnerInfo room.
Proof.
  intros (loaded & es & out & Hrun) Hroom.
  assert (Forall winner_ok (roomObjs s)) as Hall.
  { eapply run_winner_ok; [done|]. constructor. }
  by eapply Forall_lookup_1 in Hall.
Qed.

(** The first winner stays: once a room is over with winner details, no
    later event changes its winner details or its winner, whatever rows
    complete afterwards. *)
Theorem winner_is_final es s s' out rl room info :
  run cfg s es = Some (s', out) →
  roomObjs s !! rl = Some room →
  winnerInfo room = Some info → gameOver room = true →
  ∃ room', roomObjs s' !! rl = Some room'
           ∧ winnerInfo room' = Some info ∧ winner room' = winner room.
Proof.
  revert s out room. induction es as [|e es IH]; intros s out room.
  - intros [= <- <-] Hroom Hinfo Hover. by exists room.
  - rewrite run_cons. intros (s1 & o1 & o2 & Hstep & Hrun & ->) Hroom Hinfo Hover.
    apply step_roomObjs_change in Hstep.
    destruct (roomObjs_change_lookup _ _ _ _ Hstep Hroom) as (r1 & Hr1 & [->|Hch]).
    + by eapply IH.
    + destruct (winnerInfo_change _ _ _ Hch Hinfo Hover) as (Hinfo1 & Hover1 & Hw).
      destruct (IH _ _ _ Hrun Hr1 Hinfo1 Hover1) as (room' & Hroom' & ? & ?).
      exists room'. split_and!; [done..|congruence].
Qed.

End Winner.

(** ** What a pass of the win detector collects *)

Lemma scanRows_sound (P : Completed → Prop) playerId pd drawn card :
  (∀ j row nums,
     card !! j = Some row → checkRowComplete row drawn = Some nums →
     P (mkCompleted playerId (pd_username pd) (j + 1) nums)) →
  ∀ rows pre acc,
    card = pre ++ rows → (∀ c, c ∈ acc.2 → P c) →
    ∀ c, c ∈ (scanRows playerId pd drawn (length pre) rows acc).2 → P c.
Proof.
  intros Hnew rows. induction rows as [|row rows IH]; intros pre acc Hcard Hacc.
  - done.
  - simpl. specialize (IH (pre ++ [row])).
    rewrite length_app, Nat.add_1_r in IH. apply IH.
    + by rewrite <-(assoc_L (++)).
    + destruct (checkRowComplete row drawn) as [nums|] eqn:Hrow; [|done].
      destruct (set_has _ _); [done|]. simpl.
      intros c [Hc| ->%list_elem_of_singleton]%elem_of_app; [by apply Hacc|].
      apply (Hnew (length pre) row); [|done]. subst card.
      by rewrite lookup_app_r, Nat.sub_diag.
Qed.

Lemma scanRows_keys_mono playerId pd drawn rows rowIndex acc :
  acc.1 ⊆ (scanRows playerId pd drawn rowIndex rows acc).1.
Proof.
  revert rowIndex acc. induction rows as [|row rows IH]; intros i acc; [done|].
  simpl. etrans; [|apply IH].
  destruct (checkRowComplete row drawn); [|done].
  unfold set_has, set_add. repeat case_bool_decide; simpl; set_solver.
Qed.

Lemma scanRows_complete playerId pd drawn rows rowIndex acc j row :
  rows !! j = Some row → is_Some (checkRowComplete row drawn) →
  rowKey playerId (rowIndex + j) ∈ (scanRows playerId pd drawn rowIndex rows acc).1.
Proof.
  revert rowIndex acc j.
  induction rows as [|row0 rows IH]; intros i acc j Hj [nums Hrow]; [done|].
  destruct j as [|j]; simpl in *.
  - simplify_eq. rewrite Hrow, Nat.add_0_r. apply scanRows_keys_mono.
    unfold set_has, set_add. repeat case_bool_decide; simpl; set_solver.
  - replace (i + S j)%nat with (S i + j)%nat by lia. apply IH; eauto.
Qed.

Lemma scanRows_nothing playerId pd drawn rows rowIndex acc :
  (∀ j row, rows !! j = Some row → is_Some (checkRowComplete row drawn) →
     rowKey playerId (rowIndex + j) ∈ acc.1) →
  scanRows playerId pd drawn rowIndex rows acc = acc.
Proof.
  revert rowIndex. induction rows as [|row rows IH]; intros i Hall; [done|].
  simpl. assert (match checkRowComplete row drawn with
                 | Some nums =>
                     if set_has (rowKey playerId i) acc.1 then acc
                     else (set_add (rowKey playerId i) acc.1,
                           acc.2 ++ [mkCompleted playerId (pd_username pd)
                                       (i + 1) nums])
                 | None => acc
                 end = acc) as ->.
  { destruct (checkRowComplete row drawn) as [nums|] eqn:Hrow; [|done].
    unfold set_has. rewrite bool_decide_eq_true_2; [done|].
    specialize (Hall 0%nat row eq_refl). rewrite Nat.add_0_r in Hall.
    apply Hall. by rewrite Hrow. }
  apply IH. intros j row' Hj Hrow'.
  replace (S i + j)%nat with (i + S j)%nat by lia. by apply (Hall (S j) row').
Qed.

Lemma scanPlayer_keys_mono drawn acc entry : acc.1 ⊆ (scanPlayer drawn acc entry).1.
Proof.
  unfold scanPlayer. destruct (pd_bingoCard entry.2); [|done].
  case_bool_decide; [done|]. apply scanRows_keys_mono.
Qed.

Lemma foldl_scanPlayer_keys_mono drawn entries acc :
  acc.1 ⊆ (foldl (scanPlayer drawn) acc entries).1.
Proof.
  revert acc. induction entries as [|entry entries IH]; intros acc; [done|].
  simpl. etrans; [apply scanPlayer_keys_mono|apply IH].
Qed.

(** Every record a pass of the win detector collects is for a row of a
    profile's card that [checkRowComplete] accepts against the room's drawn
    numbers; the record carries the profile's name, the 1-based row index
    and the numbers of that row, and the row was not notified before. *)
Theorem collected_rows_are_complete room c :
  c ∈ (checkPlayersForCompletedRows room).2 →
  ∃ pd rows row,
    (c_playerId c, pd) ∈ playerData room
    ∧ pd_bingoCard pd = Some rows
    ∧ (0 < c_rowNumber c)%nat
    ∧ rows !! pred (c_rowNumber c) = Some row
    ∧ checkRowComplete row (drawnNumbers room) = Some (c_numbers c)
    ∧ c_playerName c = pd_username pd
    ∧ rowKey (c_playerId c) (pred (c_rowNumber c)) ∉ completedRows room.
Proof.
  intros Hc.
  assert (∃ pd rows row,
            (c_playerId c, pd) ∈ playerData room
            ∧ pd_bingoCard pd = Some rows
            ∧ (0 < c_rowNumber c)%nat
            ∧ rows !! pred (c_rowNumber c) = Some row
            ∧ checkRowComplete row (drawnNumbers room) = Some (c_numbers c)
            ∧ c_playerName c = pd_username pd) as (pd & rows & row & Hrec).
  { revert c Hc. unfold checkPlayersForCompletedRows.
    assert (∀ entry, entry ∈ playerData room → entry ∈ playerData room) as Hsub
      by done.
    revert Hsub. generalize (playerData room) at 1 3. intros entries.
    assert (∀ c, c ∈ (completedRows room, @nil Completed).2 →
              ∃ pd rows row,
                (c_playerId c, pd) ∈ playerData room
                ∧ pd_bingoCard pd = Some rows
                ∧ (0 < c_rowNumber c)%nat
                ∧ rows !! pred (c_rowNumber c) = Some row
                ∧ checkRowComplete row (drawnNumbers room) = Some (c_numbers c)
                ∧ c_playerName c = pd_username pd) as Hacc.
    { by intros c ?%elem_of_nil. }
    revert Hacc. generalize (completedRows room, @nil Completed).
    induction entries as [|[pid pd] entries IH]; intros acc Hacc Hsub; [done|].
    simpl. apply IH; [|intros e He; apply Hsub; by right].
    unfold scanPlayer. simpl.
    destruct (pd_bingoCard pd) as [rows|] eqn:Hcard; [|done].
    case_bool_decide; [done|].
    apply (scanRows_sound _ pid pd (drawnNumbers room) rows) with (pre := []);
      [|done|done].
    intros j row nums Hj Hrow. exists pd, rows, row. simpl.
    rewrite Nat.add_1_r. simpl. split_and!; try done; [|lia].
    apply Hsub. by left. }
  exists pd, rows, row. destruct Hrec as (?&?&?&?&?&?). split_and!; try done.
  pose proof (checkPlayersForCompletedRows_ok room) as (_ & _ & Hfresh).
  by apply Hfresh.
Qed.

Lemma checkPlayersForCompletedRows_complete room playerId pd rows rowIndex row :
  (playerId, pd) ∈ playerData room → pd_bingoCard pd = Some rows →
  rows !! rowIndex = Some row →
  is_Some (checkRowComplete row (drawnNumbers room)) →
  rowKey playerId rowIndex ∈ (checkPlayersForCompletedRows room).1.
Proof.
  intros Hin Hcard Hrow Hcomplete. unfold checkPlayersForCompletedRows.
  revert Hin. generalize (completedRows room, @nil Completed).
  induction (playerData room) as [|entry entries IH]; intros acc Hin.
  - by apply elem_of_nil in Hin.
  - simpl. apply elem_of_cons in Hin as [<-|Hin]; [|by apply IH].
    apply foldl_scanPlayer_keys_mono. unfold scanPlayer. simpl. rewrite Hcard.
    rewrite bool_decide_eq_false_2 by (by destruct rows).
    by apply (scanRows_complete _ _ _ _ 0%nat _ _ row).
Qed.

Lemma checkPlayersForCompletedRows_nothing room :
  (∀ playerId pd rows rowIndex row,
     (playerId, pd) ∈ playerData room → pd_bingoCard pd = Some rows →
     rows !! rowIndex = Some row →
     is_Some (checkRowComplete row (drawnNumbers room)) →
     rowKey playerId rowIndex ∈ completedRows room) →
  checkPlayersForCompletedRows room = (completedRows room, []).
Proof.
  unfold checkPlayersForCompletedRows.
  induction (playerData room) as [|[pid pd] entries IH]; intros Hall; [done|].
  simpl. assert (scanPlayer (drawnNumbers room) (completedRows room, [])
                   (pid, pd) = (completedRows room, [])) as ->.
  { unfold scanPlayer. simpl. destruct (pd_bingoCard pd) as [rows|] eqn:Hcard;
      [|done].
    case_bool_decide; [done|]. apply scanRows_nothing. simpl.
    intros j row Hj Hrow. eapply Hall; [by left|done..]. }
  apply IH. intros ????? Hin. eapply Hall. by right.
Qed.

Lemma winCheck_scan room :
  (winCheck room).2 = (checkPlayersForCompletedRows room).2
  ∧ completedRows (winCheck room).1 = (checkPlayersForCompletedRows room).1
  ∧ drawnNumbers (winCheck room).1 = drawnNumbers room.
Proof.
  unfold winCheck. destruct (checkPlayersForCompletedRows room) as [keys cs].
  destruct cs as [|c cs]; [done|]. cbv beta iota zeta.
  set (r0 := if negb _ then _ else _).
  destruct (foldl_storeWinnerInfo r0 (c :: cs)) as (_&_&_&_&E5&E6&_).
  cbn [fst snd]. rewrite E5, E6. unfold r0. simpl.
  by destruct (gameOver room).
Qed.

(** After a pass of the win detector every row that [checkRowComplete]
    accepts is notified; if such a row was not notified before, the pass
    collects a record under its key and the game is over. *)
Theorem win_check_notifies_complete_rows room playerId pd rows rowIndex row :
  (playerId, pd) ∈ playerData room → pd_bingoCard pd = Some rows →
  rows !! rowIndex = Some row →
  is_Some (checkRowComplete row (drawnNumbers room)) →
  rowKey playerId rowIndex ∈ completedRows (winCheck room).1
  ∧ (rowKey playerId rowIndex ∉ completedRows room →
     gameOver (winCheck room).1 = true
     ∧ ∃ c, c ∈ (winCheck room).2 ∧ keyOf c = rowKey playerId rowIndex).
Proof.
  intros Hin Hcard Hrow Hcomplete.
  destruct (winCheck_scan room) as (Hcs & Hkeys & _).
  pose proof (checkPlayersForCompletedRows_complete _ _ _ _ _ _
                Hin Hcard Hrow Hcomplete) as Hkey.
  split; [by rewrite Hkeys|]. intros Hnew.
  destruct (checkPlayersForCompletedRows_ok room) as (HK & _ & _).
  rewrite HK, elem_of_app in Hkey. destruct Hkey as [?|Hkey]; [done|].
  apply list_elem_of_fmap in Hkey as (c & Hc & Hcin). rewrite <-Hcs in Hcin.
  split; [|by exists c].
  destruct (winCheck_fields room) as (_ & _ & Hfields).
  destruct (winCheck room).2 as [|c0 cs0]; [by apply elem_of_nil in Hcin|].
  by destruct Hfields as [? _].
Qed.

(** A pass that finds no row to announce (every accepted row is already
    notified, for instance because no row is complete) returns the room as it
    is and collects nothing; the timer that runs it only leaves the queue. *)
Theorem win_check_without_news room :
  (∀ playerId pd rows rowIndex row,
     (playerId, pd) ∈ playerData room → pd_bingoCard pd = Some rows →
     rows !! rowIndex = Some row →
     is_Some (checkRowComplete row (drawnNumbers room)) →
     rowKey playerId rowIndex ∈ completedRows room) →
  winCheck room = (room, [])
  ∧ ∀ s rl ul pending,
      timers s = (rl, ul) :: pending → roomObjs s !! rl = Some room →
      on_win_check s = (with_timers pending s, []).
Proof.
  intros Hall.
  assert (winCheck room = (room, [])) as Hnothing.
  { destruct (winCheck_scan room) as (Hcs & _).
    destruct (winCheck_fields room) as (_ & _ & Hfields).
    rewrite Hcs, (checkPlayersForCompletedRows_nothing _ Hall) in Hfields.
    exact Hfields. }
  split; [done|]. intros s rl ul pending Htimers Hroom.
  unfold on_win_check. rewrite Htimers. simpl. rewrite Hroom.
  destruct (userObjs s !! ul); [|done]. rewrite Hnothing.
  unfold set_roomObj. simpl. rewrite list_insert_id by done. by destruct s.
Qed.

(** A second pass right after a pass does nothing: it changes no field of
    the room and collects no record. *)
Theorem win_check_idempotent room :
  winCheck (winCheck room).1 = ((winCheck room).1, []).
Proof.
  destruct (winCheck_scan room) as (_ & Hkeys & Hdrawn).
  destruct (winCheck_fields room) as (_ & Hprofiles & _).
  destruct (winCheck_scan (winCheck room).1) as (Hcs & _).
  destruct (winCheck_fields (winCheck room).1) as (_ & _ & Hfields).
  rewrite Hcs, checkPlayersForCompletedRows_nothing in Hfields; [done|].
  intros playerId pd rows rowIndex row. rewrite Hprofiles, Hdrawn, Hkeys.
  apply checkPlayersForCompletedRows_complete.
Qed.

(** ** Room codes *)

Lemma String_get_elem n s c :
  String.get n s = Some c → c ∈ String.list_ascii_of_string s.
Proof.
  revert n. induction s as [|c' s IH]; intros n; simpl; [done|].
  destruct n as [|n]; [intros [= ->]; by left|]. intros Hn. right. by eapply IH.
Qed.

Lemma String_length_list s :
  String.length s = length (String.list_ascii_of_string s).
Proof. induction s as [|c s IH]; simpl; [done|]. by rewrite IH. Qed.

Lemma randomChar_elem r : randomChar r ∈ String.list_ascii_of_string chars.
Proof.
  unfold randomChar. destruct (String.get _ chars) as [c|] eqn:Hget.
  - exact (String_get_elem _ _ _ Hget).
  - by left.
Qed.

Lemma generateRoomCode_code_ok rnd code rest :
  generateRoomCode rnd = Some (code, rest) → code_ok code.
Proof.
  unfold generateRoomCode. rewrite generateChars_eq.
  case_decide as Hlen; [|done]. intros [= <- <-]. split.
  - rewrite String_length_list,
      String.list_ascii_of_string_of_list_ascii, length_map, length_take. lia.
  - intros c. rewrite String.list_ascii_of_string_of_list_ascii.
    intros (r & -> & _)%list_elem_of_fmap. apply randomChar_elem.
Qed.

(** [generateRoomCode()] reads exactly six samples of the random source: with
    fewer it does not return; otherwise the code has six characters, the
    k-th being the character of the alphabet the k-th sample selects, so
    every character is an upper-case letter or a digit. *)
Theorem generateRoomCode_spec rnd :
  ((length rnd < 6)%nat → generateRoomCode rnd = None)
  ∧ ((6 ≤ length rnd)%nat →
     ∃ code,
       generateRoomCode rnd = Some (code, drop 6 rnd)
       ∧ String.list_ascii_of_string code = map randomChar (take 6 rnd)
       ∧ code_ok code).
Proof.
  split; intros Hlen.
  - unfold generateRoomCode. rewrite generateChars_eq.
    by rewrite decide_False by lia.
  - assert (generateRoomCode rnd
            = Some (String.string_of_list_ascii (map randomChar (take 6 rnd)),
                    drop 6 rnd)) as Hgen.
    { unfold generateRoomCode. rewrite generateChars_eq.
      by rewrite decide_True by lia. }
    eexists. split; [exact Hgen|]. split.
    + by rewrite String.list_ascii_of_string_of_list_ascii.
    + by eapply generateRoomCode_code_ok.
Qed.

Lemma freshRoomCode_code_ok fuel has rnd code :
  freshRoomCode fuel has rnd = Some code → code_ok code.
Proof.
  revert rnd. induction fuel as [|fuel IH]; intros rnd; simpl; [done|].
  destruct (generateRoomCode rnd) as [[code' rest]|] eqn:Hgen; [|done].
  destruct (has code'); [by apply IH|]. intros [= <-].
  by eapply generateRoomCode_code_ok.
Qed.

(** ** The registry, the directory and the timers in reachable states *)

Section Wellformed.
Context {js : Engine} (cfg : Config).

#[local] Arguments freshRoomCode : simpl never.

(** What one event does to the registry: nothing, one code deleted, or one
    well-formed unused code bound to a new room object carrying it. *)
Lemma step_registry s e s' out :
  step cfg s e = Some (s', out) →
  rooms s' = rooms s
  ∨ (∃ code, rooms s' = delete code (rooms s))
  ∨ (∃ code room,
       code_ok code ∧ rooms s !! code = None
       ∧ rooms s' = <[code:=length (roomObjs s)]> (rooms s)
       ∧ roomObjs s' = roomObjs s ++ [room] ∧ roomId room = code).
Proof.
  intros Hstep.
  destruct e; simpl in Hstep; simplify_eq/=;
    repeat (case_match; simplify_eq/=); try (by left);
    unfold on_admin_login, on_room_create, createNewRoom, reconnectAdmin,
      on_room_join, on_player_bingoCard, on_game_drawNumber, on_win_check,
      on_room_close, closeRoom, on_disconnect in *;
    repeat (case_match; simplify_eq/=); try (by left);
    try (right; left; by eexists).
  all: right; right; do 2 eexists; split_and!; [|  |done..].
  all: match goal with
       | H : freshRoomCode _ _ _ = Some _ |- code_ok _ =>
           by eapply freshRoomCode_code_ok
       | H : freshRoomCode _ _ _ = Some _ |- _ =>
           apply freshRoomCode_Some in H as [_ H];
           apply bool_decide_eq_false in H; by apply eq_None_not_Some in H
       end.
Qed.

Lemma step_registry_ok s e s' out :
  step cfg s e = Some (s', out) → registry_ok s → registry_ok s'.
Proof.
  intros Hstep Hok. pose proof (step_roomObjs _ _ _ _ _ Hstep) as Hobjs.
  assert (∀ code rl, rooms s !! code = Some rl →
            code_ok code ∧ ∃ room, roomObjs s' !! rl = Some room
                                   ∧ roomId room = code) as Hold.
  { intros code rl Hcode. destruct (Hok _ _ Hcode) as (Hcok & room & Hroom & Hid).
    split; [done|].
    destruct (roomObjs_step_lookup _ _ _ _ Hobjs Hroom) as (room' & Hroom' & Hev).
    exists room'. split; [done|]. by rewrite (ev_roomId _ _ Hev). }
  destruct (step_registry _ _ _ _ Hstep)
    as [Hsame|[(code & Hdel)|(code & room & Hcok & Hfree & Hins & Happ & Hid)]].
  - intros code rl. rewrite Hsame. apply Hold.
  - intros code' rl. rewrite Hdel. intros [_ Hcode]%lookup_delete_Some. eauto.
  - intros code' rl. rewrite Hins, lookup_insert. case_decide as Hcode.
    + intros [= <-]. subst code'. split; [done|]. exists room.
      by rewrite Happ, lookup_app_r, Nat.sub_diag.
    + apply Hold.
Qed.

Lemma is_Some_lookup_insert {A} (l : list A) i j x :
  is_Some (l !! i) → is_Some (<[j:=x]> l !! i).
Proof. rewrite !lookup_lt_is_Some, length_insert. done. Qed.

Lemma is_Some_lookup_app {A} (l k : list A) i :
  is_Some (l !! i) → is_Some ((l ++ k) !! i).
Proof. rewrite !lookup_lt_is_Some, length_app. lia. Qed.

Lemma is_Some_lookup_new {A} (l : list A) x : is_Some ((l ++ [x]) !! length l).
Proof. rewrite lookup_lt_is_Some, length_app. simpl. lia. Qed.

Lemma set_add_elem_l `{EqDecision A} (x y : A) (l : list A) :
  y ∈ l → y ∈ set_add x l.
Proof. unfold set_add. case_bool_decide; set_solver. Qed.

Lemma set_delete_elem `{EqDecision A} (x y : A) (l : list A) :
  y ∈ set_delete x l ↔ y ∈ l ∧ y ≠ x.
Proof. unfold set_delete. rewrite list_elem_of_filter. tauto. Qed.

Lemma step_directory_ok s e s' out :
  step cfg s e = Some (s', out) → directory_ok s → directory_ok s'.
Proof.
  intros Hstep Hok.
  destruct e; simpl in Hstep; simplify_eq/=;
    repeat (case_match; simplify_eq/=); try done;
    unfold on_admin_login, on_room_create, createNewRoom, reconnectAdmin,
      on_room_join, on_player_bingoCard, on_game_drawNumber, on_win_check,
      on_room_close, closeRoom, on_disconnect in *;
    repeat (case_match; simplify_eq/=); try done.
  all: intros sid0 ul0; simpl;
       rewrite ?lookup_insert, ?lookup_delete; repeat case_decide;
       intros Hsid0; simplify_eq/=.
  all: try (destruct (Hok _ _ Hsid0) as [Hin Hobj]).
  all: split;
       [ first [ done
               | by apply set_add_elem_l
               | by apply set_delete_elem
               | by apply (bool_decide_eq_true_1 (_ ∈ _)) ]
       | repeat first [ done
                      | apply is_Some_lookup_new
                      | apply is_Some_lookup_insert
                      | apply is_Some_lookup_app ] ].
Qed.

Lemma step_lengths s e s' out :
  step cfg s e = Some (s', out) →
  (length (roomObjs s) ≤ length (roomObjs s'))%nat
  ∧ (length (userObjs s) ≤ length (userObjs s'))%nat.
Proof.
  intros Hstep.
  destruct e; simpl in Hstep; simplify_eq/=;
    repeat (case_match; simplify_eq/=); try done;
    unfold on_admin_login, on_room_create, createNewRoom, reconnectAdmin,
      on_room_join, on_player_bingoCard, on_game_drawNumber, on_win_check,
      on_room_close, closeRoom, on_disconnect in *;
    repeat (case_match; simplify_eq/=);
    rewrite ?length_insert, ?length_app, ?length_insert; simpl; lia.
Qed.

Lemma step_timers s e s' out :
  step cfg s e = Some (s', out) →
  timers s' = timers s
  ∨ (∃ t, timers s = t :: timers s')
  ∨ (∃ rl ul, timers s' = timers s ++ [(rl, ul)]
              ∧ is_Some (roomObjs s' !! rl) ∧ is_Some (userObjs s' !! ul)).
Proof.
  intros Hstep.
  destruct e; simpl in Hstep; simplify_eq/=;
    repeat (case_match; simplify_eq/=); try (by left);
    unfold on_admin_login, on_room_create, createNewRoom, reconnectAdmin,
      on_room_join, on_player_bingoCard, on_game_drawNumber, on_win_check,
      on_room_close, closeRoom, on_disconnect in *;
    repeat (case_match; simplify_eq/=); try (by left);
    try (right; left; by eexists).
  right; right. do 2 eexists. split; [done|].
  repeat match goal with
         | H : users_get _ _ = Some _ |- _ => apply users_get_Some in H as [_ H]
         | H : rooms_get _ _ = Some _ |- _ => apply rooms_get_Some in H as [_ H]
         end.
  split; [apply is_Some_lookup_insert|]; eauto.
Qed.

Lemma step_timers_ok s e s' out :
  step cfg s e = Some (s', out) → timers_ok s → timers_ok s'.
Proof.
  intros Hstep Hok. destruct (step_lengths _ _ _ _ Hstep) as [Hrl Hul].
  assert (∀ t, is_Some (roomObjs s !! t.1) ∧ is_Some (userObjs s !! t.2) →
            is_Some (roomObjs s' !! t.1) ∧ is_Some (userObjs s' !! t.2)) as Hmono.
  { intros t. rewrite !lookup_lt_is_Some. lia. }
  unfold timers_ok in *.
  destruct (step_timers _ _ _ _ Hstep)
    as [->|[(t & Ht)|(rl & ul & -> & Hr & Hu)]].
  - by eapply Forall_impl.
  - rewrite Ht in Hok. apply Forall_cons in Hok as [_ Hok]. by eapply Forall_impl.
  - apply Forall_app. split; [by eapply Forall_impl|]. by apply Forall_singleton.
Qed.

Lemma Reachable_wellformed s :
  Reachable cfg s → registry_ok s ∧ directory_ok s ∧ timers_ok s.
Proof.
  intros (loaded & es & out & Hrun).
  assert (registry_ok (start_state loaded) ∧ directory_ok (start_state loaded)
          ∧ timers_ok (start_state loaded)) as Hstart.
  { split_and!; [by intros ?? ?|by intros ?? ?|constructor]. }
  revert Hstart Hrun. generalize (start_state loaded). clear loaded.
  revert out. induction es as [|e es IH]; intros out s0 Hwf.
  - by intros [= <- <-].
  - rewrite run_cons. intros (s1 & o1 & o2 & Hstep & Hrun & ->).
    destruct Hwf as (? & ? & ?).
    eapply IH; [|done].
    split_and!; eauto using step_registry_ok, step_directory_ok, step_timers_ok.
Qed.

End Wellformed.

Section WellformedTheorems.
Context {js : Engine} (cfg : Config).

(** In every state the server reaches, a code of the registry has six
    characters of the alphabet and resolves to a room object that carries
    this code; no room object is registered under two codes. *)
Theorem registry_sound s code rl :
  Reachable cfg s → rooms s !! code = Some rl →
  code_ok code
  ∧ (∃ room, rooms_get s code = Some (rl, room) ∧ roomId room = code)
  ∧ (∀ code', rooms s !! code' = Some rl → code' = code).
Proof.
  intros (Hreg & _)%Reachable_wellformed Hcode.
  destruct (Hreg _ _ Hcode) as (Hok & room & Hroom & Hid). split_and!.
  - done.
  - exists room. split; [|done]. by apply rooms_get_Some.
  - intros code' Hcode'. destruct (Hreg _ _ Hcode') as (_ & room' & Hroom' & Hid').
    congruence.
Qed.

(** In every state the server reaches, an entry of the directory belongs to
    a socket that is connected, and names a user object whose [userId] is
    that socket's id. *)
Theorem directory_live s sid ul :
  Reachable cfg s → users s !! sid = Some ul →
  sid ∈ sockets s
  ∧ ∃ user, users_get s sid = Some (ul, user) ∧ userId user = sid.
Proof.
  intros Hreach Hsid.
  destruct (Reachable_wellformed _ _ Hreach) as (_ & Hdir & _).
  destruct (Hdir _ _ Hsid) as [Hin _]. split; [done|].
  destruct (Reachable_users_ok _ _ Hreach _ _ Hsid) as (user & Hobj & Hid).
  exists user. split; [|done]. by apply users_get_Some.
Qed.

(** In every state the server reaches, the oldest pending win check holds
    its room and user objects, so when it fires it runs the win detector on
    that room object and broadcasts one game:rowCompleted per collected
    record.  It does not consult the registry: it does the same to a room
    that was closed in the meantime. *)
Theorem due_win_check_runs s rl ul pending :
  Reachable cfg s → timers s = (rl, ul) :: pending →
  (∃ room user,
     roomObjs s !! rl = Some room ∧ userObjs s !! ul = Some user
     ∧ on_win_check s
       = (set_roomObj rl (winCheck room).1 (with_timers pending s),
          map (rowCompletedEvent user) (winCheck room).2))
  ∧ ∀ registry,
      on_win_check (with_rooms registry s)
      = (with_rooms registry (on_win_check s).1, (on_win_check s).2).
Proof.
  intros (_ & _ & Htimers)%Reachable_wellformed Hdue. split.
  - unfold timers_ok in Htimers. rewrite Hdue in Htimers.
    apply Forall_cons in Htimers as [[[room Hroom] [user Huser]] _].
    simpl in *. exists room, user. split_and!; [done..|].
    unfold on_win_check. rewrite Hdue. simpl. rewrite Hroom, Huser.
    by destruct (winCheck room).
  - intros registry. unfold on_win_check. simpl. rewrite Hdue. simpl.
    destruct (roomObjs s !! rl) as [room|]; [|done].
    destruct (userObjs s !! ul) as [user|]; [|done].
    by destruct (winCheck room).
Qed.

(** Drawn numbers are append-only: along every run the drawn numbers of a
    room object are never removed or reordered, only extended. *)
Theorem drawn_append_only es s s' out rl room :
  run cfg s es = Some (s', out) → roomObjs s !! rl = Some room →
  ∃ room', roomObjs s' !! rl = Some room'
           ∧ drawnNumbers room `prefix_of` drawnNumbers room'.
Proof.
  intros Hrun Hroom.
  destruct (run_room_kept _ _ _ _ _ _ _ Hrun Hroom) as (room' & Hroom' & Hkept).
  exists room'. split; [done|]. by apply (kept_drawn_prefix _ _ Hkept).
Qed.

Lemma profiles_kept_change r r' : room_change r r' → profiles_kept r r'.
Proof.
  intros [_ ?| ->]; [done|]. unfold profiles_kept.
  by rewrite (proj1 (proj2 (winCheck_fields r))).
Qed.

(** No event deletes a profile: along every run the profiles of a room
    object stay, in their order, whatever connects, disconnects or closes;
    new profiles are added after them. *)
Theorem profiles_survive es s s' out rl room :
  run cfg s es = Some (s', out) → roomObjs s !! rl = Some room →
  ∃ room', roomObjs s' !! rl = Some room'
           ∧ (playerData room).*1 `prefix_of` (playerData room').*1.
Proof.
  revert s out room. induction es as [|e es IH]; intros s out room.
  - intros [= <- <-] Hroom. by exists room.
  - rewrite run_cons. intros (s1 & o1 & o2 & Hstep & Hrun & ->) Hroom.
    apply step_roomObjs_change in Hstep.
    destruct (roomObjs_change_lookup _ _ _ _ Hstep Hroom) as (r1 & Hr1 & Hch).
    destruct (IH _ _ _ Hrun Hr1) as (room' & Hroom' & Hpre).
    exists room'. split; [done|]. etrans; [|exact Hpre].
    destruct Hch as [->|Hch]; [done|]. by apply profiles_kept_change.
Qed.

End WellformedTheorems.

(** ** admin:login and room:create *)

Section Admission.
Context {js : Engine} (cfg : Config).

Lemma users_get_set_new s sid user :
  users_get (users_set_new sid user s) sid = Some (length (userObjs s), user).
Proof.
  unfold users_get, users_set_new. simpl. rewrite lookup_insert_eq. simpl.
  by rewrite lookup_app_r, Nat.sub_diag by done.
Qed.

(** A socket that logs in with the configured credentials gets a fresh
    admin entry that is bound to no room, whatever entry it had before: the
    registry and the room objects stay as they are, and in the state that
    results a draw of the socket is answered with 'Only room admin can draw
    numbers' and changes nothing, even if the socket was the bound admin of
    a room before the login. *)
Theorem login_unbinds_admin s sid username password :
  username = adminCredentials_username cfg →
  password = adminCredentials_password cfg →
  ∃ s', on_admin_login cfg s sid username password
        = (s', [(ToSocket sid, admin_loginSuccess true username)])
        ∧ users_get s' sid
          = Some (length (userObjs s), mkUser sid username true None None None)
        ∧ rooms s' = rooms s ∧ roomObjs s' = roomObjs s
        ∧ ∀ rnd now,
            on_game_drawNumber s' sid rnd now
            = Some (s', [(ToSocket sid, NotAuthorized_draw)]).
Proof.
  intros -> ->. unfold on_admin_login.
  rewrite !bool_decide_eq_true_2 by done. simpl.
  eexists. split; [reflexivity|]. split_and!.
  - apply users_get_set_new.
  - done.
  - done.
  - intros rnd now. unfold on_game_drawNumber.
    by rewrite users_get_set_new.
Qed.

(** room:create is answered with 'Only admins can create rooms', and
    changes nothing, exactly when the socket has no directory entry or an
    entry that is not an admin's; the random source is not consulted in that
    case. *)
Theorem create_needs_admin s sid existing rnd now :
  on_room_create s sid existing rnd now
  = Some (s, [(ToSocket sid, NotAuthorized_create)])
  ↔ ¬ ∃ ul user, users_get s sid = Some (ul, user) ∧ isAdmin user = true.
Proof.
  unfold on_room_create. split.
  - intros Hres (ul & user & Hu & Hadm). rewrite Hu, Hadm in Hres. simpl in Hres.
    assert (∀ s0 u0 r, createNewRoom s0 sid ul u0 rnd now = Some r →
                       r.2 ≠ [(ToSocket sid, NotAuthorized_create)]) as Hnew.
    { intros s0 u0 r. unfold createNewRoom.
      destruct (freshRoomCode _ _ _); [|done].
      intros [= <-]. simpl. unfold sendPlayersListToAdmin. simpl.
      by case_match. }
    repeat case_match; simplify_eq/=;
      try (by eapply Hnew; [eassumption|]).
    all: unfold reconnectAdmin in *; simplify_eq/=.
  - intros Hno. destruct (users_get s sid) as [[ul user]|]; [|done].
    destruct (isAdmin user) eqn:Hadm; [|done].
    destruct Hno. eauto.
Qed.

End Admission.

(** ** room:join *)

Lemma strip_cons ws c1 l1 :
  strip ws (c1 :: l1)
  = if bool_decide ([c1] ∈ ws) then strip ws l1
    else
      match l1 with
      | c2 :: l2 =>
          if bool_decide ([c1; c2] ∈ ws) then strip ws l2
          else
            match l2 with
            | c3 :: l3 =>
                if bool_decide ([c1; c2; c3] ∈ ws) then strip ws l3
                else c1 :: l1
            | [] => c1 :: l1
            end
      | [] => c1 :: l1
      end.
Proof. by destruct l1 as [|? [|? ?]]. Qed.

Lemma strip_nil ws l :
  strip ws l = [] → ∃ L, Forall (λ w, w ∈ ws) L ∧ l = concat L.
Proof.
  remember (length l) as n eqn:Hn. assert (length l ≤ n)%nat as Hlen by lia.
  clear Hn. revert l Hlen. induction n as [|n IH]; intros l Hlen.
  { destruct l; [|simpl in Hlen; lia]. intros _. by exists []. }
  destruct l as [|c1 l1]; [intros _; by exists []|].
  rewrite strip_cons. simpl in Hlen. case_bool_decide as H1.
  { intros (L & HL & Heq)%IH; [|lia].
    exists ([c1] :: L). split; [by constructor|]. simpl. by rewrite <-Heq. }
  destruct l1 as [|c2 l2]; [done|]. simpl in Hlen. case_bool_decide as H2.
  { intros (L & HL & Heq)%IH; [|lia].
    exists ([c1; c2] :: L). split; [by constructor|]. simpl. by rewrite <-Heq. }
  destruct l2 as [|c3 l3]; [done|]. simpl in Hlen. case_bool_decide as H3; [|done].
  intros (L & HL & Heq)%IH; [|lia].
  exists ([c1; c2; c3] :: L). split; [by constructor|]. simpl. by rewrite <-Heq.
Qed.

Lemma strip_idemp ws l : strip ws (strip ws l) = strip ws l.
Proof.
  remember (length l) as n eqn:Hn. assert (length l ≤ n)%nat as Hlen by lia.
  clear Hn. revert l Hlen. induction n as [|n IH]; intros l Hlen.
  { by destruct l; [|simpl in Hlen; lia]. }
  destruct l as [|c1 l1]; [done|].
  rewrite (strip_cons ws c1 l1). simpl in Hlen. case_bool_decide as H1.
  { apply IH. lia. }
  destruct l1 as [|c2 l2].
  { rewrite strip_cons. by rewrite bool_decide_eq_false_2. }
  simpl in Hlen. case_bool_decide as H2; [apply IH; lia|].
  destruct l2 as [|c3 l3].
  { rewrite strip_cons. by rewrite !bool_decide_eq_false_2. }
  simpl in Hlen. case_bool_decide as H3; [apply IH; lia|].
  rewrite strip_cons. by rewrite !bool_decide_eq_false_2.
Qed.

Lemma strip_white_space w l :
  w ∈ white_space → strip white_space (w ++ l) = strip white_space l.
Proof.
  intros Hw. unfold white_space in Hw. simpl in Hw.
  repeat (apply elem_of_cons in Hw as [->|Hw]; [vm_compute; reflexivity|]).
  by apply elem_of_nil in Hw.
Qed.

Lemma strip_blank L :
  Forall (λ w, w ∈ white_space) L → strip white_space (concat L) = [].
Proof.
  induction 1 as [|w L Hw _ IH]; simpl; [done|]. by rewrite strip_white_space.
Qed.

Lemma reverse_concat {A} (L : list (list A)) :
  reverse (concat L) = concat (reverse (reverse <$> L)).
Proof.
  induction L as [|w L IH]; simpl; [done|].
  rewrite reverse_app, IH, reverse_cons, concat_app. simpl.
  by rewrite app_nil_r.
Qed.

Lemma String_nil_chars s : s = "" ↔ String.list_ascii_of_string s = [].
Proof. by destruct s. Qed.

(** [trim] leaves nothing exactly of the strings made of white space. *)
Lemma trim_nil s : trim s = "" ↔ blank s.
Proof.
  unfold trim, blank. set (l := String.list_ascii_of_string s).
  rewrite String_nil_chars, String.list_ascii_of_string_of_list_ascii.
  split.
  - intros Hend. apply (f_equal reverse) in Hend.
    rewrite reverse_involutive in Hend. change (reverse []) with (@nil ascii) in Hend.
    apply strip_nil in Hend as (L & HL & Heq).
    apply (f_equal reverse) in Heq.
    rewrite reverse_involutive, reverse_concat in Heq.
    assert (Forall (λ w, w ∈ white_space) (reverse (reverse <$> L))) as HL'.
    { apply Forall_forall.
      intros w (w' & -> & Hw')%elem_of_reverse%list_elem_of_fmap.
      eapply Forall_forall in HL; [|done].
      apply list_elem_of_fmap in HL as (w0 & -> & Hw0).
      by rewrite reverse_involutive. }
    pose proof (strip_blank _ HL') as Hnil.
    rewrite <-Heq, strip_idemp in Hnil. by apply strip_nil.
  - intros (L & HL & ->). by rewrite strip_blank.
Qed.

Lemma trim_empty : trim "" = "".
Proof. reflexivity. Qed.

Lemma String_length_nil s : String.length s = 0%nat ↔ s = "".
Proof. by destruct s. Qed.

Lemma elem_of_set_add `{EqDecision A} (x y : A) (l : list A) :
  y ∈ set_add x l ↔ y = x ∨ y ∈ l.
Proof. unfold set_add. case_bool_decide; set_solver. Qed.

(** The names a join is compared with: the lower-cased names of the
    profiles other than the one the join presents. *)
Lemma existingNames_elem {js : Engine} room psid name :
  name ∈ existingNames room psid ↔
  ∃ pid pd, (pid, pd) ∈ playerData room ∧ Some pid ≠ psid
            ∧ toLowerCase (pd_username pd) = name.
Proof.
  unfold existingNames.
  assert (∀ l acc,
    name ∈ foldl (λ names (entry : string * PlayerData),
                    if bool_decide (Some entry.1 ≠ psid)
                    then set_add (toLowerCase (pd_username entry.2)) names
                    else names) acc l
    ↔ name ∈ acc ∨ ∃ pid pd, (pid, pd) ∈ l ∧ Some pid ≠ psid
                              ∧ toLowerCase (pd_username pd) = name) as Hgen.
  { induction l as [|[pid pd] l IH]; intros acc; simpl.
    - split; [by left|]. intros [?|(? & ? & []%elem_of_nil & _)]. done.
    - rewrite IH. case_bool_decide as Hpid.
      + rewrite elem_of_set_add. split.
        * intros [[->|?]|(pid' & pd' & ? & ? & ?)]; [right|by left|right].
          -- exists pid, pd. split_and!; [by left|done..].
          -- exists pid', pd'. split_and!; [by right|done..].
        * intros [?|(pid' & pd' & [[= -> ->]|?]%elem_of_cons & ? & ?)].
          -- left. by right.
          -- left. by left.
          -- right. eauto.
      + split.
        * intros [?|(pid' & pd' & ? & ? & ?)]; [by left|right].
          exists pid', pd'. split_and!; [by right|done..].
        * intros [?|(pid' & pd' & [[= -> ->]|?]%elem_of_cons & ? & ?)];
            [by left|done|right; eauto]. }
  rewrite Hgen. split; [intros [[]%elem_of_nil|?]; done|by right].
Qed.


Section Join.
Context {js : Engine} (cfg : Config).

(** A join of a registered room is answered with 'Please enter your name',
    and changes nothing, exactly when the name is made of white space only
    (the empty name included): tabs, line breaks, spaces, no-break spaces
    and the other white space [String.prototype.trim] strips. *)
Theorem join_validation s sid code playerName psid now rnd36 rl room :
  rooms_get s code = Some (rl, room) →
  on_room_join s sid code playerName psid now rnd36
  = (s, [(ToSocket sid, ValidationError)])
  ↔ blank playerName.
Proof.
  intros Hget. rewrite <-trim_nil. unfold on_room_join. rewrite Hget.
  destruct (decide (trim playerName = "")) as [Htrim|Htrim].
  - rewrite (bool_decide_eq_true_2 (String.length (trim playerName) = 0%nat))
      by by apply String_length_nil.
    by rewrite orb_true_r.
  - rewrite (bool_decide_eq_false_2 (String.length (trim playerName) = 0%nat))
      by by rewrite String_length_nil.
    rewrite bool_decide_eq_false_2 by by intros ->.
    simpl. split; [|done]. intros Hres. exfalso.
    repeat case_match; simplify_eq/=.
Qed.

(** A join of a registered room with a proper name is answered with 'This
    name is already taken', and changes nothing, exactly when a profile of
    the room other than the one the join presents has the same name up to
    the case of the letters (and the white space around the new name). *)
Theorem join_name_taken s sid code playerName psid now rnd36 rl room :
  rooms_get s code = Some (rl, room) →
  trim playerName ≠ "" →
  on_room_join s sid code playerName psid now rnd36
  = (s, [(ToSocket sid, NameTaken)])
  ↔ ∃ pid pd, (pid, pd) ∈ playerData room ∧ Some pid ≠ psid
              ∧ toLowerCase (pd_username pd) = toLowerCase (trim playerName).
Proof.
  intros Hget Htrim. rewrite <-existingNames_elem.
  unfold on_room_join. rewrite Hget.
  rewrite (bool_decide_eq_false_2 (String.length (trim playerName) = 0%nat))
    by by rewrite String_length_nil.
  rewrite bool_decide_eq_false_2 by by intros ->.
  simpl. unfold set_has. case_bool_decide as Hin; [done|].
  split; [|done]. intros Hres. exfalso.
  repeat case_match; simplify_eq/=.
Qed.


End Join.

(** ** player:bingoCard *)

Section BingoCard.
Context {js : Engine} (cfg : Config).

(** A card is refused with 'Invalid request', and nothing changes, exactly
    when the socket has no directory entry, the code names no registered
    room, or the socket is not among the players of that room. *)
Theorem bingoCard_invalid s sid code card pid :
  on_player_bingoCard s sid code card pid
  = (s, [(ToSocket sid, InvalidRequest)])
  ↔ ¬ ∃ ul user rl room,
        users_get s sid = Some (ul, user)
        ∧ rooms_get s code = Some (rl, room) ∧ sid ∈ players room.
Proof.
  unfold on_player_bingoCard. split.
  - intros Hres (ul & user & rl & room & Hu & Hget & Hin).
    rewrite Hu, Hget in Hres. unfold set_has in Hres.
    rewrite (bool_decide_eq_true_2 _ Hin) in Hres. simpl in Hres.
    repeat case_match; simplify_eq/=.
  - intros Hno. destruct (users_get s sid) as [[ul user]|]; [|done].
    destruct (rooms_get s code) as [[rl room]|]; [|done].
    unfold set_has. case_bool_decide as Hin; [|done].
    destruct Hno. by exists ul, user, rl, room.
Qed.

(** A card sent by a member of the room is stored on the profile the request
    names or, if it names none, on the profile the socket joined under;
    whose profile that is is not checked.  The profile keeps its name and
    socket (a profile is made from the sender's entry if the id is unknown),
    every other profile and the game fields stay as they are, and the
    sender's directory entry records the card.  The card is forwarded, under
    the profile's id and the sender's name, to the socket in the room's admin
    slot (to the socket that created the room if the slot is empty) if that
    socket is connected, and to nobody otherwise. *)
Theorem bingoCard_stored s sid code card pid ul user rl room a :
  users_get s sid = Some (ul, user) →
  rooms_get s code = Some (rl, room) →
  sid ∈ players room →
  (if truthy pid then pid else u_playerId user) = Some a → a ≠ "" →
  ∃ s' out room',
    on_player_bingoCard s sid code card pid = (s', out)
    ∧ rooms_get s' code = Some (rl, room')
    ∧ map_get a (playerData room')
      = Some (match map_get a (playerData room) with
              | Some pd => mkPlayerData (pd_username pd) card (pd_socketId pd)
              | None => mkPlayerData (username user) card (Some sid)
              end)
    ∧ (∀ k, k ≠ a → map_get k (playerData room') = map_get k (playerData room))
    ∧ same_game room room'
    ∧ drawnNumbers room' = drawnNumbers room
    ∧ players room' = players room
    ∧ users_get s' sid = Some (ul, user_with_bingoCard card user)
    ∧ out
      = (let adm := if truthy (adminSocketId room)
                    then default "" (adminSocketId room) else adminId room in
         if bool_decide (adm ∈ sockets s)
         then [(ToSocket adm, player_bingoCard a (username user) card)]
         else []).
Proof.
  intros Hu Hget Hin Hid Ha.
  pose proof Hget as [Hcode Hroom]%rooms_get_Some.
  pose proof Hu as [Hsid Hobj]%users_get_Some.
  assert (rl < length (roomObjs s))%nat as Hrl by by eapply lookup_lt_Some.
  assert (ul < length (userObjs s))%nat as Hul by by eapply lookup_lt_Some.
  unfold on_player_bingoCard. rewrite Hu, Hget. unfold set_has.
  rewrite (bool_decide_eq_true_2 _ Hin). simpl. rewrite Hid. simpl.
  rewrite (bool_decide_eq_true_2 _ Ha).
  set (room' := match map_get a (playerData room) with
                | Some pd => _ | None => _ end).
  assert (adminSocketId room' = adminSocketId room
          ∧ adminId room' = adminId room) as [-> ->].
  { subst room'. by destruct (map_get a (playerData room)). }
  eexists _, _, room'. split; [reflexivity|]. split_and!.
  - apply rooms_get_Some. simpl. split; [done|].
    by rewrite list_lookup_insert_eq.
  - subst room'. destruct (map_get a (playerData room)); simpl;
      apply map_get_set.
  - intros k Hk. subst room'. destruct (map_get a (playerData room)); simpl;
      by apply map_get_set_ne.
  - subst room'. by destruct (map_get a (playerData room)).
  - subst room'. by destruct (map_get a (playerData room)).
  - subst room'. by destruct (map_get a (playerData room)).
  - apply users_get_Some. simpl. split; [done|].
    by rewrite list_lookup_insert_eq.
  - unfold set_has. destruct (adminSocketId room) as [adm|] eqn:Hadm; simpl.
    + by case_bool_decide.
    + done.
Qed.

(** A card sent by a member that names no profile and joined under none (an
    admin that never joined as a player) reaches no profile: the room
    objects stay as they are, so the win detector never sees this card; only
    the sender's directory entry records it. *)
Theorem bingoCard_without_profile s sid code card pid ul user rl room :
  users_get s sid = Some (ul, user) →
  rooms_get s code = Some (rl, room) →
  sid ∈ players room →
  truthy pid = false → truthy (u_playerId user) = false →
  ∃ s' out,
    on_player_bingoCard s sid code card pid = (s', out)
    ∧ rooms s' = rooms s ∧ roomObjs s' = roomObjs s
    ∧ users_get s' sid = Some (ul, user_with_bingoCard card user).
Proof.
  intros Hu Hget Hin Hpid Huid.
  pose proof Hget as [Hcode Hroom]%rooms_get_Some.
  pose proof Hu as [Hsid Hobj]%users_get_Some.
  unfold on_player_bingoCard. rewrite Hu, Hget. unfold set_has.
  rewrite (bool_decide_eq_true_2 _ Hin). simpl. rewrite Hpid, Huid.
  assert (match u_playerId user with Some _ => room | None => room end = room)
    as -> by by destruct (u_playerId user).
  do 2 eexists. split; [reflexivity|]. split_and!.
  - done.
  - simpl. by apply list_insert_id.
  - apply users_get_Some. simpl. split; [done|].
    rewrite list_lookup_insert_eq; [done|]. by eapply lookup_lt_Some.
Qed.

End BingoCard.

(** ** disconnect *)

Section Disconnect.
Context {js : Engine} (cfg : Config).

(** A player's connection drops: the profile stays in the room with its name
    and card, only its socket is cleared; the other profiles, the order of
    the profiles and the game stay as they are; the socket leaves the room
    and the directory, and the room is told player:left with the number of
    sockets that remain. *)
Theorem player_disconnect_keeps_profile s sid ul user code rl room pid pd :
  users_get s sid = Some (ul, user) →
  isAdmin user = false →
  u_roomId user = Some code → code ≠ "" →
  rooms_get s code = Some (rl, room) →
  u_playerId user = Some pid → pid ≠ "" →
  map_get pid (playerData room) = Some pd →
  ∃ s' rest room',
    on_disconnect s sid
    = (s', (ToRoom (Some code),
            player_left (length (set_delete sid (players room))) (Some pid)
              (username user)) :: rest)
    ∧ users s' = delete sid (users s)
    ∧ sockets s' = set_delete sid (sockets s)
    ∧ rooms_get s' code = Some (rl, room')
    ∧ map_get pid (playerData room')
      = Some (mkPlayerData (pd_username pd) (pd_bingoCard pd) None)
    ∧ (∀ k, k ≠ pid → map_get k (playerData room') = map_get k (playerData room))
    ∧ (playerData room').*1 = (playerData room).*1
    ∧ players room' = set_delete sid (players room)
    ∧ drawnNumbers room' = drawnNumbers room
    ∧ same_game room room'.
Proof.
  intros Hu Hadm Hcode Hne Hget Hpid Hpne Hpd.
  pose proof Hget as [Hreg Hroom]%rooms_get_Some.
  unfold on_disconnect.
  change (users_get (with_sockets _ s) sid) with (users_get s sid).
  rewrite Hu, Hcode. simpl. rewrite (bool_decide_eq_true_2 _ Hne).
  change (rooms_get (with_sockets ?l s) code) with (rooms_get s code).
  rewrite Hget, Hadm, Hpid. simpl. rewrite (bool_decide_eq_true_2 _ Hpne), Hpd.
  do 3 eexists. split; [reflexivity|]. split_and!; simpl.
  - done.
  - done.
  - apply rooms_get_Some. simpl. split; [done|].
    rewrite list_lookup_insert_eq; [done|]. by eapply lookup_lt_Some.
  - apply map_get_set.
  - intros k Hk. by apply map_get_set_ne.
  - apply map_set_keys. by rewrite Hpd.
  - done.
  - done.
  - done.
Qed.

End Disconnect.

(** ** room:close and the archive *)

Lemma cleanupOldRooms_length maxSize hist :
  (length (cleanupOldRooms maxSize hist) ≤ length hist)%nat
  ∧ (Z.of_nat (length hist) ≤ maxSize
     ∨ length (cleanupOldRooms maxSize hist) = Z.to_nat maxSize).
Proof.
  unfold cleanupOldRooms. case_bool_decide as Hlen; [split; [done|by left]|].
  rewrite length_drop, sort_by_closedAt_perm. split; [lia|]. right. lia.
Qed.

Lemma cleanupOldRooms_submseteq maxSize hist :
  cleanupOldRooms maxSize hist ⊆+ hist.
Proof.
  unfold cleanupOldRooms. case_bool_decide; [done|].
  etrans; [apply submseteq_drop|]. by rewrite sort_by_closedAt_perm.
Qed.

Lemma addRoomToHistory_length (MAX : Z) (fstat : option Z)
    (roomData : Summary) (hist : list Summary) :
  (length (addRoomToHistory MAX fstat roomData hist) ≤ Z.to_nat MAX)%nat.
Proof.
  unfold addRoomToHistory, checkDiskSpaceAndCleanup.
  case_bool_decide as Hlen.
  - destruct (cleanupOldRooms_length MAX (hist ++ [roomData])) as [_ [?| ->]];
      [lia|done].
  - destruct fstat as [size|]; [|lia]. case_bool_decide; [|lia].
    destruct (cleanupOldRooms_length (MAX * 8 / 10) (hist ++ [roomData]))
      as [? [?| ->]]; [lia|].
    assert (0 ≤ MAX) by lia.
    assert (MAX * 8 / 10 ≤ MAX) by (apply Z.div_le_upper_bound; lia). lia.
Qed.

(** Appending a record to the archive leaves at most [MAX_HISTORY_SIZE]
    records (none, if the limit is not positive), whatever the size of the
    history file; every record left is the new one or was in the archive;
    and if the new length is within the limit and the file within its size
    cap, the archive is the old one followed by the new record, in the order
    of arrival. *)
Theorem addRoomToHistory_bounded (MAX : Z) (fstat : option Z)
    (roomData : Summary) (hist : list Summary) :
  (length (addRoomToHistory MAX fstat roomData hist) ≤ Z.to_nat MAX)%nat
  ∧ addRoomToHistory MAX fstat roomData hist ⊆+ roomData :: hist
  ∧ (Z.of_nat (length hist) < MAX →
     (∀ size, fstat = Some size → size ≤ maxFileSize) →
     addRoomToHistory MAX fstat roomData hist = hist ++ [roomData]).
Proof.
  split; [apply addRoomToHistory_length|].
  unfold addRoomToHistory, checkDiskSpaceAndCleanup.
  assert (hist ++ [roomData] ⊆+ roomData :: hist) as Hperm.
  { by rewrite (comm (++)). }
  split.
  - case_bool_decide.
    + etrans; [apply cleanupOldRooms_submseteq|done].
    + destruct fstat as [size|]; [|done]. case_bool_decide; [|done].
      etrans; [apply cleanupOldRooms_submseteq|done].
  - intros Hlen Hsize. rewrite bool_decide_eq_false_2
      by (rewrite length_app; simpl; lia).
    destruct fstat as [size|]; [|done].
    rewrite bool_decide_eq_false_2; [done|]. specialize (Hsize _ eq_refl). lia.
Qed.

Section Close.
Context {js : Engine} (cfg : Config).

Lemma Reachable_winner_ok s : Reachable cfg s → Forall winner_ok (roomObjs s).
Proof.
  intros (loaded & es & out & Hrun).
  eapply run_winner_ok; [done|]. constructor.
Qed.

Lemma rooms_get_None s code : rooms s !! code = None → rooms_get s code = None.
Proof. unfold rooms_get. by intros ->. Qed.

Lemma closeRoom_frame s code room now fstat message :
  let s' := (closeRoom cfg s code room now fstat message).1 in
  rooms s' = delete code (rooms s) ∧ roomObjs s' = roomObjs s
  ∧ users s' = users s ∧ userObjs s' = userObjs s
  ∧ sockets s' = sockets s ∧ timers s' = timers s.
Proof. rewrite closeRoom_spec. simpl. by repeat case_match. Qed.

(** A close by the admin connection that created the room, or by anyone
    once the game is over, tells the room room:closed and takes the code
    out of the registry, and that is all it does to the rooms and the
    directory: the room object, the directory entries bound to the code and
    the pending win checks stay.  From then on the code is unknown: a join
    or another close is answered with 'Room not found', and so is a draw by
    an admin whose entry is still bound to the code. *)
Theorem close_removes_room s sid code rl room now fstat :
  rooms_get s code = Some (rl, room) →
  (∃ ul user, users_get s sid = Some (ul, user) ∧ isAdmin user = true
              ∧ adminId room = userId user)
  ∨ gameOver room = true →
  ∃ s' message,
    on_room_close cfg s sid code now fstat
    = (s', [(ToRoom (Some code), room_closed message)])
    ∧ rooms s' = delete code (rooms s) ∧ roomObjs s' = roomObjs s
    ∧ users s' = users s ∧ userObjs s' = userObjs s
    ∧ sockets s' = sockets s ∧ timers s' = timers s
    ∧ (∀ sid' playerName psid now' rnd36,
         on_room_join s' sid' code playerName psid now' rnd36
         = (s', [(ToSocket sid', RoomNotFound)]))
    ∧ (∀ sid' now' fstat',
         on_room_close cfg s' sid' code now' fstat'
         = (s', [(ToSocket sid', RoomNotFound)]))
    ∧ (∀ sid' ul user rnd now',
         users_get s' sid' = Some (ul, user) → isAdmin user = true →
         u_roomId user = Some code → code ≠ "" →
         on_game_drawNumber s' sid' rnd now'
         = Some (s', [(ToSocket sid', RoomNotFound)])).
Proof.
  intros Hget Hwho.
  assert (∃ message, on_room_close cfg s sid code now fstat
                     = closeRoom cfg s code room now fstat message)
    as [message Hclose].
  { destruct Hwho as [(ul & user & Hu & Hadm & Hid)|Hover].
    - eexists. by eapply on_room_close_creator.
    - by eapply on_room_close_over. }
  destruct (closeRoom_frame s code room now fstat message)
    as (Hrooms & Hobjs & Husers & Huobjs & Hsockets & Htimers).
  rewrite Hclose. rewrite closeRoom_spec in *. simpl in *.
  eexists _, message. split; [reflexivity|].
  assert (∀ s0, rooms_get (with_rooms (delete code (rooms s)) s0) code = None)
    as Hgone.
  { intros s0. apply rooms_get_None. simpl. apply lookup_delete_eq. }
  split_and!; try done.
  - intros. unfold on_room_join. by rewrite Hgone.
  - intros. unfold on_room_close. by rewrite Hgone.
  - intros sid' ul user rnd now' Hu Hadm Hbound Hne.
    unfold on_game_drawNumber. rewrite Hu, Hadm, Hbound. simpl.
    rewrite (bool_decide_eq_true_2 _ Hne). simpl. by rewrite Hgone.
Qed.

(** In every state the server reaches, closing a room whose game is over
    archives it: the room has winner details, and the archive becomes what
    [addRoomToHistory] makes of the old archive and the summary of the room
    (code, creation and closing times, the winner's name, row, numbers and
    card, the numbers of profiles and of numbers drawn). *)
Theorem close_archives_finished s sid code rl room now fstat :
  Reachable cfg s →
  rooms_get s code = Some (rl, room) → gameOver room = true →
  ∃ info,
    winnerInfo room = Some info ∧ winner room = Some (wi_playerName info)
    ∧ roomHistory (on_room_close cfg s sid code now fstat).1
      = addRoomToHistory (MAX_HISTORY_SIZE cfg) fstat
          (mkSummary code (createdAt room) now (wi_playerName info)
             (wi_rowNumber info) (wi_numbers info) (wi_bingoCard info)
             (length (playerData room)) (length (drawnNumbers room)))
          (roomHistory s).
Proof.
  intros Hreach Hget Hover.
  pose proof Hget as [Hcode Hroom]%rooms_get_Some.
  destruct (Reachable_wellformed _ _ Hreach) as (Hreg & _).
  destruct (Hreg _ _ Hcode) as (_ & room0 & Hroom0 & Hid). simplify_eq.
  pose proof (Reachable_winner_ok _ Hreach) as Hall.
  eapply Forall_lookup_1 in Hall as (_ & Hinfo & Hwinner); [|done].
  destruct (proj1 Hinfo Hover) as [info Hwi]. exists info.
  rewrite Hwinner, Hwi. split_and!; [done..|].
  destruct (on_room_close_over cfg s sid _ _ _ now fstat Hget Hover)
    as [message ->].
  rewrite closeRoom_spec, Hwi, Hover. done.
Qed.

Lemma step_roomHistory s e s' out :
  step cfg s e = Some (s', out) →
  roomHistory s' = roomHistory s
  ∨ ∃ fstat roomData,
      roomHistory s'
      = addRoomToHistory (MAX_HISTORY_SIZE cfg) fstat roomData (roomHistory s).
Proof.
  intros Hstep.
  destruct e; simpl in Hstep; simplify_eq/=;
    repeat (case_match; simplify_eq/=); try (by left);
    unfold on_admin_login, on_room_create, createNewRoom, reconnectAdmin,
      on_room_join, on_player_bingoCard, on_game_drawNumber, on_win_check,
      on_room_close, closeRoom, on_disconnect in *;
    repeat (case_match; simplify_eq/=); try (by left); right; eauto.
Qed.

(** An archive within [MAX_HISTORY_SIZE] stays within it along every run:
    the events change the archive by [addRoomToHistory] only. *)
Theorem archive_bounded es s s' out :
  run cfg s es = Some (s', out) →
  (length (roomHistory s) ≤ Z.to_nat (MAX_HISTORY_SIZE cfg))%nat →
  (length (roomHistory s') ≤ Z.to_nat (MAX_HISTORY_SIZE cfg))%nat.
Proof.
  revert s out. induction es as [|e es IH]; intros s out.
  - by intros [= <- <-].
  - rewrite run_cons. intros (s1 & o1 & o2 & Hstep & Hrun & ->) Hlen.
    eapply IH; [done|].
    destruct (step_roomHistory _ _ _ _ Hstep) as [->|(fstat & r & ->)]; [done|].
    apply addRoomToHistory_length.
Qed.

End Close.

(** ** Cards *)

Lemma cards_kept_same r r' : playerData r' = playerData r → cards_kept r r'.
Proof. intros Heq pid pd Hpd. exists pd. by rewrite Heq. Qed.

Lemma cards_kept_set r r' k v pd0 :
  map_get k (playerData r) = Some pd0 → pd_bingoCard v = pd_bingoCard pd0 →
  playerData r' = map_set k v (playerData r) → cards_kept r r'.
Proof.
  intros Hk Hcard Heq pid pd Hpd. rewrite Heq.
  destruct (decide (k = pid)) as [->|Hne].
  - exists v. rewrite map_get_set. split; [done|]. congruence.
  - exists pd. by rewrite map_get_set_ne.
Qed.

Lemma cards_kept_new r r' k v :
  map_get k (playerData r) = None →
  playerData r' = map_set k v (playerData r) → cards_kept r r'.
Proof.
  intros Hk Heq pid pd Hpd. rewrite Heq. exists pd.
  rewrite map_get_set_ne; [done|]. congruence.
Qed.

Lemma cards_kept_trans r1 r2 r3 :
  cards_kept r1 r2 → cards_kept r2 r3 → cards_kept r1 r3.
Proof.
  intros H12 H23 pid pd Hpd.
  destruct (H12 _ _ Hpd) as (pd2 & Hpd2 & Hc2).
  destruct (H23 _ _ Hpd2) as (pd3 & Hpd3 & Hc3).
  exists pd3. split; [done|]. congruence.
Qed.

Section Cards.
Context {js : Engine} (cfg : Config).

Lemma step_cards_kept s e s' out :
  step cfg s e = Some (s', out) →
  (∀ sid code card pid, e ≠ player_bingoCard_in sid code card pid) →
  roomObjs s' = roomObjs s
  ∨ (∃ rl r r', roomObjs s !! rl = Some r ∧ cards_kept r r'
                ∧ roomObjs s' = <[rl:=r']> (roomObjs s))
  ∨ ∃ r, roomObjs s' = roomObjs s ++ [r].
Proof.
  intros Hstep Hne.
  destruct e; try (by edestruct Hne); simpl in Hstep; simplify_eq/=;
    repeat (case_match; simplify_eq/=); try (by left);
    unfold on_admin_login, on_room_create, createNewRoom, reconnectAdmin,
      on_room_join, on_game_drawNumber, on_win_check,
      on_room_close, closeRoom, on_disconnect in *;
    repeat (case_match; simplify_eq/=);
    first
      [ by left
      | by right; right; eexists
      | right; left; do 3 eexists;
        split_and!; [eauto with bingo| |reflexivity];
        first [ by apply cards_kept_same
              | by eapply cards_kept_set; [| |reflexivity];
                   [eassumption|reflexivity]
              | by eapply cards_kept_new; [|reflexivity]; eassumption
              | idtac ] ].
  all: apply cards_kept_same.
  all: match goal with
       | H : winCheck ?r = _ |- _ =>
           pose proof (proj1 (proj2 (winCheck_fields r))) as Hpd;
           by rewrite H in Hpd
       end.
Qed.

(** A card changes only when a card is sent: along every run without a
    player:bingoCard event, each profile of a room object stays and keeps
    its card, whoever joins, rejoins under it, disconnects, draws or
    closes. *)
Theorem cards_change_only_by_bingoCard es s s' out rl room pid pd :
  run cfg s es = Some (s', out) →
  (∀ sid code card p, player_bingoCard_in sid code card p ∉ es) →
  roomObjs s !! rl = Some room → map_get pid (playerData room) = Some pd →
  ∃ room' pd',
    roomObjs s' !! rl = Some room'
    ∧ map_get pid (playerData room') = Some pd'
    ∧ pd_bingoCard pd' = pd_bingoCard pd.
Proof.
  intros Hrun Hno Hroom Hpd.
  cut (∃ room', roomObjs s' !! rl = Some room' ∧ cards_kept room room').
  { intros (room' & Hroom' & Hkept).
    destruct (Hkept _ _ Hpd) as (pd' & ? & ?). by exists room', pd'. }
  clear Hpd. revert s out room Hrun Hno Hroom.
  induction es as [|e es IH]; intros s out room.
  - intros [= <- <-] _ Hroom. exists room. split; [done|].
    by apply cards_kept_same.
  - rewrite run_cons. intros (s1 & o1 & o2 & Hstep & Hrun & ->) Hno Hroom.
    assert (∃ r1, roomObjs s1 !! rl = Some r1 ∧ cards_kept room r1)
      as (r1 & Hr1 & Hk1).
    { apply step_cards_kept in Hstep as [->|[(rl0 & r & r' & Hr & Hk & ->)|[r ->]]].
      - exists room. split; [done|]. by apply cards_kept_same.
      - destruct (decide (rl0 = rl)) as [->|Hrl].
        + simplify_eq. exists r'. split; [|done].
          apply list_lookup_insert_eq. by eapply lookup_lt_Some.
        + exists room. rewrite list_lookup_insert_ne by done.
          split; [done|]. by apply cards_kept_same.
      - exists room. split; [|by apply cards_kept_same].
        by apply lookup_app_l_Some.
      - intros sid code card p ->. eapply Hno. by left. }
    destruct (IH s1 o2 r1 Hrun) as (room' & Hroom' & Hk'); [|done|].
    { intros sid code card p Hin. eapply Hno. by right. }
    exists room'. split; [done|]. by eapply cards_kept_trans.
Qed.

End Cards.

(** ** The HTTP endpoints *)

Lemma split_space_word w :
  (" "%char ∉ String.list_ascii_of_string w) → split_space w = [w].
Proof.
  induction w as [|c w IH]; simpl; [done|].
  intros Hno. rewrite bool_decide_eq_false_2.
  - rewrite IH; [done|]. intros Hin. apply Hno. by right.
  - intros ->. apply Hno. by left.
Qed.

Lemma split_space_app w rest :
  (" "%char ∉ String.list_ascii_of_string w) →
  split_space (w +:+ String " " rest) = w :: split_space rest.
Proof.
  induction w as [|c w IH]; simpl.
  - done.
  - intros Hno. rewrite bool_decide_eq_false_2.
    + change (String.app w (String " " rest)) with (w +:+ String " " rest).
      rewrite IH; [done|]. intros Hin. apply Hno. by right.
    + intros ->. apply Hno. by left.
Qed.

Section HttpTheorems.
Context {js : Engine} (cfg : Config) (jwt_verify : string → option bool).

(** A request whose Authorization header is a word, a space and a token the
    archive is sent exactly when [jwt.verify] accepts the token with a
    payload that is an admin's; the word before the token is not looked at
    (it need not be Bearer). *)
Theorem history_needs_admin_token s scheme token :
  (" "%char ∉ String.list_ascii_of_string scheme) →
  (" "%char ∉ String.list_ascii_of_string token) → token ≠ "" →
  history_endpoint jwt_verify s (Some (scheme +:+ " " +:+ token))
  = HistoryOk (roomHistory s)
  ↔ jwt_verify token = Some true.
Proof.
  intros Hscheme Htoken Hne. unfold history_endpoint, verifyToken. simpl.
  change (" " +:+ token) with (String " " token).
  rewrite split_space_app, split_space_word by done. simpl.
  rewrite (bool_decide_eq_true_2 _ Hne). simpl.
  destruct (jwt_verify token) as [[]|]; simpl; split; congruence.
Qed.

(** A request without an Authorization header, or with a header that has no
    space in it, is answered 401 'No token provided' whatever [jwt.verify]
    would say about it; so is a header with two spaces after its first
    word. *)
Theorem history_without_token s :
  history_endpoint jwt_verify s None = Unauthorized "No token provided"
  ∧ (∀ header, (" "%char ∉ String.list_ascii_of_string header) →
       history_endpoint jwt_verify s (Some header)
       = Unauthorized "No token provided")
  ∧ (∀ scheme rest, (" "%char ∉ String.list_ascii_of_string scheme) →
       history_endpoint jwt_verify s (Some (scheme +:+ "  " +:+ rest))
       = Unauthorized "No token provided").
Proof.
  unfold history_endpoint, verifyToken. split_and!.
  - done.
  - intros header Hno. simpl. by rewrite split_space_word.
  - intros scheme rest Hno. simpl.
    change ("  " +:+ rest) with (String " " (String " " rest)).
    by rewrite split_space_app.
Qed.

Lemma step_sockets s e s' out :
  step cfg s e = Some (s', out) →
  sockets s' = sockets s
  ∨ ∃ sid, sockets s' = set_add sid (sockets s)
           ∨ sockets s' = set_delete sid (sockets s).
Proof.
  intros Hstep.
  destruct e; simpl in Hstep; simplify_eq/=;
    repeat (case_match; simplify_eq/=); try (by left);
    unfold on_admin_login, on_room_create, createNewRoom, reconnectAdmin,
      on_room_join, on_player_bingoCard, on_game_drawNumber, on_win_check,
      on_room_close, closeRoom, on_disconnect in *;
    repeat (case_match; simplify_eq/=); try (by left); right; eauto.
Qed.

Lemma Reachable_sockets_NoDup s : Reachable cfg s → NoDup (sockets s).
Proof.
  intros (loaded & es & out & Hrun).
  assert (NoDup (sockets (start_state loaded))) as Hstart by constructor.
  revert Hrun Hstart. generalize (start_state loaded). revert out.
  induction es as [|e es IH]; intros out s0.
  - by intros [= <- <-].
  - rewrite run_cons. intros (s1 & o1 & o2 & Hstep & Hrun & ->) Hnd.
    eapply IH; [done|].
    apply step_sockets in Hstep as [->|[sid [->| ->]]]; [done| |].
    + unfold set_add. case_bool_decide; [done|].
      apply NoDup_app. split_and!; [done| |apply NoDup_singleton].
      intros x Hx ->%list_elem_of_singleton. done.
    + by apply NoDup_filter.
Qed.

(** In every state the server reaches, /api/health reports the size of the
    registry and the size of the directory, and the number of users it
    reports is at most the number of sockets connected. *)
Theorem health_counts s :
  Reachable cfg s →
  health_endpoint s = HealthOk (size (rooms s)) (size (users s))
  ∧ (size (users s) ≤ length (sockets s))%nat.
Proof.
  intros Hreach. split; [done|].
  pose proof (Reachable_sockets_NoDup _ Hreach) as Hnd.
  destruct (Reachable_wellformed _ _ Hreach) as (_ & Hdir & _).
  rewrite <-size_dom.
  rewrite <-(size_list_to_set (C:=gset string) (sockets s)) by done.
  apply subseteq_size. intros sid [ul Hsid]%elem_of_dom.
  apply elem_of_list_to_set. by destruct (Hdir _ _ Hsid).
Qed.

End HttpTheorems.

(** ** The retry loop of game:drawNumber *)

(** The number a draw picks is the number of the first sample of the random
    source whose number was not drawn yet; the loop fails to return only if
    every sample it is given names a drawn number. *)
Theorem pickNumber_spec drawn rnd :
  match pickNumber drawn rnd with
  | Some number =>
      ∃ tried r rest,
        rnd = tried ++ r :: rest
        ∧ Forall (λ r', Z.of_N (r' mod 90) + 1 ∈ drawn) tried
        ∧ number = Z.of_N (r mod 90) + 1 ∧ (number ∉ drawn)
  | None => Forall (λ r', Z.of_N (r' mod 90) + 1 ∈ drawn) rnd
  end.
Proof.
  induction rnd as [|r rnd IH]; simpl; [done|].
  unfold set_has. case_bool_decide as Hin.
  - destruct (pickNumber drawn rnd) as [number|].
    + destruct IH as (tried & r0 & rest & -> & Htried & -> & Hfree).
      exists (r :: tried), r0, rest. split_and!; [done| |done..].
      by constructor.
    + by constructor.
  - exists [], r, rnd. split_and!; [done|constructor|done..].
Qed.

(** * The further properties on the example runs *)

(** [generateRoomCode_spec]: Seven samples: the first six make the code of the
    example room, the seventh is left. *)
Lemma generateRoomCode_spec_witness :
  ∃ code,
    generateRoomCode [0; 1; 27; 28; 2; 3; 9]%N
    = Some (code, drop 6 [0; 1; 27; 28; 2; 3; 9]%N)
    ∧ String.list_ascii_of_string code
      = map randomChar (take 6 [0; 1; 27; 28; 2; 3; 9]%N)
    ∧ code_ok code.
Proof.
  apply (proj2 (generateRoomCode_spec [0; 1; 27; 28; 2; 3; 9]%N)). simpl. lia.
Defined.

(** [registry_sound]: The registry after the admin opened room "AB12CD". *)
Lemma registry_sound_witness :
  let s := state_after demo_cfg open_room in
  Reachable demo_cfg s ∧ rooms s !! "AB12CD" = Some 0%nat
  ∧ code_ok "AB12CD"
  ∧ (∃ room, rooms_get s "AB12CD" = Some (0%nat, room) ∧ roomId room = "AB12CD")
  ∧ (∀ code', rooms s !! code' = Some 0%nat → code' = "AB12CD").
Proof.
  intros s.
  assert (Reachable demo_cfg s) as Hreach.
  { apply state_after_Reachable. vm_compute. eexists. reflexivity. }
  assert (rooms s !! "AB12CD" = Some 0%nat) as Hcode by (vm_compute; reflexivity).
  clearbody s. split; [exact Hreach|]. split; [exact Hcode|].
  exact (registry_sound demo_cfg s "AB12CD" 0 Hreach Hcode).
Defined.

(** [directory_live]: The directory entry of Sam's socket "P". *)
Lemma directory_live_witness :
  let s := state_after demo_cfg (open_room ++ sam_joins) in
  Reachable demo_cfg s ∧ users s !! "P" = Some 1%nat
  ∧ "P" ∈ sockets s
  ∧ ∃ user, users_get s "P" = Some (1%nat, user) ∧ userId user = "P".
Proof.
  intros s.
  assert (Reachable demo_cfg s) as Hreach.
  { apply state_after_Reachable. vm_compute. eexists. reflexivity. }
  assert (users s !! "P" = Some 1%nat) as Hsid by (vm_compute; reflexivity).
  clearbody s. split; [exact Hreach|]. split; [exact Hsid|].
  exact (directory_live demo_cfg s "P" 1 Hreach Hsid).
Defined.

(** [due_win_check_runs]: Five draws are pending: the oldest win check runs on
    room object 0. *)
Lemma due_win_check_runs_witness :
  let s := state_after demo_cfg draws_unchecked in
  ∃ pending,
    Reachable demo_cfg s ∧ timers s = (0%nat, 0%nat) :: pending
    ∧ ∃ room user,
        roomObjs s !! 0%nat = Some room ∧ userObjs s !! 0%nat = Some user
        ∧ on_win_check s
          = (set_roomObj 0 (winCheck room).1 (with_timers pending s),
             map (rowCompletedEvent user) (winCheck room).2).
Proof.
  intros s.
  assert (Reachable demo_cfg s) as Hreach.
  { apply state_after_Reachable. vm_compute. eexists. reflexivity. }
  assert (∃ pending, timers s = (0%nat, 0%nat) :: pending) as [pending Hdue].
  { vm_compute. eexists. reflexivity. }
  clearbody s. exists pending. split; [exact Hreach|]. split; [exact Hdue|].
  exact (proj1 (due_win_check_runs demo_cfg s 0 0 pending Hreach Hdue)).
Defined.

(** [winner_consistent]: The room of the example game after Sam won. *)
Lemma winner_consistent_witness :
  let s := state_after demo_cfg demo_game in
  ∃ room,
    Reachable demo_cfg s ∧ roomObjs s !! 0%nat = Some room
    ∧ gameStarted room = false
    ∧ (gameOver room = true ↔ is_Some (winnerInfo room))
    ∧ winner room = wi_playerName <$> winnerInfo room.
Proof.
  intros s.
  assert (Reachable demo_cfg s) as Hreach.
  { apply state_after_Reachable. vm_compute. eexists. reflexivity. }
  assert (∃ room, roomObjs s !! 0%nat = Some room) as [room Hroom].
  { vm_compute. eexists. reflexivity. }
  clearbody s. exists room. split; [exact Hreach|]. split; [exact Hroom|].
  exact (winner_consistent demo_cfg s 0 room Hreach Hroom).
Defined.

(** [winner_is_final]: After the win, a refused draw, a resubmitted card and
    the admin's reconnection leave the winner as it is. *)
Lemma winner_is_final_witness :
  let s := state_after demo_cfg demo_game in
  ∃ s' out room info,
    run demo_cfg s after_game = Some (s', out)
    ∧ roomObjs s !! 0%nat = Some room
    ∧ winnerInfo room = Some info ∧ gameOver room = true
    ∧ ∃ room', roomObjs s' !! 0%nat = Some room'
               ∧ winnerInfo room' = Some info ∧ winner room' = winner room.
Proof.
  intros s.
  assert (∃ s' out, run demo_cfg s after_game = Some (s', out))
    as (s' & out & Hrun).
  { vm_compute. do 2 eexists. reflexivity. }
  assert (∃ room info, roomObjs s !! 0%nat = Some room
                       ∧ winnerInfo room = Some info ∧ gameOver room = true)
    as (room & info & Hroom & Hinfo & Hover).
  { vm_compute. do 2 eexists. repeat split; reflexivity. }
  clearbody s. exists s', out, room, info.
  split; [exact Hrun|]. split; [exact Hroom|].
  split; [exact Hinfo|]. split; [exact Hover|].
  exact (winner_is_final demo_cfg after_game s s' out 0 room info
           Hrun Hroom Hinfo Hover).
Defined.

(** [collected_rows_are_complete]: The record the detector collects once the
    five numbers of Sam's first row are drawn. *)
Lemma collected_rows_are_complete_witness :
  let s := state_after demo_cfg draws_unchecked in
  ∃ room c,
    roomObjs s !! 0%nat = Some room
    ∧ c ∈ (checkPlayersForCompletedRows room).2
    ∧ ∃ pd rows row,
        (c_playerId c, pd) ∈ playerData room
        ∧ pd_bingoCard pd = Some rows
        ∧ (0 < c_rowNumber c)%nat
        ∧ rows !! pred (c_rowNumber c) = Some row
        ∧ checkRowComplete row (drawnNumbers room) = Some (c_numbers c)
        ∧ c_playerName c = pd_username pd
        ∧ rowKey (c_playerId c) (pred (c_rowNumber c)) ∉ completedRows room.
Proof.
  intros s.
  assert (∃ room, roomObjs s !! 0%nat = Some room
                  ∧ ∃ c, (checkPlayersForCompletedRows room).2 = [c])
    as (room & Hroom & c & Hc).
  { eexists. split; [vm_compute; reflexivity|]. eexists. vm_compute. reflexivity. }
  clearbody s. exists room, c. split; [exact Hroom|].
  assert (c ∈ (checkPlayersForCompletedRows room).2) as Hin.
  { rewrite Hc. apply list_elem_of_singleton. reflexivity. }
  split; [exact Hin|].
  exact (collected_rows_are_complete room c Hin).
Defined.

(** [win_check_notifies_complete_rows]: Sam's first row, complete and not yet
    announced. *)
Lemma win_check_notifies_complete_rows_witness :
  let s := state_after demo_cfg draws_unchecked in
  ∃ room pd rows row,
    roomObjs s !! 0%nat = Some room
    ∧ (sam_id, pd) ∈ playerData room ∧ pd_bingoCard pd = Some rows
    ∧ rows !! 0%nat = Some row
    ∧ is_Some (checkRowComplete row (drawnNumbers room))
    ∧ rowKey sam_id 0 ∈ completedRows (winCheck room).1
    ∧ (rowKey sam_id 0 ∉ completedRows room →
       gameOver (winCheck room).1 = true
       ∧ ∃ c, c ∈ (winCheck room).2 ∧ keyOf c = rowKey sam_id 0).
Proof.
  intros s.
  assert (∃ room pd rows row numbers,
            roomObjs s !! 0%nat = Some room
            ∧ playerData room = [(sam_id, pd)] ∧ pd_bingoCard pd = Some rows
            ∧ rows !! 0%nat = Some row
            ∧ checkRowComplete row (drawnNumbers room) = Some numbers)
    as (room & pd & rows & row & numbers & Hroom & Hpd & Hcard & Hrow & Hok).
  { do 5 eexists. split_and!; (vm_compute; reflexivity). }
  clearbody s. exists room, pd, rows, row.
  assert ((sam_id, pd) ∈ playerData room) as Hin.
  { rewrite Hpd. apply list_elem_of_singleton. reflexivity. }
  assert (is_Some (checkRowComplete row (drawnNumbers room))) as Hsome.
  { rewrite Hok. eexists. reflexivity. }
  split; [exact Hroom|]. split; [exact Hin|]. split; [exact Hcard|].
  split; [exact Hrow|]. split; [exact Hsome|].
  exact (win_check_notifies_complete_rows room sam_id pd rows 0 row
           Hin Hcard Hrow Hsome).
Defined.

(** [win_check_without_news]: After the win was announced no row is left to
    announce: rows 2 and 3 of Sam's card are incomplete. *)
Lemma win_check_without_news_witness :
  let s := state_after demo_cfg demo_game in
  ∃ room,
    roomObjs s !! 0%nat = Some room
    ∧ winCheck room = (room, [])
    ∧ ∀ s0 rl ul pending,
        timers s0 = (rl, ul) :: pending → roomObjs s0 !! rl = Some room →
        on_win_check s0 = (with_timers pending s0, []).
Proof.
  intros s.
  assert (∃ room pd,
            roomObjs s !! 0%nat = Some room
            ∧ playerData room = [(sam_id, pd)] ∧ pd_bingoCard pd = sam_card
            ∧ drawnNumbers room = [5; 12; 23; 41; 67]
            ∧ completedRows room = [rowKey sam_id 0])
    as (room & pd & Hroom & Hpd & Hcard & Hdrawn & Hnotified).
  { do 2 eexists. split_and!; (vm_compute; reflexivity). }
  clearbody s. exists room. split; [exact Hroom|].
  apply (win_check_without_news room).
  intros playerId pd' rows rowIndex row Hin Hcard' Hrow Hok.
  rewrite Hpd in Hin. apply list_elem_of_singleton in Hin.
  injection Hin as -> ->. rewrite Hcard in Hcard'. unfold sam_card in Hcard'.
  injection Hcard' as <-. rewrite Hdrawn in Hok. rewrite Hnotified.
  destruct rowIndex as [|[|[|k]]]; simpl in Hrow; try discriminate Hrow;
    injection Hrow as <-.
  - apply list_elem_of_singleton. reflexivity.
  - vm_compute in Hok. destruct Hok as [numbers Hok]. discriminate Hok.
  - vm_compute in Hok. destruct Hok as [numbers Hok]. discriminate Hok.
Defined.

(** [drawn_append_only]: The five draws of the example game extend the drawn
    numbers. *)
Lemma drawn_append_only_witness :
  let s := state_after demo_cfg (open_room ++ sam_joins) in
  ∃ s' out room,
    run demo_cfg s draws_to_win = Some (s', out)
    ∧ roomObjs s !! 0%nat = Some room
    ∧ ∃ room', roomObjs s' !! 0%nat = Some room'
               ∧ drawnNumbers room `prefix_of` drawnNumbers room'.
Proof.
  intros s.
  assert (∃ s' out, run demo_cfg s draws_to_win = Some (s', out))
    as (s' & out & Hrun).
  { vm_compute. do 2 eexists. reflexivity. }
  assert (∃ room, roomObjs s !! 0%nat = Some room) as [room Hroom].
  { vm_compute. eexists. reflexivity. }
  clearbody s. exists s', out, room. split; [exact Hrun|]. split; [exact Hroom|].
  exact (drawn_append_only demo_cfg draws_to_win s s' out 0 room Hrun Hroom).
Defined.

(** [profiles_survive]: Sam's profile survives the loss of the connection "P". *)
Lemma profiles_survive_witness :
  let s := state_after demo_cfg (open_room ++ sam_joins) in
  ∃ s' out room,
    run demo_cfg s [disconnect "P"; connection "Q"] = Some (s', out)
    ∧ roomObjs s !! 0%nat = Some room
    ∧ ∃ room', roomObjs s' !! 0%nat = Some room'
               ∧ (playerData room).*1 `prefix_of` (playerData room').*1.
Proof.
  intros s.
  assert (∃ s' out, run demo_cfg s [disconnect "P"; connection "Q"]
                    = Some (s', out)) as (s' & out & Hrun).
  { vm_compute. do 2 eexists. reflexivity. }
  assert (∃ room, roomObjs s !! 0%nat = Some room) as [room Hroom].
  { vm_compute. eexists. reflexivity. }
  clearbody s. exists s', out, room. split; [exact Hrun|]. split; [exact Hroom|].
  exact (profiles_survive demo_cfg _ s s' out 0 room Hrun Hroom).
Defined.

(** [cards_change_only_by_bingoCard]: Sam's card through the draws and win
    checks of the example game. *)
Lemma cards_change_only_by_bingoCard_witness :
  let s := state_after demo_cfg (open_room ++ sam_joins) in
  ∃ s' out room pd,
    run demo_cfg s draws_to_win = Some (s', out)
    ∧ roomObjs s !! 0%nat = Some room
    ∧ map_get sam_id (playerData room) = Some pd
    ∧ ∃ room' pd',
        roomObjs s' !! 0%nat = Some room'
        ∧ map_get sam_id (playerData room') = Some pd'
        ∧ pd_bingoCard pd' = pd_bingoCard pd.
Proof.
  intros s.
  assert (∃ s' out, run demo_cfg s draws_to_win = Some (s', out))
    as (s' & out & Hrun).
  { vm_compute. do 2 eexists. reflexivity. }
  assert (∃ room pd, roomObjs s !! 0%nat = Some room
                     ∧ map_get sam_id (playerData room) = Some pd)
    as (room & pd & Hroom & Hpd).
  { do 2 eexists. split_and!; (vm_compute; reflexivity). }
  clearbody s. exists s', out, room, pd.
  split; [exact Hrun|]. split; [exact Hroom|]. split; [exact Hpd|].
  apply (cards_change_only_by_bingoCard demo_cfg draws_to_win s s' out 0 room
           sam_id pd Hrun); [|exact Hroom|exact Hpd].
  intros sid code card p Hin. unfold draws_to_win in Hin.
  repeat (apply elem_of_cons in Hin as [Hin|Hin]; [discriminate Hin|]).
  by apply elem_of_nil in Hin.
Defined.

(** [login_unbinds_admin]: The admin of room "AB12CD" logs in again on the
    same socket. *)
Lemma login_unbinds_admin_witness :
  let s := state_after demo_cfg open_room in
  ∃ s', on_admin_login demo_cfg s "A" "admin" "admin123"
        = (s', [(ToSocket "A", admin_loginSuccess true "admin")])
        ∧ users_get s' "A"
          = Some (length (userObjs s), mkUser "A" "admin" true None None None)
        ∧ rooms s' = rooms s ∧ roomObjs s' = roomObjs s
        ∧ ∀ rnd now,
            on_game_drawNumber s' "A" rnd now
            = Some (s', [(ToSocket "A", NotAuthorized_draw)]).
Proof.
  intros s. clearbody s.
  exact (login_unbinds_admin demo_cfg s "A" "admin" "admin123" eq_refl eq_refl).
Defined.

(** [create_needs_admin]: A socket that never logged in asks for a room. *)
Lemma create_needs_admin_witness :
  let s := state_after demo_cfg [connection "P"] in
  on_room_create s "P" None [0; 1; 27; 28; 2; 3]%N 1000
  = Some (s, [(ToSocket "P", NotAuthorized_create)]).
Proof.
  intros s.
  assert (users_get s "P" = None) as Hnone by (vm_compute; reflexivity).
  clearbody s. apply (proj2 (create_needs_admin s "P" None _ 1000)).
  intros (ul & user & Hu & _). rewrite Hnone in Hu. discriminate Hu.
Defined.

(** [join_validation]: A name of a tab and a no-break space. *)
Lemma join_validation_witness :
  let s := state_after demo_cfg open_room in
  ∃ room,
    rooms_get s "AB12CD" = Some (0%nat, room)
    ∧ on_room_join s "P" "AB12CD" blank_name None 2000 "k3j9x0q1z"
      = (s, [(ToSocket "P", ValidationError)]).
Proof.
  intros s.
  assert (∃ room, rooms_get s "AB12CD" = Some (0%nat, room)) as [room Hget].
  { vm_compute. eexists. reflexivity. }
  clearbody s. exists room. split; [exact Hget|].
  apply (proj2 (join_validation s "P" "AB12CD" blank_name None 2000 "k3j9x0q1z"
                  0 room Hget)).
  exists [[ascii_of_nat 9]; [ascii_of_nat 194; ascii_of_nat 160]].
  split; [|reflexivity].
  repeat (apply Forall_cons; split; [compute_done|]). constructor.
Defined.

(** [join_name_taken]: " SAM " while Sam is in the room. *)
Lemma join_name_taken_witness :
  let s := state_after demo_cfg (open_room ++ sam_joins) in
  ∃ room,
    rooms_get s "AB12CD" = Some (0%nat, room) ∧ trim " SAM " ≠ ""
    ∧ on_room_join s "Q" "AB12CD" " SAM " None 3000 "a1b2c3d4e"
      = (s, [(ToSocket "Q", NameTaken)]).
Proof.
  intros s.
  assert (∃ room pd, rooms_get s "AB12CD" = Some (0%nat, room)
                     ∧ playerData room = [(sam_id, pd)]
                     ∧ toLowerCase (pd_username pd) = toLowerCase (trim " SAM "))
    as (room & pd & Hget & Hpd & Hname).
  { do 2 eexists. split_and!; (vm_compute; reflexivity). }
  assert (trim " SAM " ≠ "") as Htrim by (vm_compute; discriminate).
  clearbody s. exists room. split; [exact Hget|]. split; [exact Htrim|].
  apply (proj2 (join_name_taken s "Q" "AB12CD" " SAM " None 3000 "a1b2c3d4e"
                  0 room Hget Htrim)).
  exists sam_id, pd. split; [|split; [discriminate|exact Hname]].
  rewrite Hpd. apply list_elem_of_singleton. reflexivity.
Defined.


(** [bingoCard_invalid]: A card sent before anything else happened. *)
Lemma bingoCard_invalid_witness :
  on_player_bingoCard (start_state []) "P" "AB12CD" sam_card None
  = (start_state [], [(ToSocket "P", InvalidRequest)]).
Proof.
  apply (proj2 (bingoCard_invalid (start_state []) "P" "AB12CD" sam_card None)).
  intros (ul & user & rl & room & Hu & _). vm_compute in Hu. discriminate Hu.
Defined.

(** [bingoCard_stored]: Sam replaces the card by an empty one without naming
    a profile; the admin on "A" is sent the new card. *)
Lemma bingoCard_stored_witness :
  let s := state_after demo_cfg (open_room ++ sam_joins) in
  ∃ user room s' room',
    users_get s "P" = Some (1%nat, user)
    ∧ rooms_get s "AB12CD" = Some (0%nat, room)
    ∧ on_player_bingoCard s "P" "AB12CD" (Some []) None
      = (s', [(ToSocket "A", player_bingoCard sam_id (username user) (Some []))])
    ∧ rooms_get s' "AB12CD" = Some (0%nat, room')
    ∧ map_get sam_id (playerData room')
      = Some (match map_get sam_id (playerData room) with
              | Some pd => mkPlayerData (pd_username pd) (Some []) (pd_socketId pd)
              | None => mkPlayerData (username user) (Some []) (Some "P")
              end)
    ∧ users_get s' "P" = Some (1%nat, user_with_bingoCard (Some []) user).
Proof.
  intros s.
  assert (∃ user room, users_get s "P" = Some (1%nat, user)
                       ∧ rooms_get s "AB12CD" = Some (0%nat, room)
                       ∧ players room = ["A"; "P"]
                       ∧ u_playerId user = Some sam_id
                       ∧ adminSocketId room = Some "A")
    as (user & room & Hu & Hget & Hplayers & Hpid & Hslot).
  { do 2 eexists. split_and!; (vm_compute; reflexivity). }
  assert ("A" ∈ sockets s) as Hconn by compute_done.
  clearbody s.
  destruct (bingoCard_stored s "P" "AB12CD" (Some []) None 1 user 0 room sam_id
              Hu Hget)
    as (s' & out & room' & Hres & Hget' & Hstored & _ & _ & _ & _ & Hu' & Hout).
  - rewrite Hplayers. apply elem_of_cons. right.
    apply list_elem_of_singleton. reflexivity.
  - exact Hpid.
  - discriminate.
  - rewrite Hslot in Hout. simpl in Hout.
    rewrite (bool_decide_eq_true_2 _ Hconn) in Hout. rewrite Hout in Hres.
    exists user, room, s', room'.
    split; [exact Hu|]. split; [exact Hget|]. split; [exact Hres|].
    split; [exact Hget'|]. split; [exact Hstored|exact Hu'].
Defined.

(** [bingoCard_without_profile]: The admin of the room sends a card. *)
Lemma bingoCard_without_profile_witness :
  let s := state_after demo_cfg open_room in
  ∃ user room s' out,
    users_get s "A" = Some (0%nat, user)
    ∧ rooms_get s "AB12CD" = Some (0%nat, room)
    ∧ on_player_bingoCard s "A" "AB12CD" sam_card None = (s', out)
    ∧ rooms s' = rooms s ∧ roomObjs s' = roomObjs s
    ∧ users_get s' "A" = Some (0%nat, user_with_bingoCard sam_card user).
Proof.
  intros s.
  assert (∃ user room, users_get s "A" = Some (0%nat, user)
                       ∧ rooms_get s "AB12CD" = Some (0%nat, room)
                       ∧ players room = ["A"]
                       ∧ u_playerId user = None)
    as (user & room & Hu & Hget & Hplayers & Hpid).
  { do 2 eexists. split_and!; (vm_compute; reflexivity). }
  clearbody s.
  destruct (bingoCard_without_profile s "A" "AB12CD" sam_card None 0 user 0 room
              Hu Hget)
    as (s' & out & Hres & Hrooms & Hobjs & Hu').
  - rewrite Hplayers. apply list_elem_of_singleton. reflexivity.
  - reflexivity.
  - rewrite Hpid. reflexivity.
  - exists user, room, s', out.
    split; [exact Hu|]. split; [exact Hget|]. split; [exact Hres|].
    split; [exact Hrooms|]. split; [exact Hobjs|exact Hu'].
Defined.

(** [player_disconnect_keeps_profile]: Sam's connection "P" drops. *)
Lemma player_disconnect_keeps_profile_witness :
  let s := state_after demo_cfg (open_room ++ sam_joins) in
  ∃ user room pd s' rest room',
    users_get s "P" = Some (1%nat, user)
    ∧ rooms_get s "AB12CD" = Some (0%nat, room)
    ∧ map_get sam_id (playerData room) = Some pd
    ∧ on_disconnect s "P"
      = (s', (ToRoom (Some "AB12CD"),
              player_left (length (set_delete "P" (players room))) (Some sam_id)
                (username user)) :: rest)
    ∧ rooms_get s' "AB12CD" = Some (0%nat, room')
    ∧ map_get sam_id (playerData room')
      = Some (mkPlayerData (pd_username pd) (pd_bingoCard pd) None)
    ∧ players room' = set_delete "P" (players room).
Proof.
  intros s.
  assert (∃ user room pd, users_get s "P" = Some (1%nat, user)
                          ∧ rooms_get s "AB12CD" = Some (0%nat, room)
                          ∧ map_get sam_id (playerData room) = Some pd
                          ∧ isAdmin user = false
                          ∧ u_roomId user = Some "AB12CD"
                          ∧ u_playerId user = Some sam_id)
    as (user & room & pd & Hu & Hget & Hpd & Hadm & Hcode & Hpid).
  { do 3 eexists. split_and!; (vm_compute; reflexivity). }
  clearbody s.
  destruct (player_disconnect_keeps_profile s "P" 1 user "AB12CD" 0 room sam_id pd
              Hu Hadm Hcode)
    as (s' & rest & room' & Hres & _ & _ & Hget' & Hkept & _ & _ & Hplayers & _).
  - discriminate.
  - exact Hget.
  - exact Hpid.
  - discriminate.
  - exact Hpd.
  - exists user, room, pd, s', rest, room'.
    split; [exact Hu|]. split; [exact Hget|]. split; [exact Hpd|].
    split; [exact Hres|]. split; [exact Hget'|]. split; [exact Hkept|exact Hplayers].
Defined.

(** [addRoomToHistory_bounded]: A second record with a limit of two. *)
Lemma addRoomToHistory_bounded_witness :
  addRoomToHistory 2 None (summary_at "R2" 20) [summary_at "R1" 10]
  = [summary_at "R1" 10] ++ [summary_at "R2" 20].
Proof.
  apply (proj2 (proj2 (addRoomToHistory_bounded 2 None (summary_at "R2" 20)
                         [summary_at "R1" 10]))).
  - simpl. lia.
  - intros size Hsize. discriminate Hsize.
Defined.

(** [close_removes_room]: The admin closes the room it created. *)
Lemma close_removes_room_witness :
  let s := state_after demo_cfg open_room in
  ∃ room s' message,
    rooms_get s "AB12CD" = Some (0%nat, room)
    ∧ on_room_close demo_cfg s "A" "AB12CD" 5000 None
      = (s', [(ToRoom (Some "AB12CD"), room_closed message)])
    ∧ rooms s' = delete "AB12CD" (rooms s) ∧ roomObjs s' = roomObjs s
    ∧ (∀ sid' playerName psid now' rnd36,
         on_room_join s' sid' "AB12CD" playerName psid now' rnd36
         = (s', [(ToSocket sid', RoomNotFound)])).
Proof.
  intros s.
  assert (∃ user room, users_get s "A" = Some (0%nat, user)
                       ∧ rooms_get s "AB12CD" = Some (0%nat, room)
                       ∧ isAdmin user = true
                       ∧ adminId room = userId user)
    as (user & room & Hu & Hget & Hadm & Hid).
  { do 2 eexists. split_and!; (vm_compute; reflexivity). }
  clearbody s.
  destruct (close_removes_room demo_cfg s "A" "AB12CD" 0 room 5000 None Hget)
    as (s' & message & Hres & Hrooms & Hobjs & _ & _ & _ & _ & Hjoin & _).
  - left. exists 0%nat, user. split; [exact Hu|]. split; [exact Hadm|exact Hid].
  - exists room, s', message.
    split; [exact Hget|]. split; [exact Hres|]. split; [exact Hrooms|].
    split; [exact Hobjs|exact Hjoin].
Defined.

(** [close_archives_finished]: Sam's socket closes the room after the win. *)
Lemma close_archives_finished_witness :
  let s := state_after demo_cfg demo_game in
  ∃ room info,
    Reachable demo_cfg s
    ∧ rooms_get s "AB12CD" = Some (0%nat, room) ∧ gameOver room = true
    ∧ winnerInfo room = Some info ∧ winner room = Some (wi_playerName info)
    ∧ roomHistory (on_room_close demo_cfg s "P" "AB12CD" 12000 None).1
      = addRoomToHistory (MAX_HISTORY_SIZE demo_cfg) None
          (mkSummary "AB12CD" (createdAt room) 12000 (wi_playerName info)
             (wi_rowNumber info) (wi_numbers info) (wi_bingoCard info)
             (length (playerData room)) (length (drawnNumbers room)))
          (roomHistory s).
Proof.
  intros s.
  assert (Reachable demo_cfg s) as Hreach.
  { apply state_after_Reachable. vm_compute. eexists. reflexivity. }
  assert (∃ room, rooms_get s "AB12CD" = Some (0%nat, room)
                  ∧ gameOver room = true) as (room & Hget & Hover).
  { eexists. split_and!; (vm_compute; reflexivity). }
  clearbody s.
  destruct (close_archives_finished demo_cfg s "P" "AB12CD" 0 room 12000 None
              Hreach Hget Hover) as (info & Hinfo & Hwinner & Harchive).
  exists room, info. split; [exact Hreach|]. split; [exact Hget|].
  split; [exact Hover|]. split; [exact Hinfo|]. split; [exact Hwinner|exact Harchive].
Defined.

(** [archive_bounded]: The example game, closed by Sam's socket, from an empty
    archive. *)
Lemma archive_bounded_witness :
  ∃ s' out,
    run demo_cfg (start_state [])
      (demo_game ++ [room_close "P" "AB12CD" 12000 None]) = Some (s', out)
    ∧ (length (roomHistory s') ≤ Z.to_nat (MAX_HISTORY_SIZE demo_cfg))%nat.
Proof.
  assert (∃ s' out,
            run demo_cfg (start_state [])
              (demo_game ++ [room_close "P" "AB12CD" 12000 None]) = Some (s', out))
    as (s' & out & Hrun).
  { vm_compute. do 2 eexists. reflexivity. }
  exists s', out. split; [exact Hrun|].
  apply (archive_bounded demo_cfg _ (start_state []) s' out Hrun).
  apply Nat.le_0_l.
Defined.

(** [history_needs_admin_token]: The scheme Basic with a token that verifies. *)
Lemma history_needs_admin_token_witness :
  history_endpoint demo_verify (start_state []) (Some "Basic t0k3n")
  = HistoryOk (roomHistory (start_state [])).
Proof.
  apply (proj2 (history_needs_admin_token demo_verify (start_state [])
                  "Basic" "t0k3n" ltac:(compute_done) ltac:(compute_done)
                  ltac:(discriminate))).
  reflexivity.
Defined.

(** [history_without_token]: A token sent without a scheme word. *)
Lemma history_without_token_witness :
  history_endpoint demo_verify (start_state []) (Some "t0k3n")
  = Unauthorized "No token provided".
Proof.
  apply (proj1 (proj2 (history_without_token demo_verify (start_state [])))).
  compute_done.
Defined.

(** [health_counts]: With the admin and Sam connected. *)
Lemma health_counts_witness :
  let s := state_after demo_cfg (open_room ++ sam_joins) in
  Reachable demo_cfg s
  ∧ health_endpoint s = HealthOk (size (rooms s)) (size (users s))
  ∧ (size (users s) ≤ length (sockets s))%nat.
Proof.
  intros s.
  assert (Reachable demo_cfg s) as Hreach.
  { apply state_after_Reachable. vm_compute. eexists. reflexivity. }
  clearbody s. split; [exact Hreach|].
  exact (health_counts demo_cfg s Hreach).
Defined.
